(** * Avito messenger monitor: the Puppeteer session controller

    A shallow embedding of [PuppeteerService] (the credential-driven
    revision, [startMonitoring(phone, password, smsCode)]) together with the
    [AppController] command surface and the [MessagesService] sink, and
    the properties of the login state machine, the poll / dedup loop and the
    session controller that the specification states about them.

    Conventions.
    - A JavaScript string is the list of its UTF-16 code units ([jsstring]);
      [substring], [length], [includes] and [trim] count code units exactly
      as the engine does.
    - The browser and the remote site are the environment: an arbitrary state
      type [W] with one transition per Puppeteer call ([Puppeteer W]).  Every
      call that returns a promise may reject ([Throw]).
    - Effects of the service on the outside (browser launches and closes,
      timers, published messages, DOM mutations, warnings) are appended to an
      event log, from which counts such as the number of open browsers are
      computed.  [logger.log] and [logger.debug] lines are not modelled;
      [logger.warn] and [logger.error] lines are. *)

From Stdlib Require Import NArith List Bool String Ascii Lia.
From stdpp Require Import base decidable countable list gmap.

Open Scope N_scope.

(** ** JavaScript strings *)

Module JS.

Abbreviation jsstring := (list N).

(** An ASCII literal of the source, as code units. *)
Fixpoint lit (s : string) : jsstring :=
  match s with
  | EmptyString => []
  | String c s' => N_of_ascii c :: lit s'
  end.

(** A selector literal of the source.  The source writes attribute values
    in double quotes; here they are typed with single quotes and [sel] puts
    the double quotes (code unit 34) back. *)
Definition sel (s : string) : jsstring :=
  map (fun c => if N.eqb c 39 then 34 else c) (lit s).

Fixpoint eqb (s t : jsstring) : bool :=
  match s, t with
  | [], [] => true
  | a :: s', b :: t' => N.eqb a b && eqb s' t'
  | _, _ => false
  end.

(** [s.startsWith(t)] *)
Fixpoint startsWith (s t : jsstring) : bool :=
  match t, s with
  | [], _ => true
  | b :: t', a :: s' => N.eqb a b && startsWith s' t'
  | _ :: _, [] => false
  end.

(** [s.includes(t)] *)
Fixpoint includes (s t : jsstring) : bool :=
  startsWith s t ||
  match s with
  | [] => false
  | _ :: s' => includes s' t
  end.

(** [s.substring(0, n)] for a literal [n] *)
Definition substring0 (n : nat) (s : jsstring) : jsstring := take n s.

(** White space and line terminators, the characters [trim] strips and
    the class [\s] matches. *)
Definition isWhiteSpace (c : N) : bool :=
  (9 <=? c) && (c <=? 13)
  || N.eqb c 32 || N.eqb c 160 || N.eqb c 5760
  || (8192 <=? c) && (c <=? 8202)
  || N.eqb c 8232 || N.eqb c 8233 || N.eqb c 8239 || N.eqb c 8287
  || N.eqb c 12288 || N.eqb c 65279.

Fixpoint trimStart (s : jsstring) : jsstring :=
  match s with
  | [] => []
  | c :: s' => if isWhiteSpace c then trimStart s' else s
  end.

Definition trimEnd (s : jsstring) : jsstring := rev (trimStart (rev s)).

(** [s.trim()] *)
Definition trim (s : jsstring) : jsstring := trimEnd (trimStart s).

(** Truthiness of a string: non-empty. *)
Definition truthy (s : jsstring) : bool :=
  match s with [] => false | _ :: _ => true end.

(** [s.toLowerCase()] is applied by the source only inside the page; the
    environment delivers the lowered text. *)

(** [s.split('\n').pop()]: the part after the last line feed. *)
Fixpoint lastLine_aux (acc s : jsstring) : jsstring :=
  match s with
  | [] => rev acc
  | c :: s' => if N.eqb c 10 then lastLine_aux [] s' else lastLine_aux (c :: acc) s'
  end.

Definition lastLine (s : jsstring) : jsstring := lastLine_aux [] s.

(** [s.replace(/\s/g, '')] *)
Definition stripWhiteSpace (s : jsstring) : jsstring :=
  filter (fun c => isWhiteSpace c = false) s.

(** [s.replace(/[\s\-\(\)]/g, '')] *)
Definition stripPhonePunctuation (s : jsstring) : jsstring :=
  filter (fun c => (isWhiteSpace c || N.eqb c 45 || N.eqb c 40 || N.eqb c 41) = false) s.

End JS.

Export JS.

Arguments lit : simpl never.
Arguments sel : simpl never.
Arguments includes : simpl never.

(** ** Source literals

    Cyrillic literals are spelled out in code units; the comment gives the
    literal of the source. *)

Module Lit.

(* 'Рушан' *)
Definition Rushan : jsstring := [1056; 1091; 1096; 1072; 1085].
(* 'Рушан Натфуллин' *)
Definition RushanNatfullin : jsstring :=
  Rushan ++ [32; 1053; 1072; 1090; 1092; 1091; 1083; 1083; 1080; 1085].
(* 'Система' *)
Definition Sistema : jsstring := [1057; 1080; 1089; 1090; 1077; 1084; 1072].
(* 'код' and 'Код' *)
Definition kod : jsstring := [1082; 1086; 1076].
Definition Kod : jsstring := [1050; 1086; 1076].
(* 'войти', 'вход' *)
Definition voyti : jsstring := [1074; 1086; 1081; 1090; 1080].
Definition vhod : jsstring := [1074; 1093; 1086; 1076].
(* 'сообщени', 'мессенджер', 'сообщение', 'Написать' *)
Definition soobscheni : jsstring := [1089; 1086; 1086; 1073; 1097; 1077; 1085; 1080].
Definition messendzher : jsstring :=
  [1084; 1077; 1089; 1089; 1077; 1085; 1076; 1078; 1077; 1088].
Definition soobschenie : jsstring := soobscheni ++ [1077].
Definition Napisat : jsstring := [1053; 1072; 1087; 1080; 1089; 1072; 1090; 1100].
(* 'Телефон', 'телефон', 'Войти' *)
Definition Telefon : jsstring := [1058; 1077; 1083; 1077; 1092; 1086; 1085].
Definition telefon : jsstring := [1090; 1077; 1083; 1077; 1092; 1086; 1085].
Definition Voyti : jsstring := [1042; 1086; 1081; 1090; 1080].
(* 'неверн', 'неправильн', 'ошибк' *)
Definition nevern : jsstring := [1085; 1077; 1074; 1077; 1088; 1085].
Definition nepraviln : jsstring :=
  [1085; 1077; 1087; 1088; 1072; 1074; 1080; 1083; 1100; 1085].
Definition oshibk : jsstring := [1086; 1096; 1080; 1073; 1082].

(* 'Неверный SMS-код. Введите код заново.' *)
Definition invalidSmsCode : jsstring :=
  [1053; 1077; 1074; 1077; 1088; 1085; 1099; 1081; 32] ++ lit "SMS-" ++ kod
  ++ [46; 32; 1042; 1074; 1077; 1076; 1080; 1090; 1077; 32] ++ kod
  ++ [32; 1079; 1072; 1085; 1086; 1074; 1086; 46].
(* 'Авторизация не подтверждена' *)
Definition authNotConfirmed : jsstring :=
  [1040; 1074; 1090; 1086; 1088; 1080; 1079; 1072; 1094; 1080; 1103; 32; 1085; 1077; 32;
   1087; 1086; 1076; 1090; 1074; 1077; 1088; 1078; 1076; 1077; 1085; 1072].
(* 'Авторизация не удалась. Проверьте правильность данных.' *)
Definition authFailed : jsstring :=
  [1040; 1074; 1090; 1086; 1088; 1080; 1079; 1072; 1094; 1080; 1103; 32; 1085; 1077; 32;
   1091; 1076; 1072; 1083; 1072; 1089; 1100; 46; 32;
   1055; 1088; 1086; 1074; 1077; 1088; 1100; 1090; 1077; 32;
   1087; 1088; 1072; 1074; 1080; 1083; 1100; 1085; 1086; 1089; 1090; 1100; 32;
   1076; 1072; 1085; 1085; 1099; 1093; 46].
(* 'Авторизация не выполнена в течение 5 минут. Пожалуйста, авторизуйтесь
   и попробуйте снова.' *)
Definition authTimedOut : jsstring :=
  [1040; 1074; 1090; 1086; 1088; 1080; 1079; 1072; 1094; 1080; 1103; 32; 1085; 1077; 32;
   1074; 1099; 1087; 1086; 1083; 1085; 1077; 1085; 1072; 32; 1074; 32;
   1090; 1077; 1095; 1077; 1085; 1080; 1077; 32; 53; 32;
   1084; 1080; 1085; 1091; 1090; 46; 32;
   1055; 1086; 1078; 1072; 1083; 1091; 1081; 1089; 1090; 1072; 44; 32;
   1072; 1074; 1090; 1086; 1088; 1080; 1079; 1091; 1081; 1090; 1077; 1089; 1100; 32;
   1080; 32; 1087; 1086; 1087; 1088; 1086; 1073; 1091; 1081; 1090; 1077; 32;
   1089; 1085; 1086; 1074; 1072; 46].
(* 'Ошибка при авторизации' *)
Definition loginErrorDefault : jsstring :=
  [1054; 1096; 1080; 1073; 1082; 1072; 32; 1087; 1088; 1080; 32;
   1072; 1074; 1090; 1086; 1088; 1080; 1079; 1072; 1094; 1080; 1080].
(* 'Ошибка при запуске мониторинга' *)
Definition startErrorDefault : jsstring :=
  [1054; 1096; 1080; 1073; 1082; 1072; 32; 1087; 1088; 1080; 32;
   1079; 1072; 1087; 1091; 1089; 1082; 1077; 32;
   1084; 1086; 1085; 1080; 1090; 1086; 1088; 1080; 1085; 1075; 1072].
(* 'Требуется SMS-код' *)
Definition smsRequired : jsstring :=
  [1058; 1088; 1077; 1073; 1091; 1077; 1090; 1089; 1103; 32] ++ lit "SMS-" ++ kod.

(* 'Ошибка авторизации: ' *)
Definition loginErrorPrefix : jsstring :=
  [1054; 1096; 1080; 1073; 1082; 1072; 32; 1072; 1074; 1090; 1086; 1088; 1080; 1079;
   1072; 1094; 1080; 1080; 58; 32].
(* 'Ошибка при автоматической авторизации:' *)
Definition autoLoginError : jsstring :=
  [1054; 1096; 1080; 1073; 1082; 1072; 32; 1087; 1088; 1080; 32; 1072; 1074; 1090;
   1086; 1084; 1072; 1090; 1080; 1095; 1077; 1089; 1082; 1086; 1081; 32; 1072; 1074;
   1090; 1086; 1088; 1080; 1079; 1072; 1094; 1080; 1080; 58].
(* 'Автоматическая авторизация не подтверждена, ожидание ручной авторизации...' *)
Definition autoLoginNotConfirmed : jsstring :=
  [1040; 1074; 1090; 1086; 1084; 1072; 1090; 1080; 1095; 1077; 1089; 1082; 1072; 1103;
   32; 1072; 1074; 1090; 1086; 1088; 1080; 1079; 1072; 1094; 1080; 1103; 32; 1085;
   1077; 32; 1087; 1086; 1076; 1090; 1074; 1077; 1088; 1078; 1076; 1077; 1085; 1072;
   44; 32; 1086; 1078; 1080; 1076; 1072; 1085; 1080; 1077; 32; 1088; 1091; 1095; 1085;
   1086; 1081; 32; 1072; 1074; 1090; 1086; 1088; 1080; 1079; 1072; 1094; 1080; 1080;
   46; 46; 46].
(* '⚠️ ', the head of the three warnings of lines 754-756 *)
Definition warningSign : jsstring := [9888; 65039; 32].
(* 'Мониторинг будет работать, когда вы откроете мессенджер вручную' *)
Definition monitoringWillWork : jsstring :=
  [1052; 1086; 1085; 1080; 1090; 1086; 1088; 1080; 1085; 1075; 32; 1073; 1091; 1076;
   1077; 1090; 32; 1088; 1072; 1073; 1086; 1090; 1072; 1090; 1100; 44; 32; 1082; 1086;
   1075; 1076; 1072; 32; 1074; 1099; 32; 1086; 1090; 1082; 1088; 1086; 1077; 1090; 1077;
   32; 1084; 1077; 1089; 1089; 1077; 1085; 1076; 1078; 1077; 1088; 32; 1074; 1088; 1091;
   1095; 1085; 1091; 1102].
(* the text of the messenger-ready system message (line 771) *)
Definition messengerReadyText : jsstring :=
  [9989; 32; 1052; 1077; 1089; 1089; 1077; 1085; 1076; 1078; 1077; 1088; 32; 1086;
   1090; 1082; 1088; 1099; 1090; 33; 32; 1052; 1086; 1085; 1080; 1090; 1086; 1088;
   1080; 1085; 1075; 32; 1072; 1082; 1090; 1080; 1074; 1077; 1085; 32; 1080; 32; 1075;
   1086; 1090; 1086; 1074; 32; 1082; 32; 1088; 1072; 1073; 1086; 1090; 1077; 46].
(* the text of the monitoring-ready system message (line 230) *)
Definition monitoringReadyText : jsstring :=
  [9989; 32; 1052; 1086; 1085; 1080; 1090; 1086; 1088; 1080; 1085; 1075; 32; 1079;
   1072; 1087; 1091; 1097; 1077; 1085; 32; 1080; 32; 1075; 1086; 1090; 1086; 1074; 32;
   1082; 32; 1088; 1072; 1073; 1086; 1090; 1077; 33; 32; 1054; 1078; 1080; 1076; 1072;
   1085; 1080; 1077; 32; 1089; 1086; 1086; 1073; 1097; 1077; 1085; 1080; 1081; 32;
   1086; 1090; 32; 34; 1056; 1091; 1096; 1072; 1085; 34; 32; 1080; 1083; 1080; 32; 34;
   1056; 1091; 1096; 1072; 1085; 32; 1053; 1072; 1090; 1092; 1091; 1083; 1083; 1080;
   1085; 34; 46; 46; 46].

(* The messages V8 gives the TypeErrors of a property read on undefined
   and on null. *)
Definition readErrorOfUndefined : jsstring :=
  lit "Cannot read properties of undefined (reading 'error')".
Definition readWaitForTimeoutOfNull : jsstring :=
  lit "Cannot read properties of null (reading 'waitForTimeout')".

End Lit.

(** ** Phone numbers: the four patterns of [extractPhoneNumber] *)

Module Phone.

Inductive atom := AChr (c : N) | ADigit | AOptSpace | AOptSpaceOrDash.

Definition isDigit (c : N) : bool := (48 <=? c) && (c <=? 57).

(** Match a pattern at the head of [s]; optional atoms are greedy and
    backtrack.  Returns the matched text. *)
Fixpoint matchHere (p : list atom) (s : jsstring) : option jsstring :=
  match p with
  | [] => Some []
  | a :: p' =>
      let consume (ok : N -> bool) :=
        match s with
        | c :: s' => if ok c then option_map (cons c) (matchHere p' s') else None
        | [] => None
        end in
      let optional (ok : N -> bool) :=
        match consume ok with
        | Some m => Some m
        | None => matchHere p' s
        end in
      match a with
      | AChr c0 => consume (N.eqb c0)
      | ADigit => consume isDigit
      | AOptSpace => optional isWhiteSpace
      | AOptSpaceOrDash => optional (fun c => isWhiteSpace c || N.eqb c 45)
      end
  end.

(** [text.match(pattern)[0]] for a global pattern: the leftmost match. *)
Fixpoint firstMatch (p : list atom) (s : jsstring) : option jsstring :=
  match matchHere p s with
  | Some m => Some m
  | None => match s with [] => None | _ :: s' => firstMatch p s' end
  end.

Definition digits (n : nat) : list atom := replicate n ADigit.

Definition bracketed (lead : list atom) : list atom :=
  lead ++ [AOptSpace; AChr 40] ++ digits 3 ++ [AChr 41; AOptSpace] ++ digits 3
       ++ [AOptSpaceOrDash] ++ digits 2 ++ [AOptSpaceOrDash] ++ digits 2.

Definition phonePatterns : list (list atom) :=
  [ [AChr 43; AChr 55] ++ digits 10;
    [AChr 56] ++ digits 10;
    bracketed [AChr 43; AChr 55];
    bracketed [AChr 56] ].

Fixpoint firstPattern (ps : list (list atom)) (text : jsstring) : option jsstring :=
  match ps with
  | [] => None
  | p :: ps' =>
      match firstMatch p text with
      | Some m => Some (stripWhiteSpace m)
      | None => firstPattern ps' text
      end
  end.

Definition extractPhoneNumber (text : jsstring) : option jsstring :=
  firstPattern phonePatterns text.

End Phone.

(** ** Messages and the sink *)

(** The [id] templates of the source, kept structured: the clock reading
    ([Date.now()]) and the [Math.random()] draw are supplied by the
    environment. *)
Inductive MsgId :=
| IdChat (chatText : jsstring) (index : nat) (now : N)   (* `${chatText}_${index}_${Date.now()}` *)
| IdMsg (index : nat) (now : N)                          (* `msg_${index}_${Date.now()}` *)
| IdPreview (now : N) (random : N)                       (* `preview_${Date.now()}_${Math.random()}` *)
| IdMsgRandom (now : N) (random : N)                     (* `msg_${Date.now()}_${Math.random()}` *)
| IdSystemReady (now : N)                                (* `system_ready_${Date.now()}` *)
| IdSystemMessengerReady (now : N).                      (* `system_messenger_ready_${Date.now()}` *)

(** [interface Message] of messages.service.ts; [timestamp] is the instant
    that [new Date().toISOString()] renders. *)
Record Message := mkMessage {
  id : MsgId;
  text : jsstring;
  sender : jsstring;
  phoneNumber : option jsstring;
  timestamp : N;
}.

(** ** Handles, results, events *)

Definition Browser := N.
Definition Page := N.
Definition Handle := N.
Definition Timer := nat.

(** The outcome of awaiting a promise: fulfilled, or rejected with an
    [Error] whose [message] is kept. *)
Inductive Res (A : Type) :=
| Ok (a : A)
| Throw (message : jsstring).
Arguments Ok {A} a.
Arguments Throw {A} message.

(** The local variable an element handle is held in when an input action
    is issued on it. *)
Inductive Field := PhoneInput | PasswordInput | SmsCodeInput | OtherElement.

Inductive Level := LWarn | LError.

(** What the service does to the outside world.  [ok] tells whether the call
    was fulfilled. *)
Inductive Event :=
| EvLaunch (b : Browser)
| EvNewPage (b : Browser) (p : Page)
| EvBrowserClose (b : Browser) (ok : bool)
| EvSetInterval (t : Timer)
| EvClearInterval (t : Timer)
| EvClearProcessed
| EvPublish (m : Message)                       (* messagesService.addMessage *)
| EvGoto (p : Page) (url : jsstring) (ok : bool)
| EvSleep (p : Page) (ms : N)                   (* page.waitForTimeout *)
| EvClick (f : Field) (h : Handle) (ok : bool)
| EvType (f : Field) (h : Handle) (txt : jsstring) (ok : bool)
| EvPress (f : Field) (h : Handle) (ok : bool)
| EvSetInputType (h : Handle) (ty : jsstring) (ok : bool)
| EvScreenshot (p : Page)
| EvLog (l : Level) (msg : jsstring).

(** ** The Puppeteer interface *)

Inductive WaitUntil := DomContentLoaded | Load.

(** What [getComputedStyle] and the layout report for an element. *)
Record Box := mkBox {
  offsetWidth : N;
  offsetHeight : N;
  display : jsstring;
  visibility : jsstring;
}.

(** A chat / dialog / conversation container as the first in-page pass of
    [checkForNewMessages] reads it. *)
Record ChatItem := mkChatItem {
  chatText : jsstring;                  (* chat.textContent || '' *)
  chatHtml : jsstring;                  (* chat.innerHTML || '' *)
  chatMessageElements : list jsstring;  (* textContent of each descendant
                                           matching [class*="message"], [class*="text"] *)
}.

(** The part of the document the in-page function of
    [checkForNewMessages] reads. *)
Record ChatSnapshot := mkChatSnapshot {
  chatItems : list ChatItem;            (* [class*="chat"], [class*="dialog"], [class*="conversation"] *)
  bodyText : jsstring;                  (* document.body.textContent || '' *)
  messageContainers : list jsstring;    (* textContent of each [class*="message"] *)
  chatNow : N;                          (* the clock inside the page *)
}.

(** The part of the document the in-page function of
    [extractMessagesFromPage] reads. *)
Record PreviewSnapshot := mkPreviewSnapshot {
  previewElements : list (list jsstring);  (* per selector of possibleSelectors, the
                                              textContent || '' of each match *)
  openContainers : list jsstring;          (* textContent of each [class*="message"], [class*="Message"] *)
  previewNow : N;
  previewRandom : nat -> N;                (* the draws of Math.random(), in call order *)
}.

(** One transition of the environment per Puppeteer call of the source.
    [W] is the state of the browser processes and of the remote site. *)
Record Puppeteer (W : Type) := {
  launch : W -> Res Browser * W;                               (* puppeteer.launch *)
  newPage : Browser -> W -> Res Page * W;                      (* browser.newPage *)
  setViewport : Page -> N -> N -> W -> W;                      (* page.setViewport, not awaited *)
  browserClose : Browser -> W -> Res unit * W;                 (* browser.close *)
  goto : Page -> jsstring -> WaitUntil -> N -> W -> Res unit * W;
  waitForTimeout : Page -> N -> W -> W;                        (* a timer; never rejects *)
  url : Page -> W -> jsstring;                                 (* page.url(), synchronous *)
  waitForSelector : Page -> jsstring -> N -> W -> Res unit * W;
  query : Page -> jsstring -> W -> Res (option Handle) * W;    (* page.$ *)
  queryAll : Page -> jsstring -> W -> Res (list Handle) * W;   (* page.$$ *)
  click : Handle -> N -> W -> Res unit * W;                    (* click({clickCount}) / click() *)
  typeText : Handle -> jsstring -> W -> Res unit * W;          (* type(text, {delay: 50}) *)
  press : Handle -> jsstring -> W -> Res unit * W;
  screenshot : Page -> jsstring -> W -> Res unit * W;
  (* page.evaluate with the in-page functions of the source *)
  evalTextLower : Page -> Handle -> W -> Res jsstring * W;     (* el.textContent?.toLowerCase() || '' *)
  evalAttribute : Page -> Handle -> jsstring -> W -> Res jsstring * W; (* getAttribute(name) || '' *)
  evalPlaceholder : Page -> Handle -> W -> Res jsstring * W;   (* el.placeholder || '' *)
  evalInputType : Page -> Handle -> W -> Res jsstring * W;     (* el.type || '' *)
  evalBox : Page -> Handle -> W -> Res Box * W;
  evalSetInputType : Page -> Handle -> jsstring -> W -> Res unit * W;  (* el.type = ty *)
  evalErrorElements : Page -> W -> Res (list jsstring) * W;    (* textContent || '' of each
       [class*="error"], [class*="Error"], [class*="invalid"], [class*="Invalid"] *)
  evalProfileCounts : Page -> W -> Res (nat * nat * nat) * W;  (* profileLinks, userElements,
                                                                  loginLinks: their lengths *)
  evalInstallObserver : Page -> W -> Res unit * W;             (* the MutationObserver *)
  evalChatSnapshot : Page -> W -> Res ChatSnapshot * W;
  evalPreviewSnapshot : Page -> W -> Res PreviewSnapshot * W;
  onConsole : Page -> W -> W;                                  (* page.on('console', ...) *)
  dateNow : W -> N * W;                                        (* Date.now() in the service *)
}.

(** ** The monad of page procedures

    The state of a page procedure: the environment and the event log. *)

Record PState (W : Type) := mkPState {
  world : W;
  log : list Event;
}.
Arguments mkPState {W} world log.
Arguments world {W} _.
Arguments log {W} _.

(** A computation over a state [S] either returns or throws. *)
Definition M (S A : Type) : Type := S -> Res A * S.

Definition ret {S A} (a : A) : M S A := fun st => (Ok a, st).

Definition throw {S A} (msg : jsstring) : M S A := fun st => (Throw msg, st).

Definition bind {S A B} (m : M S A) (k : A -> M S B) : M S B :=
  fun st =>
    match m st with
    | (Ok a, st') => k a st'
    | (Throw e, st') => (Throw e, st')
    end.

(** [try { m } catch (error) { h error.message }] *)
Definition tryCatch {S A} (m : M S A) (h : jsstring -> M S A) : M S A :=
  fun st =>
    match m st with
    | (Ok a, st') => (Ok a, st')
    | (Throw e, st') => h e st'
    end.

(** The outcome of an awaited call, handed to the caller instead of thrown. *)
Definition attempt {S A} (m : M S A) : M S (Res A) :=
  fun st => let '(r, st') := m st in (Ok r, st').

Definition emit {W} (e : Event) : M (PState W) unit :=
  fun st => (Ok tt, mkPState (world st) (log st ++ [e])).

Notation "'let*' x ':=' m 'in' k" := (bind m (fun x => k))
  (at level 10, x name, m at level 100, k at level 200).
Notation "m ';;' k" := (bind m (fun _ => k))
  (at level 100, k at level 200, right associativity).

Definition isOk {A} (r : Res A) : bool :=
  match r with Ok _ => true | Throw _ => false end.

(** [e.message || dflt] *)
Definition messageOr (msg dflt : jsstring) : jsstring :=
  if truthy msg then msg else dflt.

(** Control flow of a block inside a function: fall through, or [return]. *)
Inductive Flow (A : Type) :=
| Continue
| Return (a : A).
Arguments Continue {A}.
Arguments Return {A} a.

(** [{ requiresSms: boolean; error?: string }] *)
Record LoginResult := mkLoginResult {
  requiresSms : bool;
  error : option jsstring;
}.

(** Truthiness of an optional string ([undefined] and [''] are falsy). *)
Definition truthyOpt (o : option jsstring) : bool :=
  match o with Some s => truthy s | None => false end.

Section PageProcedures.

Context {W : Type} (P : Puppeteer W).

Local Abbreviation PM := (M (PState W)).

(** *** Puppeteer calls, logged *)

Definition call {A} (f : W -> Res A * W) (ev : bool -> list Event) : PM A :=
  fun st =>
    let '(r, w') := f (world st) in
    (r, mkPState w' (log st ++ ev (isOk r))).

(** Read-only probes of the page leave no event. *)
Definition probe {A} (f : W -> Res A * W) : PM A := call f (fun _ => []).

Definition pGoto (p : Page) (u : jsstring) (wu : WaitUntil) (timeout : N) : PM unit :=
  call (goto W P p u wu timeout) (fun ok => [EvGoto p u ok]).

Definition pSleep (p : Page) (ms : N) : PM unit :=
  fun st => (Ok tt, mkPState (waitForTimeout W P p ms (world st)) (log st ++ [EvSleep p ms])).

Definition pUrl (p : Page) : PM jsstring :=
  fun st => (Ok (url W P p (world st)), st).

Definition pWaitForSelector (p : Page) (sel : jsstring) (timeout : N) : PM unit :=
  probe (waitForSelector W P p sel timeout).

Definition pQuery (p : Page) (sel : jsstring) : PM (option Handle) :=
  probe (query W P p sel).

Definition pQueryAll (p : Page) (sel : jsstring) : PM (list Handle) :=
  probe (queryAll W P p sel).

Definition hClick (f : Field) (h : Handle) (clickCount : N) : PM unit :=
  call (click W P h clickCount) (fun ok => [EvClick f h ok]).

Definition hType (f : Field) (h : Handle) (txt : jsstring) : PM unit :=
  call (typeText W P h txt) (fun ok => [EvType f h txt ok]).

Definition hPress (f : Field) (h : Handle) (key : jsstring) : PM unit :=
  call (press W P h key) (fun ok => [EvPress f h ok]).

Definition pSetInputType (p : Page) (h : Handle) (ty : jsstring) : PM unit :=
  call (evalSetInputType W P p h ty) (fun ok => [EvSetInputType h ty ok]).

Definition pScreenshot (p : Page) (path : jsstring) : PM unit :=
  call (screenshot W P p path) (fun _ => [EvScreenshot p]).

Definition logWarn (msg : jsstring) : PM unit := emit (EvLog LWarn msg).
Definition logError (msg : jsstring) : PM unit := emit (EvLog LError msg).

(** messagesService.addMessage *)
Definition addMessage (m : Message) : PM unit := emit (EvPublish m).

Definition now : PM N :=
  fun st => let '(t, w') := dateNow W P (world st) in (Ok t, mkPState w' (log st)).

(** *** checkIfLoggedIn (part_001, lines 243-288) *)

Definition isAuthenticatedUrl (u : jsstring) : bool :=
  includes u (lit "/profile") || includes u (lit "/cabinet") || includes u (lit "/messenger").

Definition isSome {A} (o : option A) : bool :=
  match o with Some _ => true | None => false end.

Definition checkIfLoggedIn (page : option Page) : PM bool :=
  match page with
  | None => ret false
  | Some p =>
      tryCatch
        (let* currentUrl := pUrl p in
         if isAuthenticatedUrl currentUrl then ret true
         else
           let* profileButton := pQuery p (sel "a[href*='/profile'], a[href*='/cabinet']") in
           let* messengerButton := pQuery p (sel "a[href*='/messenger']") in
           let* userMenu :=
             pQuery p (sel "[class*='user'], [class*='User'], [class*='profile'], [class*='Profile']") in
           let* authButton := pQuery p (sel "a[href*='/login'], a[href*='#login']") in
           let* counts := probe (evalProfileCounts W P p) in
           let '(profileLinks, userElements, loginLinks) := counts in
           let hasProfile := Nat.ltb 0 profileLinks in
           let hasLogin := Nat.ltb 0 loginLinks in
           ret ((isSome profileButton || isSome messengerButton || isSome userMenu || hasProfile)
                && (negb (isSome authButton) && negb hasLogin)))
        (fun _ => logError (lit "Error checking login status:");; ret false)
  end.

(** *** login (part_001, lines 290-674) *)

Definition loginUrl : jsstring := lit "https://www.avito.ru/#login?authsrc=h".

(** The in-page scan for an inline error message (lines 458-467, 553-562,
    592-601, 632-641). *)
Definition isErrorText (t : jsstring) : bool :=
  truthy t && (includes t Lit.nevern || includes t Lit.nepraviln
               || includes t Lit.oshibk || includes t (lit "error")).

Fixpoint findErrorText (texts : list jsstring) : option jsstring :=
  match texts with
  | [] => None
  | t :: rest => if isErrorText t then Some (trim t) else findErrorText rest
  end.

Definition scanErrorText (p : Page) : PM (option jsstring) :=
  let* texts := probe (evalErrorElements W P p) in
  ret (findErrorText texts).

(** Visibility as the phone loop (lines 362-369) and the password loop
    (lines 422-425) test it. *)
Definition styledVisible (b : Box) : bool :=
  N.ltb 0 (offsetWidth b) && N.ltb 0 (offsetHeight b)
  && negb (JS.eqb (display b) (lit "none")) && negb (JS.eqb (visibility b) (lit "hidden")).

Definition sizedVisible (b : Box) : bool :=
  N.ltb 0 (offsetWidth b) && N.ltb 0 (offsetHeight b).

(** The selector loops (lines 358-380 and 418-435).  [cur] is the value of
    the loop variable: a rejected [page.$] leaves it as it was, a rejected
    visibility probe leaves the handle just found in it. *)
Fixpoint locate (visible : Box -> bool) (p : Page) (sels : list jsstring)
    (cur : option Handle) : PM (option Handle) :=
  match sels with
  | [] => ret cur
  | s :: rest =>
      let* found := attempt (pQuery p s) in
      match found with
      | Throw _ => locate visible p rest cur
      | Ok None => locate visible p rest None
      | Ok (Some h) =>
          let* box := attempt (probe (evalBox W P p h)) in
          match box with
          | Throw _ => locate visible p rest (Some h)
          | Ok b => if visible b then ret (Some h) else locate visible p rest None
          end
      end
  end.

Definition phoneSelectors : list jsstring :=
  [ sel "input[data-marker='login-form/login/input']";
    sel "input[name='login']";
    sel "input[placeholder*='" ++ Lit.Telefon ++ sel "']";
    sel "input[placeholder*='" ++ Lit.telefon ++ sel "']";
    sel "input[type='tel']";
    sel "input[autocomplete='username']" ].

Definition passwordSelectors : list jsstring :=
  [ sel "input[data-marker='login-form/password/input']";
    sel "input[name='password']";
    sel "input[type='password']";
    sel "input[autocomplete='current-password']" ].

(** The code-input selector of lines 446 and 614, and the wider one of
    lines 506, 511 and 573. *)
Definition smsSelector : jsstring :=
  sel "input[type='text'], input[type='number'], input[placeholder*='" ++ Lit.kod
  ++ sel "'], input[placeholder*='" ++ Lit.Kod ++ sel "']".

Definition smsSelectorWide : jsstring :=
  smsSelector ++ sel ", input[data-marker*='code'], input[data-marker*='sms']".

(** The "is this a code field" tests: lines 451, 577 and 619 ... *)
Definition flaggedAsCode (placeholder dataMarker : jsstring) : bool :=
  includes placeholder Lit.kod || includes placeholder (lit "code")
  || includes dataMarker (lit "code") || includes dataMarker (lit "sms").

(** ... and the wider one of lines 520-526. *)
Definition isSmsField (placeholder dataMarker : jsstring) : bool :=
  includes placeholder Lit.kod || includes placeholder (lit "code")
  || includes placeholder Lit.Kod
  || includes dataMarker (lit "code") || includes dataMarker (lit "sms")
  || includes dataMarker (lit "Code") || includes dataMarker (lit "SMS").

(** Click the submit button, else press Enter on the field (lines 395-404,
    489-498, 539-548). *)
Definition submitOrEnter (f : Field) (p : Page) (h : Handle) : PM unit :=
  tryCatch
    (let* button := pQuery p (sel "button[type='submit']") in
     match button with
     | Some b => hClick OtherElement b 1
     | None => hPress f h (lit "Enter")
     end)
    (fun _ => hPress f h (lit "Enter")).

Definition loginOk : LoginResult := mkLoginResult false None.
Definition loginNeedsSms : LoginResult := mkLoginResult true None.

(** Where the first part of [login] leaves the control flow. *)
Inductive Entered :=
| EnteredReturn (r : option LoginResult)  (* a [return]; [None] is the bare [return;] *)
| EnteredNoCodeStep                       (* no code field to fill: on to line 591 *)
| EnteredCodeSubmitted.                   (* the code was typed and submitted: on to line 552 *)

(** No password field was found (lines 437-474). *)
Definition noPasswordField (p : Page) : PM Entered :=
  let* u := pUrl p in
  if isAuthenticatedUrl u then ret (EnteredReturn (Some loginOk))
  else
    let* smsCodeInput := pQuery p smsSelector in
    let* flagged :=
      match smsCodeInput with
      | Some h =>
          let* placeholder := probe (evalPlaceholder W P p h) in
          let* dataMarker := probe (evalAttribute W P p h (lit "data-marker")) in
          ret (flaggedAsCode placeholder dataMarker)
      | None => ret false
      end in
    if (flagged : bool) then ret (EnteredReturn (Some loginNeedsSms))
    else
      let* errorText := scanErrorText p in
      if truthyOpt errorText then ret (EnteredReturn (Some (mkLoginResult false errorText)))
      else throw (lit "Password input field not found").

(** Type the code and submit it (lines 533-550). *)
Definition enterSmsCode (p : Page) (h : Handle) (code : jsstring) : PM unit :=
  hClick SmsCodeInput h 3;;
  hType SmsCodeInput h code;;
  pSleep p 500;;
  submitOrEnter SmsCodeInput p h;;
  pSleep p 2000.

(** The code step after the password was submitted (lines 504-550, 584-589). *)
Definition smsStep (p : Page) (smsCode : option jsstring) : PM Entered :=
  let* first := pQuery p smsSelectorWide in
  let* smsCodeInput :=
    match first with
    | Some _ => ret first
    | None => pSleep p 1000;; pQuery p smsSelectorWide
    end in
  match smsCodeInput with
  | None => ret EnteredNoCodeStep
  | Some h =>
      let* placeholder := probe (evalPlaceholder W P p h) in
      let* dataMarker := probe (evalAttribute W P p h (lit "data-marker")) in
      let* inputType := probe (evalInputType W P p h) in
      if isSmsField placeholder dataMarker then
        match smsCode with
        | Some code =>
            if truthy code then enterSmsCode p h code;; ret EnteredCodeSubmitted
            else ret (EnteredReturn (Some loginNeedsSms))
        | None => ret (EnteredReturn (Some loginNeedsSms))
        end
      else ret EnteredNoCodeStep
  end.

(** Type the password, make it visible, submit (lines 476-502). *)
Definition enterPassword (p : Page) (h : Handle) (password : jsstring) : PM unit :=
  hClick PasswordInput h 3;;
  hType PasswordInput h password;;
  pSleep p 500;;
  pSetInputType p h (lit "text");;
  submitOrEnter PasswordInput p h;;
  pSleep p 3000.

(** Type the phone and submit (lines 386-407). *)
Definition enterPhone (p : Page) (h : Handle) (phone : jsstring) : PM unit :=
  let normalizedPhone := stripPhonePunctuation phone in
  hClick PhoneInput h 3;;
  hType PhoneInput h normalizedPhone;;
  pSleep p 500;;
  submitOrEnter PhoneInput p h;;
  pSleep p 1000.

(** Lines 296-342: open the login form and wait for it. *)
Definition openLoginForm (p : Page) : PM unit :=
  tryCatch (pGoto p loginUrl DomContentLoaded 30000)
    (fun _ => logWarn (lit "Navigation failed, retrying...");;
              pGoto p loginUrl DomContentLoaded 30000);;
  pSleep p 1000.

Definition awaitLoginForm (p : Page) : PM unit :=
  tryCatch (pWaitForSelector p (sel "input[data-marker='login-form/login/input']") 10000)
    (fun _ =>
       tryCatch
         (pWaitForSelector p
            (sel "input[name='login'], input[placeholder*='" ++ Lit.Telefon
             ++ sel "'], input[placeholder*='" ++ Lit.telefon ++ sel "']") 5000)
         (fun _ => logWarn (lit "Login form not found, but continuing...")));;
  pSleep p 500.

(** Lines 294-550: from the navigation to the submitted code. *)
Definition loginEnter (p : Page) (phone password : jsstring) (smsCode : option jsstring)
    : PM Entered :=
  openLoginForm p;;
  let* currentUrl := pUrl p in
  if isAuthenticatedUrl currentUrl then ret (EnteredReturn None)
  else
    awaitLoginForm p;;
    let* phoneInput := locate styledVisible p phoneSelectors None in
    match phoneInput with
    | None => throw (lit "Phone input field not found on login page")
    | Some ph =>
        enterPhone p ph phone;;
        let* passwordInput := locate sizedVisible p passwordSelectors None in
        match passwordInput with
        | None => noPasswordField p
        | Some pw => enterPassword p pw password;; smsStep p smsCode
        end
    end.

(** Lines 552-583: after the code was submitted. *)
Definition loginRecheckCode (p : Page) : PM (Flow (option LoginResult)) :=
  let* errorText := scanErrorText p in
  if truthyOpt errorText then ret (Return (Some (mkLoginResult true errorText)))
  else
    let* isLoggedInAfterSms := checkIfLoggedIn (Some p) in
    if (isLoggedInAfterSms : bool) then ret Continue
    else
      pSleep p 1000;;
      let* smsCodeInputStillPresent := pQuery p smsSelectorWide in
      match smsCodeInputStillPresent with
      | Some h =>
          let* placeholderStill := probe (evalPlaceholder W P p h) in
          let* dataMarkerStill := probe (evalAttribute W P p h (lit "data-marker")) in
          if flaggedAsCode placeholderStill dataMarkerStill
          then ret (Return (Some (mkLoginResult true (Some Lit.invalidSmsCode))))
          else ret Continue
      | None => ret Continue
      end.

(** Lines 591-655: error scan and verification of the login. *)
Definition loginVerify (p : Page) (smsCode : option jsstring) : PM (option LoginResult) :=
  let* errorText := scanErrorText p in
  if truthyOpt errorText then ret (Some (mkLoginResult false errorText))
  else
    let* isLoggedIn := checkIfLoggedIn (Some p) in
    if (isLoggedIn : bool) then ret (Some loginOk)
    else
      pSleep p 2000;;
      let* smsCodeInputCheck := pQuery p smsSelector in
      let* flagged :=
        match smsCodeInputCheck with
        | Some h =>
            let* placeholder := probe (evalPlaceholder W P p h) in
            let* dataMarker := probe (evalAttribute W P p h (lit "data-marker")) in
            ret (flaggedAsCode placeholder dataMarker)
        | None => ret false
        end in
      if (flagged : bool) then
        if negb (truthyOpt smsCode) then ret (Some loginNeedsSms)
        else ret (Some (mkLoginResult true (Some Lit.invalidSmsCode)))
      else
        let* isLoggedInRetry := checkIfLoggedIn (Some p) in
        if (isLoggedInRetry : bool) then ret (Some loginOk)
        else
          let* finalErrorText := scanErrorText p in
          if truthyOpt finalErrorText then ret (Some (mkLoginResult false finalErrorText))
          else ret (Some (mkLoginResult false (Some Lit.authFailed))).

Definition loginBody (p : Page) (phone password : jsstring) (smsCode : option jsstring)
    : PM (option LoginResult) :=
  let* entered := loginEnter p phone password smsCode in
  match entered with
  | EnteredReturn r => ret r
  | EnteredNoCodeStep => loginVerify p smsCode
  | EnteredCodeSubmitted =>
      let* flow := loginRecheckCode p in
      match flow with
      | Return r => ret r
      | Continue => loginVerify p smsCode
      end
  end.

(** The [catch] of [login] (lines 659-673). *)
Definition loginCatch (p : Page) (message : jsstring) : PM (option LoginResult) :=
  logError (lit "Error during login:");;
  tryCatch (pScreenshot p (lit "error-login-page.png")) (fun _ => ret tt);;
  ret (Some (mkLoginResult false (Some (messageOr message Lit.loginErrorDefault)))).

(** [login]: [None] is the [undefined] of the bare [return;] at line 317. *)
Definition login (page : option Page) (phone password : jsstring) (smsCode : option jsstring)
    : PM (option LoginResult) :=
  match page with
  | None => throw (lit "Page is not initialized")
  | Some p => tryCatch (loginBody p phone password smsCode) (loginCatch p)
  end.

End PageProcedures.

(** ** The in-page extraction functions

    The functions handed to [page.evaluate] by [checkForNewMessages] and
    [extractMessagesFromPage], as functions of the part of the document
    they read. *)

Module Extract.

(** [['Рушан Натфуллин', 'Рушан']] *)
Definition targetNames : list jsstring := [Lit.RushanNatfullin; Lit.Rushan].

(** [targetNames.some(name => t.includes(name))] *)
Definition mentionsTarget (names : list jsstring) (t : jsstring) : bool :=
  existsb (fun name => includes t name) names.

(** [targetNames.find(name => t.includes(name)) || dflt] *)
Definition senderIn (names : list jsstring) (t dflt : jsstring) : jsstring :=
  match find (fun name => includes t name) names with
  | Some name => if truthy name then name else dflt
  | None => dflt
  end.

Definition orElse {A} (a b : option A) : option A :=
  match a with Some _ => a | None => b end.

(** The [forEach] over the message elements of one matching chat (lines
    906-917); [index] counts every element, pushed or not. *)
Fixpoint chatMessages (names : list jsstring) (chat : ChatItem) (phone : option jsstring)
    (now : N) (index : nat) (elements : list jsstring) : list Message :=
  match elements with
  | [] => []
  | e :: rest =>
      let messageText := trim e in
      (if truthy messageText
       then [mkMessage (IdChat (chatText chat) index now) messageText
                       (senderIn names (chatText chat) (lit "Unknown")) phone now]
       else [])
      ++ chatMessages names chat phone now (S index) rest
  end.

(** Pass A (lines 887-919). *)
Definition structuredPass (names : list jsstring) (d : ChatSnapshot) : list Message :=
  flat_map
    (fun chat =>
       if mentionsTarget names (chatText chat) || mentionsTarget names (chatHtml chat)
       then
         let phone := orElse (Phone.extractPhoneNumber (chatText chat))
                             (Phone.extractPhoneNumber (chatHtml chat)) in
         chatMessages names chat phone (chatNow d) 0 (chatMessageElements chat)
       else [])
    (chatItems d).

Fixpoint containerMessages (names : list jsstring) (now : N) (index : nat)
    (containers : list jsstring) : list Message :=
  match containers with
  | [] => []
  | c :: rest =>
      let t := trim c in
      (if truthy t && Nat.ltb 0 (length t)
       then [mkMessage (IdMsg index now) t (senderIn names t Lit.Rushan)
                       (Phone.extractPhoneNumber t) now]
       else [])
      ++ containerMessages names now (S index) rest
  end.

(** Pass B (lines 921-939). *)
Definition heuristicPass (names : list jsstring) (d : ChatSnapshot) : list Message :=
  if mentionsTarget names (bodyText d)
  then containerMessages names (chatNow d) 0 (messageContainers d)
  else [].

(** The in-page function of [checkForNewMessages] (lines 859-942). *)
Definition foundInChats (names : list jsstring) (d : ChatSnapshot) : list Message :=
  structuredPass names d ++ heuristicPass names d.

(** The chat-list previews (lines 1021-1045); [pushed] is the number of
    messages pushed so far, which is also the number of [Math.random()]
    draws made. *)
Fixpoint previewMessages (names : list jsstring) (d : PreviewSnapshot) (pushed : nat)
    (elements : list jsstring) : list Message :=
  match elements with
  | [] => []
  | t :: rest =>
      let previewText := trim (lastLine t) in
      if mentionsTarget names t
         && (truthy previewText && Nat.ltb 0 (length previewText)
             && Nat.ltb (length previewText) 500)
      then
        mkMessage (IdPreview (previewNow d) (previewRandom d pushed)) previewText
                  (senderIn names t Lit.Rushan)
                  (orElse (Phone.extractPhoneNumber t) (Phone.extractPhoneNumber previewText))
                  (previewNow d)
        :: previewMessages names d (S pushed) rest
      else previewMessages names d pushed rest
  end.

(** The open conversation (lines 1047-1064). *)
Fixpoint openMessages (d : PreviewSnapshot) (pushed : nat) (containers : list jsstring)
    : list Message :=
  match containers with
  | [] => []
  | c :: rest =>
      let t := trim c in
      if (truthy t && Nat.ltb 0 (length t) && Nat.ltb (length t) 1000)
         && (negb (includes t Lit.Napisat) && negb (includes t Lit.soobschenie))
      then
        mkMessage (IdMsgRandom (previewNow d) (previewRandom d pushed)) t Lit.Rushan
                  (Phone.extractPhoneNumber t) (previewNow d)
        :: openMessages d (S pushed) rest
      else openMessages d pushed rest
  end.

(** The in-page function of [extractMessagesFromPage] (lines 985-1067). *)
Definition foundInPreviews (names : list jsstring) (d : PreviewSnapshot) : list Message :=
  let previews := previewMessages names d 0 (concat (previewElements d)) in
  previews ++ openMessages d (length previews) (openContainers d).

End Extract.

(** ** Navigation, listener and the dedup gate *)

Section Messenger.

Context {W : Type} (P : Puppeteer W).

Local Abbreviation PM := (M (PState W)).

(** The inner [for] over the elements one selector matched (lines 122-133
    and 701-712): click the first whose text or [href] matches, then sleep. *)
Fixpoint clickFirstMatching (matches : jsstring -> jsstring -> bool) (ms : N)
    (p : Page) (elements : list Handle) : PM bool :=
  match elements with
  | [] => ret false
  | e :: rest =>
      let* t := probe (evalTextLower W P p e) in
      let* href := probe (evalAttribute W P p e (lit "href")) in
      if matches t href
      then hClick P OtherElement e 1;; pSleep P p ms;; ret true
      else clickFirstMatching matches ms p rest
  end.

(** The outer [for] over the selectors; a selector whose body throws is
    skipped ([catch (e) { continue; }]). *)
Fixpoint clickBySelectors (matches : jsstring -> jsstring -> bool) (ms : N)
    (p : Page) (sels : list jsstring) : PM bool :=
  match sels with
  | [] => ret false
  | s :: rest =>
      let* r := attempt (let* elements := pQueryAll P p s in
                         clickFirstMatching matches ms p elements) in
      match r with
      | Ok true => ret true
      | _ => clickBySelectors matches ms p rest
      end
  end.

Definition loginButtonSelectors : list jsstring :=
  [ sel "a[href*='login']";
    sel "a[href*='#login']";
    sel "[data-marker*='login']";
    sel "button:has-text('" ++ Lit.Voyti ++ sel "')" ].

Definition looksLikeLogin (t href : jsstring) : bool :=
  includes t Lit.voyti || includes t Lit.vhod || includes t (lit "login")
  || includes href (lit "login").

(** startMonitoring, lines 97-142: open the login form. *)
Definition openLoginFormForUser (p : Page) : PM unit :=
  tryCatch
    (pGoto P p loginUrl DomContentLoaded 30000;;
     pSleep P p 2000;;
     let* currentUrl := pUrl P p in
     if negb (includes currentUrl (lit "#login"))
     then clickBySelectors looksLikeLogin 2000 p loginButtonSelectors;; ret tt
     else ret tt)
    (fun _ => logWarn (lit "Error opening login form:")).

Definition messengerLinkSelectors : list jsstring :=
  [ sel "a[href*='messenger']";
    sel "a[href*='/profile/messenger']";
    sel "[data-marker*='messenger']";
    sel "[class*='messenger']" ].

Definition looksLikeMessenger (t href : jsstring) : bool :=
  includes t Lit.soobscheni || includes t Lit.messendzher
  || includes href (lit "messenger").

Definition messengerUrls : list jsstring :=
  [ lit "https://www.avito.ru/profile/messenger";
    lit "https://www.avito.ru/cabinet/messenger";
    lit "https://www.avito.ru/messenger" ].

Definition isMessengerUrl (u : jsstring) : bool :=
  includes u (lit "messenger") || includes u (lit "message").

(** Lines 728-750: the direct addresses, in order. *)
Fixpoint gotoFirstMessengerUrl (p : Page) (urls : list jsstring) : PM bool :=
  match urls with
  | [] => ret false
  | u :: rest =>
      let* r := attempt (pGoto P p u DomContentLoaded 15000;;
                         pSleep P p 2000;;
                         let* finalUrl := pUrl P p in
                         ret (isMessengerUrl finalUrl)) in
      match r with
      | Ok true => ret true
      | Ok false => gotoFirstMessengerUrl p rest
      | Throw _ => logWarn (lit "Failed to navigate to " ++ u ++ lit ":");;
                   gotoFirstMessengerUrl p rest
      end
  end.

Definition systemMessage (mid : MsgId) (t : jsstring) (at_ : N) : Message :=
  mkMessage mid t Lit.Sistema None at_.

(** navigateToMessenger (lines 676-780). *)
Definition navigateToMessenger (page : option Page) : PM unit :=
  match page with
  | None => logError (lit "Page is not initialized, cannot navigate to messenger")
  | Some p =>
      tryCatch
        (let* clicked := clickBySelectors looksLikeMessenger 3000 p messengerLinkSelectors in
         let* messengerOpened :=
           if (clicked : bool) then ret true else gotoFirstMessengerUrl p messengerUrls in
         (if (messengerOpened : bool) then ret tt
          else
            logWarn (Lit.warningSign ++ lit "Could not automatically navigate to messenger");;
            logWarn (Lit.warningSign
                     ++ lit "Please manually navigate to messenger in the browser");;
            logWarn (Lit.warningSign ++ Lit.monitoringWillWork));;
         pSleep P p 2000;;
         let* currentMessengerUrl := pUrl P p in
         if messengerOpened || isMessengerUrl currentMessengerUrl
         then
           let* t1 := now P in
           let* t2 := now P in
           addMessage (systemMessage (IdSystemMessengerReady t1) Lit.messengerReadyText t2)
         else ret tt)
        (fun message => logError (lit "Error navigating to messenger:");; throw message)
  end.

(** setupMessageListener (lines 807-836). *)
Definition setupMessageListener (page : option Page) : PM unit :=
  match page with
  | None => ret tt
  | Some p =>
      tryCatch
        (probe (evalInstallObserver W P p);;
         fun st => (Ok tt, mkPState (onConsole W P p (world st)) (log st)))
        (fun _ => logError (lit "Error setting up message listener:"))
  end.

(** *** The dedup gate *)

(** [`${message.sender}_${message.text.substring(0, 100)}`] *)
Definition messageKey (m : Message) : list N :=
  sender m ++ [95] ++ substring0 100 (text m).

(** The [for] loops of lines 948-965 and 1070-1085.  The loop body has no
    [await]: it runs to completion once started. *)
Fixpoint processMessages (messages : list Message) (processed : gset (list N))
    : PM (gset (list N)) :=
  match messages with
  | [] => ret processed
  | message :: rest =>
      let key := messageKey message in
      if negb (bool_decide (key ∈ processed)) && truthy (trim (text message))
      then addMessage message;; processMessages rest ({[key]} ∪ processed)
      else processMessages rest processed
  end.

(** extractMessagesFromPage (lines 980-1090). *)
Definition extractMessagesFromPage (page : option Page) (processed : gset (list N))
    : PM (gset (list N)) :=
  match page with
  | None => ret processed
  | Some p =>
      let* snapshot := attempt (probe (evalPreviewSnapshot W P p)) in
      match snapshot with
      | Ok d => processMessages (Extract.foundInPreviews Extract.targetNames d) processed
      | Throw _ => ret processed
      end
  end.

(** The address gate of lines 846-855. *)
Definition isOnMessengerPage (currentUrl : jsstring) : bool :=
  includes currentUrl (lit "messenger") || includes currentUrl (lit "message")
  || includes currentUrl (lit "/profile/") || includes currentUrl (lit "/cabinet/").

(** checkForNewMessages (lines 838-978); returns the set of processed keys
    as it leaves it. *)
Definition checkForNewMessages (page : option Page) (processed : gset (list N))
    : PM (gset (list N)) :=
  match page with
  | None => logWarn (lit "Page is not available for message check");; ret processed
  | Some p =>
      let* currentUrl := pUrl P p in
      if negb (isOnMessengerPage currentUrl) then ret processed
      else
        let* snapshot := attempt (probe (evalChatSnapshot W P p)) in
        match snapshot with
        | Ok d =>
            let* processed' :=
              processMessages (Extract.foundInChats Extract.targetNames d) processed in
            extractMessagesFromPage (Some p) processed'
        | Throw _ => logError (lit "Error checking for new messages:");; ret processed
        end
  end.

End Messenger.

(** ** The session controller *)

(** The mutable fields of [PuppeteerService]. *)
Record Session := mkSession {
  browser : option Browser;
  page : option Page;
  isRunning : bool;
  messageCheckInterval : option Timer;
  processedMessages : gset (list N);
}.

(** The state at process start (field initialisers, lines 8-12). *)
Definition initialSession : Session := mkSession None None false None ∅.

Record SState (W : Type) := mkSState {
  session : Session;
  env : PState W;
}.
Arguments mkSState {W} session env.
Arguments session {W} _.
Arguments env {W} _.

(** [getStatus()]'s result. *)
Record Status := mkStatus {
  statusIsRunning : bool;
  browserOpen : bool;
  currentUrl : option jsstring;
  processedMessagesCount : nat;
}.

(** The JSON bodies the controller answers with. *)
Record Response := mkResponse {
  success : bool;
  responseError : option jsstring;
  responseRequiresSms : option bool;
  responseMessage : option jsstring;
}.

Section Service.

Context {W : Type} (P : Puppeteer W).

Local Abbreviation SM := (M (SState W)).

Definition lift {A} (m : M (PState W) A) : SM A :=
  fun s => let '(r, e') := m (env s) in (r, mkSState (session s) e').

Definition getSession : SM Session := fun s => (Ok (session s), s).

Definition setSession (f : Session -> Session) : SM unit :=
  fun s => (Ok tt, mkSState (f (session s)) (env s)).

Definition setBrowser (b : option Browser) : SM unit :=
  setSession (fun s => mkSession b (page s) (isRunning s) (messageCheckInterval s)
                                 (processedMessages s)).
Definition setPage (p : option Page) : SM unit :=
  setSession (fun s => mkSession (browser s) p (isRunning s) (messageCheckInterval s)
                                 (processedMessages s)).
Definition setIsRunning (r : bool) : SM unit :=
  setSession (fun s => mkSession (browser s) (page s) r (messageCheckInterval s)
                                 (processedMessages s)).
Definition setMessageCheckInterval (t : option Timer) : SM unit :=
  setSession (fun s => mkSession (browser s) (page s) (isRunning s) t (processedMessages s)).
Definition setProcessedMessages (pm : gset (list N)) : SM unit :=
  setSession (fun s => mkSession (browser s) (page s) (isRunning s)
                                 (messageCheckInterval s) pm).

(** [this.page.method(...)]: reading a property of [null] throws. *)
Definition nullRead (method : string) : jsstring :=
  lit "Cannot read properties of null (reading '" ++ lit method ++ lit "')".

Definition thisPage (method : string) : SM Page :=
  let* s := getSession in
  match page s with
  | Some p => ret p
  | None => throw (nullRead method)
  end.

Definition thisBrowser (method : string) : SM Browser :=
  let* s := getSession in
  match browser s with
  | Some b => ret b
  | None => throw (nullRead method)
  end.

(** What other tasks do to the service while this one is suspended at an
    [await]. *)
Definition interfere (f : SState W -> SState W) : SM unit :=
  fun s => (Ok tt, f s).

Definition pLaunch : M (PState W) Browser :=
  fun st =>
    let '(r, w') := launch W P (world st) in
    (r, mkPState w' (log st ++ match r with Ok b => [EvLaunch b] | Throw _ => [] end)).

Definition pNewPage (b : Browser) : M (PState W) Page :=
  fun st =>
    let '(r, w') := newPage W P b (world st) in
    (r, mkPState w' (log st ++ match r with Ok p => [EvNewPage b p] | Throw _ => [] end)).

Definition pSetViewport (p : Page) (width height : N) : M (PState W) unit :=
  fun st => (Ok tt, mkPState (setViewport W P p width height (world st)) (log st)).

Definition pBrowserClose (b : Browser) : M (PState W) unit :=
  call (browserClose W P b) (fun ok => [EvBrowserClose b ok]).

Definition homeUrl : jsstring := lit "https://www.avito.ru".

(** *** cleanup, stopMonitoring, getStatus (lines 1092-1131) *)

Definition cleanup : SM unit :=
  tryCatch
    (let* s := getSession in
     match browser s with
     | Some b =>
         lift (pBrowserClose b);;
         setBrowser None;;
         setPage None
     | None => ret tt
     end)
    (fun _ => lift (logError (lit "Error during cleanup:"))).

Definition stopMonitoring : SM unit :=
  setIsRunning false;;
  (let* s := getSession in
   match messageCheckInterval s with
   | Some t => lift (emit (EvClearInterval t));; setMessageCheckInterval None
   | None => ret tt
   end);;
  lift (emit EvClearProcessed);;
  setProcessedMessages ∅;;
  cleanup.

Definition onModuleDestroy : SM unit := stopMonitoring.

Definition getStatus (s : SState W) : Status :=
  mkStatus (isRunning (session s))
           (isSome (browser (session s)))
           (option_map (fun p => url W P p (world (env s))) (page (session s)))
           (size (processedMessages (session s))).

(** *** The poll loop (lines 782-805) *)

(** [await this.checkForNewMessages()] *)
Definition runCheckForNewMessages : SM unit :=
  let* s := getSession in
  let* pm := lift (checkForNewMessages P (page s) (processedMessages s)) in
  setProcessedMessages pm.

(** One firing of the interval callback. *)
Definition tick : SM unit :=
  let* s := getSession in
  if negb (isRunning s) || negb (isSome (page s))
  then lift (logWarn (lit "Monitoring stopped or page not available"))
  else tryCatch runCheckForNewMessages
         (fun _ => lift (logError (lit "Error checking messages:"))).

Definition startMessageMonitoring : SM unit :=
  let* t := (fun s => (Ok (length (log (env s))), s)) in
  lift (emit (EvSetInterval t));;
  setMessageCheckInterval (Some t).

(** The console listener installed by setupMessageListener (lines 828-832). *)
Definition onConsoleMessage (msgText : jsstring) : SM unit :=
  if includes msgText (lit "NEW_MESSAGE") then runCheckForNewMessages else ret tt.

(** *** startMonitoring (lines 16-241) *)

(** Lines 23-36: launch the browser and open a page. *)
Definition startLaunch : SM unit :=
  let* b := lift pLaunch in
  setBrowser (Some b);;
  let* b' := thisBrowser "newPage" in
  let* p := lift (pNewPage b') in
  setPage (Some p);;
  let* p := thisPage "setViewport" in lift (pSetViewport p 1920 1080).

(** Lines 38-52: load the landing page. *)
Definition startLoad : SM unit :=
  tryCatch
    (let* p := thisPage "goto" in lift (pGoto P p homeUrl DomContentLoaded 30000))
    (fun _ =>
       lift (logWarn (lit "First navigation attempt failed, trying with load event..."));;
       let* p := thisPage "goto" in lift (pGoto P p homeUrl Load 30000));;
  let* p := thisPage "waitForTimeout" in lift (pSleep P p 3000).

Definition startOpen : SM unit := startLaunch;; startLoad.

(** Lines 54-93: credential login or a first look at the page.  [inl r] is
    [return r]; [inr b] falls through with [isAlreadyLoggedIn = b]. *)
Definition startAuthenticate (phone password smsCode : option jsstring)
    : SM (LoginResult + bool) :=
  match phone, password with
  | Some ph, Some pw =>
      if truthy ph && truthy pw then
        tryCatch
          (let* s := getSession in
           let* loginResult := lift (login P (page s) ph pw smsCode) in
           match loginResult with
           | None => throw Lit.readErrorOfUndefined
           | Some r =>
               if truthyOpt (error r) then
                 lift (logError (Lit.loginErrorPrefix ++ default [] (error r)));; ret (inl r)
               else if requiresSms r then ret (inl r)
               else
                 let* s := getSession in
                 let* isAlreadyLoggedIn := lift (checkIfLoggedIn P (page s)) in
                 if (isAlreadyLoggedIn : bool) then ret (inr true)
                 else ret (inl (mkLoginResult false (Some Lit.authNotConfirmed)))
           end)
          (fun message =>
             lift (logError Lit.autoLoginError);;
             ret (inl (mkLoginResult false (Some (messageOr message Lit.loginErrorDefault)))))
      else
        let* s := getSession in
        let* b := lift (checkIfLoggedIn P (page s)) in ret (inr b)
  | _, _ =>
      let* s := getSession in
      let* b := lift (checkIfLoggedIn P (page s)) in ret (inr b)
  end.

Definition maxWaitTime : N := 300.
Definition checkInterval : N := 5.

(** The time waited so far when [remaining] iterations are left. *)
Definition waitedTime (limit : N) (remaining : nat) : N :=
  limit - checkInterval * N.of_nat remaining.

(** Lines 152-169: the manual-login wait.  The loop counter [waitedTime]
    runs 0, 5, ..., and the guard [waitedTime < maxWaitTime] holds exactly
    while [remaining] is positive (lemma [manualWait_guard]); [iter] numbers
    the iterations for the interference schedule.  Returns [isLoggedIn]. *)
Fixpoint manualWait (intf : nat -> SState W -> SState W) (remaining iter : nat) : SM bool :=
  match remaining with
  | O => ret false
  | S remaining' =>
      (let* p := thisPage "waitForTimeout" in lift (pSleep P p (checkInterval * 1000)));;
      interfere (intf iter);;
      let* r := attempt (let* s := getSession in lift (checkIfLoggedIn P (page s))) in
      match r with
      | Ok true => ret true
      | _ => manualWait intf remaining' (S iter)
      end
  end.

(** Lines 181-191: the grace wait after an unconfirmed automatic login. *)
Fixpoint graceWait (remaining : nat) : SM unit :=
  match remaining with
  | O => ret tt
  | S remaining' =>
      (let* p := thisPage "waitForTimeout" in lift (pSleep P p 5000));;
      let* s := getSession in
      let* loggedIn := lift (checkIfLoggedIn P (page s)) in
      if (loggedIn : bool) then ret tt else graceWait remaining'
  end.

(** Lines 95-194. *)
Definition startAwaitLogin (intf : nat -> SState W -> SState W)
    (phone password : option jsstring) (isAlreadyLoggedIn : bool) : SM unit :=
  if isAlreadyLoggedIn then ret tt
  else
    (let* s := getSession in
     match page s with
     | Some p => lift (openLoginFormForUser P p)
     | None => lift (logWarn (lit "Error opening login form:"))
     end);;
    if negb (truthyOpt phone) || negb (truthyOpt password) then
      let* isLoggedIn := manualWait intf 60 0 in
      if (isLoggedIn : bool) then ret tt else throw Lit.authTimedOut
    else
      (let* p := thisPage "waitForTimeout" in lift (pSleep P p 3000));;
      let* s := getSession in
      let* isLoggedIn := lift (checkIfLoggedIn P (page s)) in
      if (isLoggedIn : bool) then ret tt
      else
        lift (logWarn Lit.autoLoginNotConfirmed);;
        graceWait 24.

(** Lines 196-211: reach the messenger, mark the session running, arm the
    interval and the listener. *)
Definition startArm : SM unit :=
  (let* s := getSession in lift (navigateToMessenger P (page s)));;
  setIsRunning true;;
  startMessageMonitoring;;
  let* s := getSession in lift (setupMessageListener P (page s)).

(** Lines 213-220: the first check, made by [startMonitoring] itself. *)
Definition startFirstCheck : SM unit :=
  tryCatch runCheckForNewMessages
    (fun _ => lift (logWarn (lit "Error in initial message check:"))).

(** Lines 227-235. *)
Definition startAnnounce : SM LoginResult :=
  let* t1 := lift (now P) in
  let* t2 := lift (now P) in
  lift (addMessage (systemMessage (IdSystemReady t1) Lit.monitoringReadyText t2));;
  ret loginOk.

Definition startRun : SM LoginResult :=
  startArm;; startFirstCheck;; startAnnounce.

Definition startBody (intf : nat -> SState W -> SState W)
    (phone password smsCode : option jsstring) : SM LoginResult :=
  startOpen;;
  let* auth := startAuthenticate phone password smsCode in
  match auth with
  | inl r => ret r
  | inr isAlreadyLoggedIn =>
      startAwaitLogin intf phone password isAlreadyLoggedIn;;
      startRun
  end.

(** [startMonitoring], with the interference of other tasks during the
    manual wait as a parameter.  [None] is the [undefined] of the bare
    [return;] at line 19. *)
Definition startMonitoringWith (intf : nat -> SState W -> SState W)
    (phone password smsCode : option jsstring) : SM (option LoginResult) :=
  let* s := getSession in
  if isRunning s then
    lift (logWarn (lit "Monitoring is already running"));; ret None
  else
    tryCatch
      (let* r := startBody intf phone password smsCode in ret (Some r))
      (fun message =>
         lift (logError (lit "Error starting monitoring:"));;
         cleanup;;
         ret (Some (mkLoginResult false (Some (messageOr message Lit.startErrorDefault))))).

(** [startMonitoring] run with no other task active. *)
Definition startMonitoring (phone password smsCode : option jsstring)
    : SM (option LoginResult) :=
  startMonitoringWith (fun _ s => s) phone password smsCode.

(** *** The command surface (app.controller.ts, lines 22-51) *)

Definition controllerStart (phone password smsCode : option jsstring) : SM Response :=
  tryCatch
    (let* result := startMonitoring phone password smsCode in
     match result with
     | None => throw Lit.readErrorOfUndefined
     | Some r =>
         if truthyOpt (error r)
         then ret (mkResponse false (error r) (Some (requiresSms r)) None)
         else if requiresSms r
         then ret (mkResponse false None (Some true) (Some Lit.smsRequired))
         else ret (mkResponse true None None (Some (lit "Monitoring started")))
     end)
    (fun message => ret (mkResponse false (Some message) None None)).

Definition controllerStop : SM Response :=
  tryCatch
    (stopMonitoring;; ret (mkResponse true None None (Some (lit "Monitoring stopped"))))
    (fun message => ret (mkResponse false (Some message) None None)).

Definition controllerStatus (s : SState W) : Status := getStatus s.

End Service.

(** ** A simulated site

    A scripted environment for concrete runs: what the page shows is a
    function of the number of texts typed into it so far. *)

Module Sim.

Record Site := mkSite {
  siteUrl : nat -> jsstring;
  siteQuery : nat -> jsstring -> option Handle;
  sitePlaceholder : nat -> Handle -> jsstring;
  siteMarker : nat -> Handle -> jsstring;
  siteErrors : nat -> list jsstring;
  siteCounts : nat -> nat * nat * nat;
  siteChat : ChatSnapshot;
  sitePreview : PreviewSnapshot;
  siteCloseFails : bool;
}.

Record State := mkState {
  typedCount : nat;      (* texts typed so far *)
  launchedCount : N;     (* browsers launched so far *)
}.

Definition start : State := mkState 0 0.

Definition visibleBox : Box := mkBox 200 40 (lit "block") (lit "visible").

Definition puppeteer (site : Site) : Puppeteer State := {|
  launch w := (Ok (launchedCount w + 1), mkState (typedCount w) (launchedCount w + 1));
  newPage b w := (Ok b, w);
  setViewport _ _ _ w := w;
  browserClose _ w :=
    (if siteCloseFails site then Throw (lit "Protocol error: Connection closed.") else Ok tt, w);
  goto _ _ _ _ w := (Ok tt, w);
  waitForTimeout _ _ w := w;
  url _ w := siteUrl site (typedCount w);
  waitForSelector _ _ _ w := (Ok tt, w);
  query _ s w := (Ok (siteQuery site (typedCount w) s), w);
  queryAll _ _ w := (Ok [], w);
  click _ _ w := (Ok tt, w);
  typeText _ _ w := (Ok tt, mkState (S (typedCount w)) (launchedCount w));
  press _ _ w := (Ok tt, w);
  screenshot _ _ w := (Ok tt, w);
  evalTextLower _ _ w := (Ok [], w);
  evalAttribute _ h name w :=
    (Ok (if JS.eqb name (lit "data-marker") then siteMarker site (typedCount w) h else []), w);
  evalPlaceholder _ h w := (Ok (sitePlaceholder site (typedCount w) h), w);
  evalInputType _ _ w := (Ok (lit "text"), w);
  evalBox _ _ w := (Ok visibleBox, w);
  evalSetInputType _ _ _ w := (Ok tt, w);
  evalErrorElements _ w := (Ok (siteErrors site (typedCount w)), w);
  evalProfileCounts _ w := (Ok (siteCounts site (typedCount w)), w);
  evalInstallObserver _ w := (Ok tt, w);
  evalChatSnapshot _ w := (Ok (siteChat site), w);
  evalPreviewSnapshot _ w := (Ok (sitePreview site), w);
  onConsole _ w := w;
  dateNow w := (1700000000000, w);
|}.

Definition emptyChat : ChatSnapshot := mkChatSnapshot [] [] [] 0.
Definition emptyPreview : PreviewSnapshot := mkPreviewSnapshot [] [] 0 (fun _ => 0).

(** The state of a fresh process on this site. *)
Definition fresh : SState State := mkSState initialSession (mkPState start []).

End Sim.

(** * Properties *)

(** ** The dedup gate as a function *)

Module Dedup.

Definition nonEmpty (m : Message) : bool := truthy (trim (text m)).

Definition hasKey (k : list N) (m : Message) : bool :=
  bool_decide (messageKey m = k).

(** The messages a [for] loop over [messages] forwards, and the set it
    leaves, when it starts from [processed]. *)
Fixpoint forwarded (messages : list Message) (processed : gset (list N)) : list Message :=
  match messages with
  | [] => []
  | m :: rest =>
      if negb (bool_decide (messageKey m ∈ processed)) && nonEmpty m
      then m :: forwarded rest ({[messageKey m]} ∪ processed)
      else forwarded rest processed
  end.

Fixpoint seenAfter (messages : list Message) (processed : gset (list N)) : gset (list N) :=
  match messages with
  | [] => processed
  | m :: rest =>
      if negb (bool_decide (messageKey m ∈ processed)) && nonEmpty m
      then seenAfter rest ({[messageKey m]} ∪ processed)
      else seenAfter rest processed
  end.

(** The messages published in a log, oldest first. *)
Definition published (evs : list Event) : list Message :=
  flat_map (fun e => match e with EvPublish m => [m] | _ => [] end) evs.

Lemma published_app (a b : list Event) : published (a ++ b) = published a ++ published b.
Proof. unfold published. apply flat_map_app. Qed.

Lemma published_map (ms : list Message) : published (map EvPublish ms) = ms.
Proof. induction ms as [|m ms IH]; simpl; [reflexivity | now rewrite IH]. Qed.

Lemma forwarded_app (a b : list Message) (pm : gset (list N)) :
  forwarded (a ++ b) pm = forwarded a pm ++ forwarded b (seenAfter a pm).
Proof.
  revert pm. induction a as [|m a IH]; intros pm; simpl; [reflexivity|].
  destruct (negb (bool_decide (messageKey m ∈ pm)) && nonEmpty m); simpl; rewrite IH; reflexivity.
Qed.

Lemma seenAfter_app (a b : list Message) (pm : gset (list N)) :
  seenAfter (a ++ b) pm = seenAfter b (seenAfter a pm).
Proof.
  revert pm. induction a as [|m a IH]; intros pm; simpl; [reflexivity|].
  destruct (negb (bool_decide (messageKey m ∈ pm)) && nonEmpty m); apply IH.
Qed.

Lemma seenAfter_mono (ms : list Message) (pm : gset (list N)) : pm ⊆ seenAfter ms pm.
Proof.
  revert pm. induction ms as [|m ms IH]; intros pm; simpl; [set_solver|].
  destruct (negb (bool_decide (messageKey m ∈ pm)) && nonEmpty m);
    [etransitivity; [|apply IH]; set_solver | apply IH].
Qed.


(** Among the forwarded messages, those with key [k]: none when [k] was
    already processed, else the first non-empty message with that key. *)
Lemma forwarded_key (ms : list Message) (pm : gset (list N)) (k : list N) :
  List.filter (hasKey k) (forwarded ms pm) =
  if bool_decide (k ∈ pm) then []
  else take 1 (List.filter (fun m => hasKey k m && nonEmpty m) ms).
Proof.
  revert pm. induction ms as [|m ms IH]; intros pm; simpl.
  - destruct (bool_decide (k ∈ pm)); reflexivity.
  - unfold hasKey at 2 3.
    destruct (bool_decide (messageKey m ∈ pm)) eqn:Hin; simpl.
    + rewrite IH. destruct (bool_decide (k ∈ pm)) eqn:Hk; [reflexivity|].
      destruct (bool_decide (messageKey m = k)) eqn:Hmk; simpl; [|reflexivity].
      apply bool_decide_eq_true in Hmk. subst k. congruence.
    + destruct (nonEmpty m) eqn:Hne; simpl.
      * unfold hasKey at 1. destruct (bool_decide (messageKey m = k)) eqn:Hmk; simpl.
        -- apply bool_decide_eq_true in Hmk. subst k. rewrite Hin. f_equal.
           rewrite IH. rewrite bool_decide_eq_true_2 by set_solver. reflexivity.
        -- rewrite IH. apply bool_decide_eq_false in Hmk.
           destruct (bool_decide (k ∈ pm)) eqn:Hk.
           ++ apply bool_decide_eq_true in Hk. rewrite bool_decide_eq_true_2 by set_solver.
              reflexivity.
           ++ apply bool_decide_eq_false in Hk. rewrite bool_decide_eq_false_2; [reflexivity|].
              set_solver.
      * rewrite IH. rewrite andb_false_r. reflexivity.
Qed.

Lemma forwarded_key_count (ms : list Message) (pm : gset (list N)) (k : list N) :
  length (List.filter (hasKey k) (forwarded ms pm)) =
  if bool_decide (k ∈ pm) then 0%nat
  else if existsb (fun m => hasKey k m && nonEmpty m) ms then 1%nat else 0%nat.
Proof.
  rewrite forwarded_key. destruct (bool_decide (k ∈ pm)); [reflexivity|].
  induction ms as [|m ms IH]; simpl; [reflexivity|].
  destruct (hasKey k m && nonEmpty m); simpl; [reflexivity | exact IH].
Qed.

End Dedup.

(** ** Reasoning about computations

    [steps R m]: every run of [m] takes a state to an [R]-related one.
    For a preorder [R] the property follows the structure of [m]. *)

Section Steps.

Context {S : Type} (R : S -> S -> Prop) {HR : PreOrder R}.

Definition steps {A} (m : M S A) : Prop := forall s, R s (m s).2.

Lemma steps_ret {A} (a : A) : steps (ret a).
Proof. intros s. simpl. reflexivity. Qed.

Lemma steps_throw {A} (msg : jsstring) : steps (@throw S A msg).
Proof. intros s. simpl. reflexivity. Qed.

Lemma steps_bind {A B} (m : M S A) (k : A -> M S B) :
  steps m -> (forall a, steps (k a)) -> steps (bind m k).
Proof.
  intros Hm Hk s. unfold bind. specialize (Hm s).
  destruct (m s) as [[a|e] s1]; simpl in *; [|exact Hm].
  etransitivity; [exact Hm | apply Hk].
Qed.

Lemma steps_tryCatch {A} (m : M S A) (h : jsstring -> M S A) :
  steps m -> (forall e, steps (h e)) -> steps (tryCatch m h).
Proof.
  intros Hm Hh s. unfold tryCatch. specialize (Hm s).
  destruct (m s) as [[a|e] s1]; simpl in *; [exact Hm|].
  etransitivity; [exact Hm | apply Hh].
Qed.

Lemma steps_attempt {A} (m : M S A) : steps m -> steps (attempt m).
Proof.
  intros Hm s. unfold attempt. specialize (Hm s).
  destruct (m s) as [r s1]; exact Hm.
Qed.

End Steps.

(** A computation that never throws. *)
Definition total {S A} (m : M S A) : Prop := forall s, exists a, (m s).1 = Ok a.

Lemma total_ret {S A} (a : A) : total (@ret S A a).
Proof. intros s; exists a; reflexivity. Qed.

Lemma total_bind {S A B} (m : M S A) (k : A -> M S B) :
  total m -> (forall a, total (k a)) -> total (bind m k).
Proof.
  intros Hm Hk s. unfold bind. destruct (Hm s) as [a Ha].
  destruct (m s) as [[a'|e] s1]; simpl in Ha; [|discriminate].
  apply Hk.
Qed.

Lemma total_tryCatch {S A} (m : M S A) (h : jsstring -> M S A) :
  (forall e, total (h e)) -> total (tryCatch m h).
Proof.
  intros Hh s. unfold tryCatch. destruct (m s) as [[a|e] s1]; [exists a; reflexivity | apply Hh].
Qed.

Lemma total_attempt {S A} (m : M S A) : total (attempt m).
Proof. intros s. unfold attempt. destruct (m s) as [r s1]. exists r; reflexivity. Qed.

(** *** Logs only grow, by events of a given class *)

Definition extends {W} (phi : Event -> Prop) (st st' : PState W) : Prop :=
  exists evs, log st' = log st ++ evs /\ Forall phi evs.

#[local] Instance extends_preorder {W} (phi : Event -> Prop) : PreOrder (@extends W phi).
Proof.
  split.
  - intros st. exists []. split; [symmetry; apply app_nil_r | constructor].
  - intros a b c (e1 & H1 & F1) (e2 & H2 & F2). exists (e1 ++ e2). split.
    + rewrite H2, H1. symmetry. apply app_assoc.
    + apply Forall_app; split; assumption.
Qed.

Definition extendsS {W} (phi : Event -> Prop) (s s' : SState W) : Prop :=
  extends phi (env s) (env s').

#[local] Instance extendsS_preorder {W} (phi : Event -> Prop) : PreOrder (@extendsS W phi).
Proof.
  split.
  - intros s. unfold extendsS. reflexivity.
  - intros a b c H1 H2. unfold extendsS in *. etransitivity; eassumption.
Qed.

(** *** Event kinds and footprints *)

Inductive Kind :=
| KLaunch | KNewPage | KBrowserClose | KSetInterval | KClearInterval | KClearProcessed
| KPublish | KGoto | KSleep | KClick (f : Field) | KType (f : Field) | KPress (f : Field)
| KSetInputType | KScreenshot | KLog.

Definition kindOf (e : Event) : Kind :=
  match e with
  | EvLaunch _ => KLaunch
  | EvNewPage _ _ => KNewPage
  | EvBrowserClose _ _ => KBrowserClose
  | EvSetInterval _ => KSetInterval
  | EvClearInterval _ => KClearInterval
  | EvClearProcessed => KClearProcessed
  | EvPublish _ => KPublish
  | EvGoto _ _ _ => KGoto
  | EvSleep _ _ => KSleep
  | EvClick f _ _ => KClick f
  | EvType f _ _ _ => KType f
  | EvPress f _ _ => KPress f
  | EvSetInputType _ _ _ => KSetInputType
  | EvScreenshot _ => KScreenshot
  | EvLog _ _ => KLog
  end.

(** [allowed ks e]: the event [e] is of one of the kinds [ks]. *)
Definition allowed (ks : list Kind) (e : Event) : Prop := In (kindOf e) ks.

(** [quiet ks m]: [m] only appends events of the kinds [ks] to the log. *)
Definition quiet {W A} (ks : list Kind) (m : M (PState W) A) : Prop :=
  steps (extends (allowed ks)) m.

Lemma quiet_mono {W A} (ks ks' : list Kind) (m : M (PState W) A) :
  quiet ks m -> (forall k, In k ks -> In k ks') -> quiet ks' m.
Proof.
  intros Hm Hincl st. destruct (Hm st) as (evs & Hlog & Hall).
  exists evs. split; [exact Hlog|].
  eapply Forall_impl; [exact Hall|]. intros e He. apply Hincl, He.
Qed.

Lemma extends_mono {W} (ks ks' : list Kind) (st st' : PState W) :
  (forall k, In k ks -> In k ks') ->
  extends (allowed ks) st st' -> extends (allowed ks') st st'.
Proof.
  intros Hincl (evs & Hlog & Hall). exists evs. split; [exact Hlog|].
  eapply Forall_impl; [exact Hall|]. intros e He. apply Hincl, He.
Qed.

Section QuietStructure.

Context {W : Type} (ks : list Kind).

Lemma quiet_ret {A} (a : A) : quiet (W:=W) ks (ret a).
Proof. apply steps_ret; apply _. Qed.

Lemma quiet_throw {A} msg : quiet (W:=W) (A:=A) ks (throw msg).
Proof. apply steps_throw; apply _. Qed.

Lemma quiet_bind {A B} (m : M (PState W) A) (k : A -> M (PState W) B) :
  quiet ks m -> (forall a, quiet ks (k a)) -> quiet ks (bind m k).
Proof. apply steps_bind; apply _. Qed.

Lemma quiet_tryCatch {A} (m : M (PState W) A) h :
  quiet ks m -> (forall e, quiet ks (h e)) -> quiet ks (tryCatch m h).
Proof. apply steps_tryCatch; apply _. Qed.

Lemma quiet_attempt {A} (m : M (PState W) A) : quiet ks m -> quiet ks (attempt m).
Proof. apply steps_attempt. Qed.

End QuietStructure.

Ltac in_kinds := solve [compute; repeat (first [left; reflexivity | right])].
Ltac incl_kinds :=
  let k := fresh "k" in
  let H := fresh "H" in
  intros k H; compute in H;
  repeat (destruct H as [H|H]; [subst k; in_kinds|]);
  contradiction.

Create HintDb quiet.

Section QuietPrimitives.

Context {W : Type} (P : Puppeteer W).

Lemma quiet_call {A} ks (f : W -> Res A * W) (ev : bool -> list Event) :
  (forall b, Forall (allowed ks) (ev b)) -> quiet ks (call f ev).
Proof.
  intros H st. unfold call. destruct (f (world st)) as [r w']. simpl.
  exists (ev (isOk r)). split; [reflexivity | apply H].
Qed.

Lemma quiet_probe {A} ks (f : W -> Res A * W) : quiet ks (probe f).
Proof. apply quiet_call. intros; constructor. Qed.

Lemma quiet_emit ks (e : Event) : In (kindOf e) ks -> quiet (W:=W) ks (emit e).
Proof.
  intros H st. exists [e]. split; [reflexivity | constructor; [exact H | constructor]].
Qed.

Lemma quiet_pSleep ks p ms : In KSleep ks -> quiet ks (pSleep P p ms).
Proof.
  intros H st. exists [EvSleep p ms]. split; [reflexivity | constructor; [exact H | constructor]].
Qed.

Lemma quiet_pUrl ks p : quiet ks (pUrl P p).
Proof. intros st. simpl. reflexivity. Qed.

Lemma quiet_now ks : quiet ks (now P).
Proof.
  intros st. unfold now. destruct (dateNow W P (world st)) as [t w']. simpl.
  exists []. split; [symmetry; apply app_nil_r | constructor].
Qed.

Lemma quiet_pGoto ks p u wu t : In KGoto ks -> quiet ks (pGoto P p u wu t).
Proof. intros H. apply quiet_call. intros b. constructor; [exact H | constructor]. Qed.

Lemma quiet_pWaitForSelector ks p s t : quiet ks (pWaitForSelector P p s t).
Proof. apply quiet_probe. Qed.

Lemma quiet_pQuery ks p s : quiet ks (pQuery P p s).
Proof. apply quiet_probe. Qed.

Lemma quiet_pQueryAll ks p s : quiet ks (pQueryAll P p s).
Proof. apply quiet_probe. Qed.

Lemma quiet_hClick ks f h n : In (KClick f) ks -> quiet ks (hClick P f h n).
Proof. intros H. apply quiet_call. intros b. constructor; [exact H | constructor]. Qed.

Lemma quiet_hType ks f h t : In (KType f) ks -> quiet ks (hType P f h t).
Proof. intros H. apply quiet_call. intros b. constructor; [exact H | constructor]. Qed.

Lemma quiet_hPress ks f h key : In (KPress f) ks -> quiet ks (hPress P f h key).
Proof. intros H. apply quiet_call. intros b. constructor; [exact H | constructor]. Qed.

Lemma quiet_pSetInputType ks p h ty : In KSetInputType ks -> quiet ks (pSetInputType P p h ty).
Proof. intros H. apply quiet_call. intros b. constructor; [exact H | constructor]. Qed.

Lemma quiet_pScreenshot ks p path : In KScreenshot ks -> quiet ks (pScreenshot P p path).
Proof. intros H. apply quiet_call. intros b. constructor; [exact H | constructor]. Qed.

Lemma quiet_logWarn ks msg : In KLog ks -> quiet (W:=W) ks (logWarn msg).
Proof. intros H. apply quiet_emit, H. Qed.

Lemma quiet_logError ks msg : In KLog ks -> quiet (W:=W) ks (logError msg).
Proof. intros H. apply quiet_emit, H. Qed.

Lemma quiet_addMessage ks m : In KPublish ks -> quiet (W:=W) ks (addMessage m).
Proof. intros H. apply quiet_emit, H. Qed.

End QuietPrimitives.

(** One step of a footprint proof: follow the structure of the computation,
    use the lemma of a primitive, or the footprint of a procedure already
    proved (hint database [quiet]). *)
Ltac quiet_step :=
  first
    [ (eapply quiet_mono; [solve [eauto with quiet] | incl_kinds])
    | solve [auto]
    | apply quiet_ret | apply quiet_throw
    | apply quiet_bind | apply quiet_tryCatch | apply quiet_attempt
    | apply quiet_probe | apply quiet_pUrl | apply quiet_now
    | apply quiet_pWaitForSelector | apply quiet_pQuery | apply quiet_pQueryAll
    | apply quiet_pSleep; in_kinds | apply quiet_pGoto; in_kinds
    | apply quiet_hClick; in_kinds | apply quiet_hType; in_kinds
    | apply quiet_hPress; in_kinds | apply quiet_pSetInputType; in_kinds
    | apply quiet_pScreenshot; in_kinds | apply quiet_logWarn; in_kinds
    | apply quiet_logError; in_kinds | apply quiet_addMessage; in_kinds
    | apply quiet_emit; in_kinds
    | match goal with
      | |- quiet _ (match ?x with _ => _ end) => destruct x
      end ].

Ltac quiet_auto := intros; repeat (intros; quiet_step).

Section QuietProcedures.

Context {W : Type} (P : Puppeteer W).

Lemma quiet_checkIfLoggedIn page : quiet [KLog] (checkIfLoggedIn P page).
Proof. unfold checkIfLoggedIn. quiet_auto. Qed.
#[local] Hint Resolve quiet_checkIfLoggedIn : quiet.

Lemma quiet_scanErrorText p : quiet [] (scanErrorText P p).
Proof. unfold scanErrorText. quiet_auto. Qed.
#[local] Hint Resolve quiet_scanErrorText : quiet.

Lemma quiet_locate visible p sels cur : quiet [] (locate P visible p sels cur).
Proof. revert cur. induction sels as [|s rest IH]; intros cur; simpl; quiet_auto. Qed.
#[local] Hint Resolve quiet_locate : quiet.

Lemma quiet_submitOrEnter f p h :
  quiet [KClick OtherElement; KPress f] (submitOrEnter P f p h).
Proof. unfold submitOrEnter. quiet_auto. Qed.
#[local] Hint Resolve quiet_submitOrEnter : quiet.

Lemma quiet_noPasswordField p : quiet [] (noPasswordField P p).
Proof. unfold noPasswordField. quiet_auto. Qed.
#[local] Hint Resolve quiet_noPasswordField : quiet.

Definition smsCodeKinds : list Kind :=
  [KClick SmsCodeInput; KType SmsCodeInput; KSleep; KClick OtherElement; KPress SmsCodeInput].

Lemma quiet_enterSmsCode p h code : quiet smsCodeKinds (enterSmsCode P p h code).
Proof. unfold enterSmsCode, smsCodeKinds. quiet_auto. Qed.
#[local] Hint Resolve quiet_enterSmsCode : quiet.

Lemma quiet_smsStep p smsCode : quiet smsCodeKinds (smsStep P p smsCode).
Proof. unfold smsStep. quiet_auto; unfold smsCodeKinds; quiet_auto. Qed.
#[local] Hint Resolve quiet_smsStep : quiet.

Definition passwordKinds : list Kind :=
  [KClick PasswordInput; KType PasswordInput; KSleep; KSetInputType;
   KClick OtherElement; KPress PasswordInput].

Lemma quiet_enterPassword p h password : quiet passwordKinds (enterPassword P p h password).
Proof. unfold enterPassword, passwordKinds. quiet_auto. Qed.
#[local] Hint Resolve quiet_enterPassword : quiet.

Definition phoneKinds : list Kind :=
  [KClick PhoneInput; KType PhoneInput; KSleep; KClick OtherElement; KPress PhoneInput].

Lemma quiet_enterPhone p h phone : quiet phoneKinds (enterPhone P p h phone).
Proof. unfold enterPhone, phoneKinds. quiet_auto. Qed.
#[local] Hint Resolve quiet_enterPhone : quiet.

Lemma quiet_openLoginForm p : quiet [KGoto; KLog; KSleep] (openLoginForm P p).
Proof. unfold openLoginForm. quiet_auto. Qed.
#[local] Hint Resolve quiet_openLoginForm : quiet.

Lemma quiet_awaitLoginForm p : quiet [KLog; KSleep] (awaitLoginForm P p).
Proof. unfold awaitLoginForm. quiet_auto. Qed.
#[local] Hint Resolve quiet_awaitLoginForm : quiet.

Lemma quiet_loginRecheckCode p : quiet [KLog; KSleep] (loginRecheckCode P p).
Proof. unfold loginRecheckCode. quiet_auto. Qed.
#[local] Hint Resolve quiet_loginRecheckCode : quiet.

Lemma quiet_loginVerify p smsCode : quiet [KLog; KSleep] (loginVerify P p smsCode).
Proof. unfold loginVerify. quiet_auto. Qed.
#[local] Hint Resolve quiet_loginVerify : quiet.

(** Everything [login] can do to the outside. *)
Definition loginKinds : list Kind :=
  [KGoto; KSleep; KLog; KScreenshot; KSetInputType;
   KClick PhoneInput; KClick PasswordInput; KClick SmsCodeInput; KClick OtherElement;
   KType PhoneInput; KType PasswordInput; KType SmsCodeInput;
   KPress PhoneInput; KPress PasswordInput; KPress SmsCodeInput].

Lemma quiet_loginEnter p phone password smsCode :
  quiet loginKinds (loginEnter P p phone password smsCode).
Proof.
  unfold loginEnter, loginKinds, smsCodeKinds, passwordKinds, phoneKinds.
  quiet_auto; unfold smsCodeKinds, passwordKinds, phoneKinds; quiet_auto.
Qed.
#[local] Hint Resolve quiet_loginEnter : quiet.

Lemma quiet_loginCatch p message : quiet [KLog; KScreenshot] (loginCatch P p message).
Proof. unfold loginCatch. quiet_auto. Qed.
#[local] Hint Resolve quiet_loginCatch : quiet.

Lemma quiet_login page phone password smsCode :
  quiet loginKinds (login P page phone password smsCode).
Proof.
  unfold login, loginBody. quiet_auto; unfold loginKinds; quiet_auto.
Qed.
#[local] Hint Resolve quiet_login : quiet.

Definition pageKinds : list Kind := KPublish :: loginKinds.

Lemma quiet_clickFirstMatching matches ms p elements :
  quiet [KClick OtherElement; KSleep] (clickFirstMatching P matches ms p elements).
Proof. induction elements as [|e rest IH]; simpl; quiet_auto. Qed.
#[local] Hint Resolve quiet_clickFirstMatching : quiet.

Lemma quiet_clickBySelectors matches ms p sels :
  quiet [KClick OtherElement; KSleep] (clickBySelectors P matches ms p sels).
Proof. induction sels as [|s rest IH]; simpl; quiet_auto. Qed.
#[local] Hint Resolve quiet_clickBySelectors : quiet.

Lemma quiet_openLoginFormForUser p :
  quiet [KGoto; KSleep; KLog; KClick OtherElement] (openLoginFormForUser P p).
Proof. unfold openLoginFormForUser. quiet_auto. Qed.
#[local] Hint Resolve quiet_openLoginFormForUser : quiet.

Lemma quiet_gotoFirstMessengerUrl p urls :
  quiet [KGoto; KSleep; KLog] (gotoFirstMessengerUrl P p urls).
Proof. induction urls as [|u rest IH]; simpl; quiet_auto. Qed.
#[local] Hint Resolve quiet_gotoFirstMessengerUrl : quiet.

Lemma quiet_navigateToMessenger page :
  quiet [KGoto; KSleep; KLog; KClick OtherElement; KPublish] (navigateToMessenger P page).
Proof. unfold navigateToMessenger. quiet_auto. Qed.
#[local] Hint Resolve quiet_navigateToMessenger : quiet.

Lemma quiet_setupMessageListener page : quiet [KLog] (setupMessageListener P page).
Proof.
  unfold setupMessageListener. quiet_auto.
  intros st. exists []. split; [symmetry; apply app_nil_r | constructor].
Qed.
#[local] Hint Resolve quiet_setupMessageListener : quiet.

Lemma quiet_processMessages messages processed :
  quiet (W:=W) [KPublish] (processMessages messages processed).
Proof. revert processed. induction messages as [|m rest IH]; intros pm; simpl; quiet_auto. Qed.
#[local] Hint Resolve quiet_processMessages : quiet.

Lemma quiet_extractMessagesFromPage page processed :
  quiet [KPublish] (extractMessagesFromPage P page processed).
Proof. unfold extractMessagesFromPage. quiet_auto. Qed.
#[local] Hint Resolve quiet_extractMessagesFromPage : quiet.

Lemma quiet_checkForNewMessages page processed :
  quiet [KPublish; KLog] (checkForNewMessages P page processed).
Proof. unfold checkForNewMessages. quiet_auto. Qed.
#[local] Hint Resolve quiet_checkForNewMessages : quiet.

End QuietProcedures.

#[global] Hint Resolve quiet_checkIfLoggedIn quiet_scanErrorText quiet_locate
  quiet_submitOrEnter quiet_noPasswordField quiet_enterSmsCode quiet_smsStep
  quiet_enterPassword quiet_enterPhone quiet_openLoginForm quiet_awaitLoginForm
  quiet_loginRecheckCode quiet_loginVerify quiet_loginEnter quiet_loginCatch quiet_login
  quiet_clickFirstMatching quiet_clickBySelectors quiet_openLoginFormForUser
  quiet_gotoFirstMessengerUrl quiet_navigateToMessenger quiet_setupMessageListener
  quiet_processMessages quiet_extractMessagesFromPage quiet_checkForNewMessages : quiet.

(** ** The poll loop *)

(** What the outside does to a running session: the interval fires, the
    page logs to its console, or the site and the operator change the
    page. *)
Inductive PollOp (W : Type) :=
| PollTick
| PollConsole (msgText : jsstring)
| PollWorld (f : W -> W).
Arguments PollTick {W}.
Arguments PollConsole {W} msgText.
Arguments PollWorld {W} f.

Section Polling.

Context {W : Type} (P : Puppeteer W).

Import Dedup.

Lemma processMessages_spec (ms : list Message) (pm : gset (list N)) (st : PState W) :
  processMessages ms pm st =
  (Ok (seenAfter ms pm), mkPState (world st) (log st ++ map EvPublish (forwarded ms pm))).
Proof.
  revert pm st. induction ms as [|m ms IH]; intros pm st; simpl.
  - unfold ret. rewrite app_nil_r. destruct st; reflexivity.
  - unfold nonEmpty.
    destruct (negb (bool_decide (messageKey m ∈ pm)) && truthy (trim (text m))); [|apply IH].
    unfold bind, addMessage, emit. rewrite IH. simpl. rewrite <- app_assoc. reflexivity.
Qed.

(** The messages the second in-page function yields in world [w]. *)
Definition previewYields (p : Page) (w : W) : list Message :=
  match (evalPreviewSnapshot W P p w).1 with
  | Ok d => Extract.foundInPreviews Extract.targetNames d
  | Throw _ => []
  end.

(** The messages both extraction passes of one [checkForNewMessages] yield
    to the dedup loops, in order. *)
Definition checkYields (page : option Page) (st : PState W) : list Message :=
  match page with
  | None => []
  | Some p =>
      if negb (isOnMessengerPage (url W P p (world st))) then []
      else
        match evalChatSnapshot W P p (world st) with
        | (Ok d, w') => Extract.foundInChats Extract.targetNames d ++ previewYields p w'
        | (Throw _, _) => []
        end
  end.

Lemma checkForNewMessages_spec (page : option Page) (pm : gset (list N)) (st : PState W) :
  exists st',
    checkForNewMessages P page pm st = (Ok (seenAfter (checkYields page st) pm), st')
    /\ published (log st') = published (log st) ++ forwarded (checkYields page st) pm.
Proof.
  unfold checkForNewMessages, checkYields.
  destruct page as [p|]; simpl.
  - unfold bind at 1. unfold pUrl at 1. simpl.
    destruct (isOnMessengerPage (url W P p (world st))); simpl.
    + unfold bind, attempt, probe, call. simpl.
      destruct (evalChatSnapshot W P p (world st)) as [[d|e] w1]; simpl.
      * rewrite processMessages_spec. simpl.
        unfold extractMessagesFromPage, bind, attempt, probe, call, previewYields. simpl.
        destruct (evalPreviewSnapshot W P p w1) as [[d2|e2] w2]; simpl.
        -- rewrite processMessages_spec. simpl.
           rewrite seenAfter_app, forwarded_app.
           eexists; split; [reflexivity|]. simpl.
           rewrite !app_nil_r, !published_app, !published_map. rewrite <- app_assoc. auto.
        -- rewrite (app_nil_r (Extract.foundInChats _ _)).
           eexists; split; [reflexivity|]. simpl.
           rewrite !app_nil_r, !published_app, !published_map. auto.
      * eexists; split; [reflexivity|]. simpl.
        rewrite !app_nil_r, !published_app. simpl. rewrite !app_nil_r. auto.
    + eexists; split; [reflexivity|]. rewrite app_nil_r. auto.
  - eexists; split; [reflexivity|]. simpl. rewrite published_app. simpl. auto.
Qed.

Lemma checkForNewMessages_total page pm : total (checkForNewMessages P page pm).
Proof.
  intros st. destruct (checkForNewMessages_spec page pm st) as (st' & H & _).
  rewrite H. eexists; reflexivity.
Qed.

(** The messages one poll operation yields to the dedup loops. *)
Definition pollYields (op : PollOp W) (s : SState W) : list Message :=
  match op with
  | PollTick =>
      if negb (isRunning (session s)) || negb (isSome (page (session s))) then []
      else checkYields (page (session s)) (env s)
  | PollConsole msgText =>
      if includes msgText (lit "NEW_MESSAGE")
      then checkYields (page (session s)) (env s) else []
  | PollWorld _ => []
  end.

Definition runPoll (op : PollOp W) (s : SState W) : SState W :=
  match op with
  | PollTick => (tick P s).2
  | PollConsole msgText => (onConsoleMessage P msgText s).2
  | PollWorld f => mkSState (session s) (mkPState (f (world (env s))) (log (env s)))
  end.

Definition runPolls (ops : list (PollOp W)) (s : SState W) : SState W :=
  fold_left (fun s op => runPoll op s) ops s.

Fixpoint runYields (ops : list (PollOp W)) (s : SState W) : list Message :=
  match ops with
  | [] => []
  | op :: rest => pollYields op s ++ runYields rest (runPoll op s)
  end.

Lemma runCheckForNewMessages_spec (s : SState W) :
  let s' := (runCheckForNewMessages P s).2 in
  let ys := checkYields (page (session s)) (env s) in
  (runCheckForNewMessages P s).1 = Ok tt
  /\ processedMessages (session s') = seenAfter ys (processedMessages (session s))
  /\ published (log (env s')) = published (log (env s)) ++ forwarded ys (processedMessages (session s))
  /\ browser (session s') = browser (session s) /\ page (session s') = page (session s)
  /\ isRunning (session s') = isRunning (session s)
  /\ messageCheckInterval (session s') = messageCheckInterval (session s).
Proof.
  unfold runCheckForNewMessages, bind, getSession, lift, setProcessedMessages, setSession. simpl.
  destruct (checkForNewMessages_spec (page (session s)) (processedMessages (session s)) (env s))
    as (st' & Hr & Hp).
  rewrite Hr. simpl. auto 10.
Qed.

Lemma runPoll_spec (op : PollOp W) (s : SState W) :
  let s' := runPoll op s in
  processedMessages (session s') = seenAfter (pollYields op s) (processedMessages (session s))
  /\ published (log (env s'))
     = published (log (env s)) ++ forwarded (pollYields op s) (processedMessages (session s))
  /\ isRunning (session s') = isRunning (session s)
  /\ page (session s') = page (session s)
  /\ browser (session s') = browser (session s).
Proof.
  destruct op as [|msgText|f]; simpl.
  - unfold tick, bind, getSession. simpl.
    destruct (negb (isRunning (session s)) || negb (isSome (page (session s)))); simpl.
    + rewrite published_app. simpl. rewrite !app_nil_r. auto.
    + pose proof (runCheckForNewMessages_spec s) as (Hr & H1 & H2 & H3 & H4 & H5 & H6).
      unfold tryCatch.
      destruct (runCheckForNewMessages P s) as [[[]|e] s1]; simpl in *; [auto | discriminate].
  - unfold onConsoleMessage.
    destruct (includes msgText (lit "NEW_MESSAGE")); simpl.
    + pose proof (runCheckForNewMessages_spec s) as (Hr & H1 & H2 & H3 & H4 & H5 & H6). auto.
    + rewrite app_nil_r. auto.
  - rewrite app_nil_r. auto.
Qed.

Lemma runPolls_spec (ops : list (PollOp W)) (s : SState W) :
  let s' := runPolls ops s in
  processedMessages (session s') = seenAfter (runYields ops s) (processedMessages (session s))
  /\ published (log (env s'))
     = published (log (env s)) ++ forwarded (runYields ops s) (processedMessages (session s)).
Proof.
  revert s. induction ops as [|op ops IH]; intros s; simpl.
  - rewrite app_nil_r. auto.
  - destruct (runPoll_spec op s) as (H1 & H2 & _).
    destruct (IH (runPoll op s)) as (I1 & I2).
    unfold runPolls in *. rewrite I1, I2, H1, H2.
    rewrite seenAfter_app, forwarded_app, <- app_assoc. auto.
Qed.


Lemma filter_two {A} (f : A -> bool) (a b : A) (l : list A) :
  In a l -> In b l -> a <> b -> f a = true -> f b = true ->
  (2 <= length (List.filter f l))%nat.
Proof.
  intros Ha Hb Hab Hfa Hfb.
  assert (Hin : forall x, In x l -> f x = true -> In x (List.filter f l)).
  { intros x Hx Hfx. apply filter_In. auto. }
  pose proof (Hin a Ha Hfa) as Ia. pose proof (Hin b Hb Hfb) as Ib.
  destruct (List.filter f l) as [|x [|y r]]; simpl in *.
  - contradiction.
  - destruct Ia as [<-|[]]. destruct Ib as [<-|[]]. contradiction.
  - lia.
Qed.

(** C7. Dedup key collision boundary.  Two messages of the same sender whose
    texts agree on their first 100 code units have the same dedup key,
    whatever follows; hence in any run of poll operations of a session at
    most one message with that key is published, and never both of the
    two. *)
Theorem dedup_key_collision (m1 m2 : Message) (ops : list (PollOp W)) (s : SState W) :
  sender m1 = sender m2 ->
  substring0 100 (text m1) = substring0 100 (text m2) ->
  messageKey m1 = messageKey m2
  /\ (forall newPublished,
        published (log (env (runPolls ops s))) = published (log (env s)) ++ newPublished ->
        (length (List.filter (hasKey (messageKey m1)) newPublished) <= 1)%nat
        /\ (m1 <> m2 -> ~ (In m1 newPublished /\ In m2 newPublished))).
Proof.
  intros Hs Ht.
  assert (Hk : messageKey m1 = messageKey m2).
  { unfold messageKey. rewrite Hs, Ht. reflexivity. }
  split; [exact Hk|].
  intros newPublished Hpub.
  destruct (runPolls_spec ops s) as (_ & H2). simpl in H2.
  rewrite H2 in Hpub. apply app_inv_head in Hpub. subst newPublished.
  assert (Hle : (length (List.filter (hasKey (messageKey m1))
                   (forwarded (runYields ops s) (processedMessages (session s)))) <= 1)%nat).
  { rewrite forwarded_key_count.
    destruct (bool_decide _); [lia|]. destruct (existsb _ _); lia. }
  split; [exact Hle|].
  intros Hne [H1 H3].
  pose proof (filter_two (hasKey (messageKey m1)) m1 m2 _ H1 H3 Hne) as Htwo.
  unfold hasKey at 1 2 in Htwo.
  rewrite !bool_decide_eq_true_2 in Htwo by auto.
  specialize (Htwo eq_refl eq_refl). lia.
Qed.

(** C4. The extraction gate.  When the address of the session's page
    contains none of the markers 'messenger', 'message', '/profile/' and
    '/cabinet/', a poll tick (and any other check) yields nothing to the
    dedup loops, makes no call to the page (the environment is left as it
    was, whatever the document body holds), publishes nothing, and leaves
    the session, the processed keys among it, unchanged. *)
Theorem gate_skips_extraction (s : SState W) (p : Page) :
  page (session s) = Some p ->
  isOnMessengerPage (url W P p (world (env s))) = false ->
  pollYields PollTick s = []
  /\ (tick P s).1 = Ok tt
  /\ world (env (tick P s).2) = world (env s)
  /\ published (log (env (tick P s).2)) = published (log (env s))
  /\ session (tick P s).2 = session s
  /\ runCheckForNewMessages P s = (Ok tt, s).
Proof.
  intros Hp Hgate.
  assert (Hrun : runCheckForNewMessages P s = (Ok tt, s)).
  { unfold runCheckForNewMessages, bind, getSession, lift, checkForNewMessages. simpl.
    rewrite Hp. unfold bind, pUrl. simpl. rewrite Hgate. simpl.
    unfold setProcessedMessages, setSession. simpl.
    destruct s as [[b pg r t pm] e]; reflexivity. }
  assert (Hy : pollYields PollTick s = []).
  { unfold pollYields, checkYields. rewrite Hp, Hgate. simpl.
    destruct (negb (isRunning (session s)) || false); reflexivity. }
  split; [exact Hy|].
  unfold tick, bind, getSession, tryCatch. simpl. rewrite Hp. simpl.
  destruct (negb (isRunning (session s)) || false); simpl; rewrite ?Hrun; simpl;
    repeat split; auto.
  rewrite published_app. simpl. apply app_nil_r.
Qed.

End Polling.

(** ** Session procedures that leave the poll state alone

    [framed ks m]: [m] changes neither the processed keys, nor the running
    flag, nor the interval handle, and appends only events of the kinds
    [ks]. *)

Definition frame {W} (ks : list Kind) (s s' : SState W) : Prop :=
  processedMessages (session s') = processedMessages (session s)
  /\ isRunning (session s') = isRunning (session s)
  /\ messageCheckInterval (session s') = messageCheckInterval (session s)
  /\ extends (allowed ks) (env s) (env s').

#[local] Instance frame_preorder {W} ks : PreOrder (@frame W ks).
Proof.
  split.
  - intros s. unfold frame. repeat split; reflexivity.
  - intros a b c (A1 & A2 & A3 & A4) (B1 & B2 & B3 & B4). unfold frame.
    repeat split; try congruence. etransitivity; eassumption.
Qed.

Definition framed {W A} (ks : list Kind) (m : M (SState W) A) : Prop :=
  steps (frame ks) m.

Section Framed.

Context {W : Type} (P : Puppeteer W) (ks : list Kind).

Lemma framed_ret {A} (a : A) : framed (W:=W) ks (ret a).
Proof. apply steps_ret; apply _. Qed.

Lemma framed_throw {A} msg : framed (W:=W) (A:=A) ks (throw msg).
Proof. apply steps_throw; apply _. Qed.

Lemma framed_bind {A B} (m : M (SState W) A) (k : A -> M (SState W) B) :
  framed ks m -> (forall a, framed ks (k a)) -> framed ks (bind m k).
Proof. apply steps_bind; apply _. Qed.

Lemma framed_tryCatch {A} (m : M (SState W) A) h :
  framed ks m -> (forall e, framed ks (h e)) -> framed ks (tryCatch m h).
Proof. apply steps_tryCatch; apply _. Qed.

Lemma framed_attempt {A} (m : M (SState W) A) : framed ks m -> framed ks (attempt m).
Proof. apply steps_attempt. Qed.

Lemma framed_lift {A} (m : M (PState W) A) : quiet ks m -> framed ks (lift m).
Proof.
  intros Hm s. unfold lift. specialize (Hm (env s)).
  destruct (m (env s)) as [r e']. simpl in *. unfold frame; simpl. auto.
Qed.

Lemma framed_getSession : framed (W:=W) ks getSession.
Proof. intros s. simpl. reflexivity. Qed.

Lemma framed_setBrowser b : framed (W:=W) ks (setBrowser b).
Proof. intros s. unfold frame; simpl. repeat split; reflexivity. Qed.

Lemma framed_setPage p : framed (W:=W) ks (setPage p).
Proof. intros s. unfold frame; simpl. repeat split; reflexivity. Qed.

Lemma framed_thisPage method : framed (W:=W) ks (thisPage method).
Proof.
  intros s. unfold thisPage, bind, getSession. simpl.
  destruct (page (session s)); simpl; reflexivity.
Qed.

Lemma framed_thisBrowser method : framed (W:=W) ks (thisBrowser method).
Proof.
  intros s. unfold thisBrowser, bind, getSession. simpl.
  destruct (browser (session s)); simpl; reflexivity.
Qed.

Lemma framed_no_interference : framed (W:=W) ks (interfere (fun s => s)).
Proof. intros s. simpl. reflexivity. Qed.

End Framed.

Lemma framed_mono {W A} (ks ks' : list Kind) (m : M (SState W) A) :
  framed ks m -> (forall k, In k ks -> In k ks') -> framed ks' m.
Proof.
  intros Hm Hincl s. destruct (Hm s) as (H1 & H2 & H3 & evs & Hlog & Hall).
  unfold frame. repeat split; try assumption.
  exists evs. split; [exact Hlog|].
  eapply Forall_impl; [exact Hall|]. intros e He. apply Hincl, He.
Qed.

(** [unchanged m]: [m] leaves the fields of the service as they are. *)
Definition sameSession {W} (s s' : SState W) : Prop := session s' = session s.

#[local] Instance sameSession_preorder {W} : PreOrder (@sameSession W).
Proof. split; [intros s | intros a b c]; unfold sameSession; congruence. Qed.

Definition unchanged {W A} (m : M (SState W) A) : Prop := steps sameSession m.

Section Unchanged.

Context {W : Type}.

Lemma unchanged_ret {A} (a : A) : unchanged (W:=W) (ret a).
Proof. apply steps_ret; apply _. Qed.

Lemma unchanged_throw {A} msg : unchanged (W:=W) (A:=A) (throw msg).
Proof. apply steps_throw; apply _. Qed.

Lemma unchanged_bind {A B} (m : M (SState W) A) (k : A -> M (SState W) B) :
  unchanged m -> (forall a, unchanged (k a)) -> unchanged (bind m k).
Proof. apply steps_bind; apply _. Qed.

Lemma unchanged_tryCatch {A} (m : M (SState W) A) h :
  unchanged m -> (forall e, unchanged (h e)) -> unchanged (tryCatch m h).
Proof. apply steps_tryCatch; apply _. Qed.

Lemma unchanged_attempt {A} (m : M (SState W) A) : unchanged m -> unchanged (attempt m).
Proof. apply steps_attempt. Qed.

Lemma unchanged_lift {A} (m : M (PState W) A) : unchanged (lift m).
Proof. intros s. unfold lift. destruct (m (env s)) as [r e']. reflexivity. Qed.

Lemma unchanged_getSession : unchanged (W:=W) getSession.
Proof. intros s. reflexivity. Qed.

Lemma unchanged_thisPage method : unchanged (W:=W) (thisPage method).
Proof.
  intros s. unfold thisPage, bind, getSession. simpl.
  destruct (page (session s)); reflexivity.
Qed.

Lemma unchanged_thisBrowser method : unchanged (W:=W) (thisBrowser method).
Proof.
  intros s. unfold thisBrowser, bind, getSession. simpl.
  destruct (browser (session s)); reflexivity.
Qed.

Lemma unchanged_no_interference : unchanged (W:=W) (interfere (fun s => s)).
Proof. intros s. reflexivity. Qed.

End Unchanged.

Ltac unchanged_step :=
  first
    [ solve [auto]
    | apply unchanged_lift
    | apply unchanged_ret | apply unchanged_throw
    | apply unchanged_bind | apply unchanged_tryCatch | apply unchanged_attempt
    | apply unchanged_getSession | apply unchanged_thisPage | apply unchanged_thisBrowser
    | apply unchanged_no_interference
    | match goal with
      | |- unchanged (match ?x with _ => _ end) => destruct x
      end ].

Ltac unchanged_auto := intros; repeat (intros; unchanged_step).

Create HintDb framed.

Ltac framed_step :=
  first
    [ (eapply framed_mono; [solve [eauto with framed] | incl_kinds])
    | solve [auto]
    | (apply framed_lift; quiet_auto; fail)
    | apply framed_ret | apply framed_throw
    | apply framed_bind | apply framed_tryCatch | apply framed_attempt
    | apply framed_getSession | apply framed_setBrowser | apply framed_setPage
    | apply framed_thisPage | apply framed_thisBrowser | apply framed_no_interference
    | match goal with
      | |- framed _ (match ?x with _ => _ end) => destruct x
      end ].

Ltac framed_auto := intros; repeat (intros; framed_step).

Section FramedProcedures.

Context {W : Type} (P : Puppeteer W).

Lemma quiet_pLaunch : quiet [KLaunch] (pLaunch P).
Proof.
  intros st. unfold pLaunch. destruct (launch W P (world st)) as [[b|e] w']; simpl.
  - exists [EvLaunch b]. split; [reflexivity | constructor; [left; reflexivity | constructor]].
  - exists []. split; [reflexivity | constructor].
Qed.

Lemma quiet_pNewPage b : quiet [KNewPage] (pNewPage P b).
Proof.
  intros st. unfold pNewPage. destruct (newPage W P b (world st)) as [[p|e] w']; simpl.
  - exists [EvNewPage b p]. split; [reflexivity | constructor; [left; reflexivity | constructor]].
  - exists []. split; [reflexivity | constructor].
Qed.

Lemma quiet_pSetViewport ks p w h : quiet ks (pSetViewport P p w h).
Proof. intros st. exists []. split; [symmetry; apply app_nil_r | constructor]. Qed.

Lemma quiet_pBrowserClose b : quiet [KBrowserClose] (pBrowserClose P b).
Proof. apply quiet_call. intros ok. constructor; [left; reflexivity | constructor]. Qed.

#[local] Hint Resolve quiet_pLaunch quiet_pNewPage quiet_pSetViewport quiet_pBrowserClose : quiet.

Lemma framed_cleanup : framed [KBrowserClose; KLog] (cleanup P).
Proof. unfold cleanup. framed_auto. Qed.

Definition openKinds : list Kind := [KLaunch; KNewPage; KGoto; KSleep; KLog].

Lemma framed_startOpen : framed openKinds (startOpen P).
Proof. unfold startOpen, startLaunch, startLoad, openKinds. framed_auto. Qed.

Lemma framed_startAuthenticate phone password smsCode :
  framed loginKinds (startAuthenticate P phone password smsCode).
Proof. unfold startAuthenticate. framed_auto; unfold loginKinds; framed_auto. Qed.

Lemma framed_manualWait remaining iter :
  framed [KSleep; KLog] (manualWait P (fun _ s => s) remaining iter).
Proof. revert iter. induction remaining as [|r IH]; intros iter; simpl; framed_auto. Qed.

Lemma framed_graceWait remaining : framed [KSleep; KLog] (graceWait P remaining).
Proof. induction remaining as [|r IH]; simpl; framed_auto. Qed.

#[local] Hint Resolve framed_cleanup framed_startOpen framed_startAuthenticate
  framed_manualWait framed_graceWait : framed.

Lemma framed_startAwaitLogin phone password isAlreadyLoggedIn :
  framed [KGoto; KSleep; KLog; KClick OtherElement]
    (startAwaitLogin P (fun _ s => s) phone password isAlreadyLoggedIn).
Proof. unfold startAwaitLogin. framed_auto. Qed.

End FramedProcedures.

#[global] Hint Resolve quiet_pLaunch quiet_pNewPage quiet_pSetViewport quiet_pBrowserClose : quiet.
#[global] Hint Resolve framed_cleanup framed_startOpen framed_startAuthenticate
  framed_manualWait framed_graceWait framed_startAwaitLogin : framed.

(** ** start while running, stop *)

Section StartStop.

Context {W : Type} (P : Puppeteer W).

(** C3. A [startMonitoring] call on a running session only logs the
    warning 'Monitoring is already running': the session is left as it is
    and no browser is launched.  It returns [undefined], though, not a
    result object, and the controller, reading [result.error], answers
    [{success: false, error: <the TypeError's message>}]. *)
Theorem start_while_running (phone password smsCode : option jsstring) (s : SState W) :
  isRunning (session s) = true ->
  let warned :=
    mkSState (session s)
      (mkPState (world (env s))
         (log (env s) ++ [EvLog LWarn (lit "Monitoring is already running")])) in
  startMonitoring P phone password smsCode s = (Ok None, warned)
  /\ controllerStart P phone password smsCode s
     = (Ok (mkResponse false (Some Lit.readErrorOfUndefined) None None), warned).
Proof.
  intros Hrun warned.
  assert (Hs : startMonitoring P phone password smsCode s = (Ok None, warned)).
  { unfold startMonitoring, startMonitoringWith, bind, getSession. simpl.
    rewrite Hrun. reflexivity. }
  split; [exact Hs|].
  unfold controllerStart, tryCatch, bind. rewrite Hs. reflexivity.
Qed.

Lemma cleanup_spec (s : SState W) :
  (cleanup P s).1 = Ok tt
  /\ isRunning (session (cleanup P s).2) = isRunning (session s)
  /\ processedMessages (session (cleanup P s).2) = processedMessages (session s)
  /\ messageCheckInterval (session (cleanup P s).2) = messageCheckInterval (session s)
  /\ match browser (session s) with
     | None => (cleanup P s).2 = s
     | Some b =>
         let '(r, w') := browserClose W P b (world (env s)) in
         world (env (cleanup P s).2) = w'
         /\ match r with
            | Ok _ =>
                browser (session (cleanup P s).2) = None
                /\ page (session (cleanup P s).2) = None
                /\ log (env (cleanup P s).2) = log (env s) ++ [EvBrowserClose b true]
            | Throw _ =>
                browser (session (cleanup P s).2) = Some b
                /\ page (session (cleanup P s).2) = page (session s)
                /\ log (env (cleanup P s).2)
                   = log (env s) ++ [EvBrowserClose b false; EvLog LError (lit "Error during cleanup:")]
            end
     end.
Proof.
  unfold cleanup, tryCatch, bind, getSession. simpl.
  destruct s as [[b pg r t pm] [w l]]. simpl.
  destruct b as [b|]; simpl; [|auto 10].
  unfold lift, pBrowserClose, call. simpl.
  destruct (browserClose W P b w) as [[[]|e] w']; simpl.
  - auto 10.
  - rewrite <- app_assoc. auto 10.
Qed.

(** What [stopMonitoring] does before it calls [cleanup]. *)
Definition stopped (s : SState W) : SState W :=
  mkSState
    (mkSession (browser (session s)) (page (session s)) false None ∅)
    (mkPState (world (env s))
       (log (env s)
        ++ match messageCheckInterval (session s) with
           | Some t => [EvClearInterval t]
           | None => []
           end
        ++ [EvClearProcessed])).

Lemma stopMonitoring_unfold (s : SState W) : stopMonitoring P s = cleanup P (stopped s).
Proof.
  unfold stopMonitoring, stopped, bind, setIsRunning, setSession, getSession. simpl.
  destruct (messageCheckInterval (session s)) as [t|]; simpl.
  - unfold lift, emit, setMessageCheckInterval, setProcessedMessages, setSession. simpl.
    rewrite <- app_assoc. reflexivity.
  - unfold lift, emit, setMessageCheckInterval, setProcessedMessages, setSession. simpl.
    reflexivity.
Qed.

Lemma stopMonitoring_spec (s : SState W) :
  (stopMonitoring P s).1 = Ok tt
  /\ isRunning (session (stopMonitoring P s).2) = false
  /\ processedMessages (session (stopMonitoring P s).2) = ∅
  /\ messageCheckInterval (session (stopMonitoring P s).2) = None.
Proof.
  rewrite stopMonitoring_unfold.
  destruct (cleanup_spec (stopped s)) as (H1 & H2 & H3 & H4 & _).
  rewrite H2, H3, H4. auto.
Qed.

(** C6, as the code has it.  [stopMonitoring] never throws, in any state,
    and leaves the session not running, with no processed keys and no
    timer.  The browser handle is released exactly when none was held or
    [browser.close()] was fulfilled; then a second [stopMonitoring] leaves
    the status as the first left it, with [browserOpen = false].  When
    [browser.close()] is rejected, [cleanup] logs the error and keeps both
    handles: [browserOpen] stays [true], and the log of the stop ends with
    the failed close and 'Error during cleanup:'. *)
Theorem stop_idempotent (s : SState W) :
  let s1 := (stopMonitoring P s).2 in
  let s2 := (stopMonitoring P s1).2 in
  (stopMonitoring P s).1 = Ok tt
  /\ (stopMonitoring P s1).1 = Ok tt
  /\ statusIsRunning (getStatus P s1) = false
  /\ statusIsRunning (getStatus P s2) = false
  /\ (browser (session s1) = None <->
      browser (session s) = None
      \/ exists b, browser (session s) = Some b
                   /\ (browserClose W P b (world (env s))).1 = Ok tt)
  /\ (browser (session s1) = None ->
      getStatus P s2 = getStatus P s1 /\ browserOpen (getStatus P s1) = false)
  /\ processedMessages (session s1) = ∅
  /\ processedMessages (session s2) = ∅
  /\ processedMessagesCount (getStatus P s1) = 0%nat
  /\ processedMessagesCount (getStatus P s2) = 0%nat
  /\ messageCheckInterval (session s1) = None
  /\ (forall b e,
        browser (session s) = Some b ->
        (browserClose W P b (world (env s))).1 = Throw e ->
        browser (session s1) = Some b
        /\ page (session s1) = page (session s)
        /\ browserOpen (getStatus P s1) = true
        /\ log (env s1)
           = log (env s)
             ++ match messageCheckInterval (session s) with
                | Some t => [EvClearInterval t]
                | None => []
                end
             ++ [EvClearProcessed; EvBrowserClose b false;
                 EvLog LError (lit "Error during cleanup:")]).
Proof.
  intros s1 s2.
  destruct (stopMonitoring_spec s) as (A1 & A2 & A3 & A4).
  destruct (stopMonitoring_spec s1) as (B1 & B2 & B3 & B4).
  fold s1 in A2, A3, A4. fold s2 in B2, B3, B4.
  split; [exact A1|]. split; [exact B1|]. split; [exact A2|]. split; [exact B2|].
  split; [|split; [|split; [exact A3|split; [exact B3|split; [|split; [|split; [exact A4|]]]]]]].
  - split.
    + subst s1. rewrite stopMonitoring_unfold.
      destruct (cleanup_spec (stopped s)) as (_ & _ & _ & _ & H).
      simpl in H. destruct (browser (session s)) as [b|] eqn:Hb.
      * destruct (browserClose W P b (world (env s))) as [[[]|e] w'] eqn:Hc;
          destruct H as (_ & H1 & _); intros Hnone.
        -- right. exists b. rewrite Hc. auto.
        -- congruence.
      * auto.
    + subst s1. rewrite stopMonitoring_unfold.
      destruct (cleanup_spec (stopped s)) as (_ & _ & _ & _ & H).
      simpl in H. intros [Hnone | (b & Hb & Hok)].
      * rewrite Hnone in H. rewrite H. exact Hnone.
      * rewrite Hb in H.
        destruct (browserClose W P b (world (env s))) as [[[]|e] w'] eqn:Hc;
          simpl in Hok; [|discriminate].
        destruct H as (_ & H1 & _). exact H1.
  - intros H. split.
    + subst s2. rewrite stopMonitoring_unfold.
      destruct (cleanup_spec (stopped s1)) as (_ & _ & _ & _ & H').
      simpl in H'. rewrite H in H'. rewrite H'.
      unfold getStatus, stopped. simpl. rewrite H, A2, A3. reflexivity.
    + unfold getStatus. simpl. rewrite H. reflexivity.
  - unfold getStatus. simpl. rewrite A3. apply size_empty.
  - unfold getStatus. simpl. rewrite B3. apply size_empty.
  - intros b e Hb Hc. subst s1. rewrite stopMonitoring_unfold.
    destruct (cleanup_spec (stopped s)) as (_ & _ & _ & _ & H).
    simpl in H. rewrite Hb in H.
    destruct (browserClose W P b (world (env s))) as [[[]|e'] w'] eqn:Hclose;
      simpl in Hc; [discriminate|].
    destruct H as (_ & H1 & H2 & H3).
    unfold getStatus. simpl. rewrite H1, H2, H3. simpl.
    rewrite <- !app_assoc. auto.
Qed.

End StartStop.

(** ** start / stop cycles *)

(** The operations of a life of the service: start and stop commands,
    interval ticks, and changes of the page by the site and the operator. *)
Inductive CycleOp (W : Type) :=
| CStart (phone password smsCode : option jsstring)
| CStop
| CTick
| CWorld (f : W -> W).
Arguments CStart {W} phone password smsCode.
Arguments CStop {W}.
Arguments CTick {W}.
Arguments CWorld {W} f.

(** Everything [startMonitoring] can do to the outside: no
    [processedMessages.clear()], no [clearInterval]. *)
Definition startKinds : list Kind :=
  KBrowserClose :: KSetInterval :: KLaunch :: KNewPage :: pageKinds.

(** The number of [processedMessages.clear()] calls in a log. *)
Definition resets (evs : list Event) : nat :=
  length (List.filter (fun e => match e with EvClearProcessed => true | _ => false end) evs).

Lemma resets_app (a b : list Event) : resets (a ++ b) = (resets a + resets b)%nat.
Proof. unfold resets. rewrite List.filter_app, length_app. reflexivity. Qed.

Lemma resets_allowed (ks : list Kind) (evs : list Event) :
  ~ In KClearProcessed ks -> Forall (allowed ks) evs -> resets evs = 0%nat.
Proof.
  intros Hks Hall. induction Hall as [|e evs He _ IH]; [reflexivity|].
  unfold resets in *. simpl. destruct e; simpl; try exact IH.
  exfalso. apply Hks. exact He.
Qed.

Lemma not_clear_startKinds : ~ In KClearProcessed startKinds.
Proof. compute. intuition discriminate. Qed.

(** What a [startMonitoring] call may do to the poll state: keys are only
    added, a running session stays running, and keys are added only if the
    session ends up running. *)
Definition startRel {W} (s s' : SState W) : Prop :=
  processedMessages (session s) ⊆ processedMessages (session s')
  /\ (isRunning (session s) = true -> isRunning (session s') = true)
  /\ (isRunning (session s') = false ->
      processedMessages (session s') = processedMessages (session s))
  /\ extends (allowed startKinds) (env s) (env s').

#[local] Instance startRel_preorder {W} : PreOrder (@startRel W).
Proof.
  split.
  - intros s. unfold startRel. repeat split; auto. reflexivity.
  - intros a b c (A1 & A2 & A3 & A4) (B1 & B2 & B3 & B4). unfold startRel.
    repeat split.
    + etransitivity; eassumption.
    + auto.
    + intros Hc. rewrite (B3 Hc). apply A3.
      destruct (isRunning (session b)) eqn:Hb; [|reflexivity].
      rewrite (B2 eq_refl) in Hc. discriminate.
    + etransitivity; eassumption.
Qed.

Lemma frame_startRel {W} (ks : list Kind) (s s' : SState W) :
  (forall k, In k ks -> In k startKinds) -> frame ks s s' -> startRel s s'.
Proof.
  intros Hincl (H1 & H2 & H3 & evs & Hlog & Hall). unfold startRel. repeat split.
  - rewrite H1. reflexivity.
  - congruence.
  - intros _. exact H1.
  - exists evs. split; [exact Hlog|].
    eapply Forall_impl; [exact Hall|]. intros e He. apply Hincl, He.
Qed.

Section Cycles.

Context {W : Type} (P : Puppeteer W).

Import Dedup.

Lemma unchanged_startLoad : unchanged (startLoad P).
Proof. unfold startLoad. unchanged_auto. Qed.

Lemma unchanged_startAuthenticate phone password smsCode :
  unchanged (startAuthenticate P phone password smsCode).
Proof. unfold startAuthenticate. unchanged_auto. Qed.

Lemma unchanged_manualWait remaining iter :
  unchanged (manualWait P (fun _ s => s) remaining iter).
Proof. revert iter. induction remaining as [|r IH]; intros iter; simpl; unchanged_auto. Qed.

Lemma unchanged_graceWait remaining : unchanged (graceWait P remaining).
Proof. induction remaining as [|r IH]; simpl; unchanged_auto. Qed.

Lemma unchanged_startAwaitLogin phone password isAlreadyLoggedIn :
  unchanged (startAwaitLogin P (fun _ s => s) phone password isAlreadyLoggedIn).
Proof.
  pose proof unchanged_manualWait. pose proof unchanged_graceWait.
  unfold startAwaitLogin. unchanged_auto.
Qed.

(** When [startLaunch] succeeds the service holds a browser and a page. *)
Lemma startLaunch_ok (s s1 : SState W) :
  startLaunch P s = (Ok tt, s1) ->
  exists b p, browser (session s1) = Some b /\ page (session s1) = Some p.
Proof.
  unfold startLaunch, bind, lift, setBrowser, setPage, setSession, thisBrowser, thisPage,
    getSession. simpl.
  destruct (pLaunch P (env s)) as [[b|e] e1]; simpl; [|discriminate].
  destruct (pNewPage P b e1) as [[p|e] e2]; simpl; [|discriminate].
  intros H. inversion H; subst. simpl. eauto.
Qed.

Lemma startOpen_ok (s s1 : SState W) :
  startOpen P s = (Ok tt, s1) ->
  exists b p, browser (session s1) = Some b /\ page (session s1) = Some p.
Proof.
  unfold startOpen, bind. destruct (startLaunch P s) as [[[]|e] s0] eqn:Hl; [|discriminate].
  intros Hload. pose proof (unchanged_startLoad s0) as Hsame. rewrite Hload in Hsame.
  unfold sameSession in Hsame. simpl in Hsame. rewrite Hsame.
  eapply startLaunch_ok, Hl.
Qed.

Lemma setupMessageListener_total page : total (setupMessageListener P page).
Proof.
  unfold setupMessageListener. destruct page as [p|]; [|apply total_ret].
  apply total_tryCatch. intros e st. exists tt. reflexivity.
Qed.

(** [startArm]: the keys are untouched; on success the session runs. *)
Lemma startArm_spec (s : SState W) :
  processedMessages (session (startArm P s).2) = processedMessages (session s)
  /\ browser (session (startArm P s).2) = browser (session s)
  /\ page (session (startArm P s).2) = page (session s)
  /\ extends (allowed startKinds) (env s) (env (startArm P s).2)
  /\ match (startArm P s).1 with
     | Ok _ => isRunning (session (startArm P s).2) = true
     | Throw _ => session (startArm P s).2 = session s
     end.
Proof.
  unfold startArm, bind, getSession, lift. simpl.
  pose proof (quiet_navigateToMessenger P (page (session s)) (env s)) as Hnav.
  destruct (navigateToMessenger P (page (session s)) (env s)) as [[[]|e] e1]; simpl in *.
  - pose proof (quiet_setupMessageListener P (page (session s))
                  (mkPState (world e1) (log e1 ++ [EvSetInterval (length (log e1))]))) as Hl.
    unfold startMessageMonitoring, setIsRunning, setSession, bind, lift, emit,
      setMessageCheckInterval, setSession. simpl.
    destruct (setupMessageListener_total (page (session s))
                (mkPState (world e1) (log e1 ++ [EvSetInterval (length (log e1))]))) as (u & Hu).
    destruct (setupMessageListener P (page (session s)) _) as [r e2]; simpl in *.
    subst r.
    repeat split; try reflexivity.
    + assert (Hmid : extends (allowed startKinds) e1
                       (mkPState (world e1) (log e1 ++ [EvSetInterval (length (log e1))]))).
      { exists [EvSetInterval (length (log e1))]. split; [reflexivity|].
        constructor; [unfold allowed; in_kinds | constructor]. }
      etransitivity; [|etransitivity; [exact Hmid|]].
      * eapply extends_mono; [|exact Hnav]. incl_kinds.
      * eapply extends_mono; [|exact Hl]. incl_kinds.
  - repeat split; try reflexivity.
    eapply extends_mono; [|exact Hnav]. incl_kinds.
Qed.

(** A check only adds keys and publishes. *)
Definition checkRel (s s' : SState W) : Prop :=
  processedMessages (session s) ⊆ processedMessages (session s')
  /\ isRunning (session s') = isRunning (session s)
  /\ browser (session s') = browser (session s)
  /\ page (session s') = page (session s)
  /\ messageCheckInterval (session s') = messageCheckInterval (session s)
  /\ extends (allowed [KPublish; KLog]) (env s) (env s').

Lemma runCheckForNewMessages_rel (s : SState W) :
  checkRel s (runCheckForNewMessages P s).2.
Proof.
  destruct (runCheckForNewMessages_spec P s) as (_ & H1 & _ & H3 & H4 & H5 & H6).
  unfold checkRel. rewrite H1, H3, H4, H5, H6. repeat split; try reflexivity.
  - apply seenAfter_mono.
  - unfold runCheckForNewMessages, bind, getSession, lift, setProcessedMessages, setSession.
    simpl.
    pose proof (quiet_checkForNewMessages P (page (session s))
                  (processedMessages (session s)) (env s)) as Hq.
    destruct (checkForNewMessages P (page (session s)) (processedMessages (session s)) (env s))
      as [[pm|e] e1]; simpl in *; exact Hq.
Qed.

Lemma startFirstCheck_rel (s : SState W) : checkRel s (startFirstCheck P s).2.
Proof.
  unfold startFirstCheck, tryCatch.
  pose proof (runCheckForNewMessages_rel s) as Hr.
  destruct (runCheckForNewMessages_spec P s) as (Hok & _).
  destruct (runCheckForNewMessages P s) as [[[]|e] s1]; simpl in *; [exact Hr | discriminate].
Qed.

Lemma tick_rel (s : SState W) : checkRel s (tick P s).2.
Proof.
  unfold tick, bind, getSession. simpl.
  destruct (negb (isRunning (session s)) || negb (isSome (page (session s)))); simpl.
  - unfold checkRel. simpl. repeat split; try reflexivity.
    eexists. split; [reflexivity|]. constructor; [unfold allowed; in_kinds | constructor].
  - unfold tryCatch.
    pose proof (runCheckForNewMessages_rel s) as Hr.
    destruct (runCheckForNewMessages_spec P s) as (Hok & _).
    destruct (runCheckForNewMessages P s) as [[[]|e] s1]; simpl in *; [exact Hr | discriminate].
Qed.

Lemma framed_startAnnounce : framed [KPublish] (startAnnounce P).
Proof. unfold startAnnounce. framed_auto. Qed.

Lemma startRun_rel (s : SState W) : startRel s (startRun P s).2.
Proof.
  unfold startRun, bind.
  destruct (startArm_spec s) as (A1 & _ & _ & A4 & A5).
  destruct (startArm P s) as [[[]|e] s1]; simpl in *.
  - destruct (startFirstCheck_rel s1) as (B1 & B2 & _ & _ & _ & B6).
    assert (Hok : exists u, (startFirstCheck P s1).1 = Ok u).
    { unfold startFirstCheck, tryCatch.
      destruct (runCheckForNewMessages P s1) as [[[]|e] s2]; simpl; eauto. }
    destruct Hok as (u & Hu).
    destruct (startFirstCheck P s1) as [[u'|e] s2]; simpl in *; [|discriminate].
    destruct (framed_startAnnounce s2) as (C1 & C2 & _ & C4).
    unfold startRel. repeat split.
    + rewrite C1, <- A1. exact B1.
    + intros _. congruence.
    + intros Hf. congruence.
    + etransitivity; [exact A4|]. etransitivity.
      * eapply extends_mono; [|exact B6]. incl_kinds.
      * eapply extends_mono; [|exact C4]. incl_kinds.
  - unfold startRel. rewrite A5. repeat split; auto.
Qed.

End Cycles.

Section CycleTheorems.

Context {W : Type} (P : Puppeteer W).

Import Dedup.

Lemma framed_started {A} (ks : list Kind) (m : M (SState W) A) :
  (forall k, In k ks -> In k startKinds) -> framed ks m -> steps startRel m.
Proof. intros Hincl Hm s. eapply frame_startRel; [exact Hincl | apply Hm]. Qed.

Lemma startBody_rel phone password smsCode :
  steps startRel (startBody P (fun _ s => s) phone password smsCode).
Proof.
  unfold startBody. apply steps_bind; [apply _ | |].
  - eapply framed_started; [|apply framed_startOpen]. incl_kinds.
  - intros _. apply steps_bind; [apply _ | |].
    + eapply framed_started; [|apply framed_startAuthenticate]. incl_kinds.
    + intros [r|b]; [apply steps_ret; apply _|].
      apply steps_bind; [apply _ | |].
      * eapply framed_started; [|apply framed_startAwaitLogin]. incl_kinds.
      * intros _ s. apply startRun_rel.
Qed.

Lemma startMonitoring_rel phone password smsCode :
  steps startRel (startMonitoring P phone password smsCode).
Proof.
  unfold startMonitoring, startMonitoringWith.
  apply steps_bind; [apply _ | |].
  - eapply framed_started; [|apply (framed_getSession [])]. incl_kinds.
  - intros s0. destruct (isRunning s0).
    + eapply framed_started with (ks := [KLog]); [incl_kinds|]. framed_auto.
    + apply steps_tryCatch; [apply _ | |].
      * apply steps_bind; [apply _ | apply startBody_rel |].
        intros r. apply steps_ret; apply _.
      * intros e. eapply framed_started with (ks := [KBrowserClose; KLog]); [incl_kinds|].
        framed_auto.
Qed.

(** [startMonitoring] up to, and without, its first check (lines 23-211);
    [Some r] when it returns before. *)
Definition startUpToFirstCheck (phone password smsCode : option jsstring)
    : M (SState W) (option LoginResult) :=
  startOpen P;;
  let* auth := startAuthenticate P phone password smsCode in
  match auth with
  | inl r => ret (Some r)
  | inr isAlreadyLoggedIn =>
      startAwaitLogin P (fun _ s => s) phone password isAlreadyLoggedIn;;
      startArm P;;
      ret None
  end.

Lemma startBody_split phone password smsCode (s : SState W) :
  startBody P (fun _ s => s) phone password smsCode s
  = (let* o := startUpToFirstCheck phone password smsCode in
     match o with
     | Some r => ret r
     | None => startFirstCheck P;; startAnnounce P
     end) s.
Proof.
  unfold startBody, startUpToFirstCheck, startRun, bind.
  destruct (startOpen P s) as [[[]|e] s1]; [|reflexivity].
  destruct (startAuthenticate P phone password smsCode s1) as [[[r|b]|e] s2]; try reflexivity.
  destruct (startAwaitLogin P _ phone password b s2) as [[[]|e] s3]; [|reflexivity].
  destruct (startArm P s3) as [[[]|e] s4]; reflexivity.
Qed.

Lemma startUpToFirstCheck_keys phone password smsCode (s : SState W) :
  processedMessages (session (startUpToFirstCheck phone password smsCode s).2)
  = processedMessages (session s).
Proof.
  unfold startUpToFirstCheck, bind.
  destruct (framed_startOpen P s) as (A & _).
  destruct (startOpen P s) as [[[]|e] s1]; simpl in *; [|exact A].
  destruct (framed_startAuthenticate P phone password smsCode s1) as (B & _).
  destruct (startAuthenticate P phone password smsCode s1) as [[[r|b]|e] s2]; simpl in *;
    try congruence.
  destruct (framed_startAwaitLogin P phone password b s2) as (C & _).
  destruct (startAwaitLogin P _ phone password b s2) as [[[]|e] s3]; simpl in *;
    try congruence.
  destruct (startArm_spec P s3) as (D & _).
  destruct (startArm P s3) as [[[]|e] s4]; simpl in *; congruence.
Qed.

Definition runCycleOp (op : CycleOp W) (s : SState W) : SState W :=
  match op with
  | CStart phone password smsCode => (startMonitoring P phone password smsCode s).2
  | CStop => (stopMonitoring P s).2
  | CTick => (tick P s).2
  | CWorld f => mkSState (session s) (mkPState (f (world (env s))) (log (env s)))
  end.

Definition runCycle (ops : list (CycleOp W)) (s : SState W) : SState W :=
  fold_left (fun s op => runCycleOp op s) ops s.

Lemma runCycle_snoc (ops : list (CycleOp W)) (op : CycleOp W) (s : SState W) :
  runCycle (ops ++ [op]) s = runCycleOp op (runCycle ops s).
Proof. unfold runCycle. rewrite fold_left_app. reflexivity. Qed.

(** *** The processed keys over the life of the service *)

(** Everything that can happen to the service between its calls: start and
    stop commands, interval ticks, console messages of the page (the
    listener of lines 828-832, which does not test [isRunning]), and
    changes of the page by the site and the operator.  Each operation runs
    to its end before the next one begins. *)
Inductive LifeOp :=
| LStart (phone password smsCode : option jsstring)
| LStop
| LTick
| LConsole (msgText : jsstring)
| LWorld (f : W -> W).

Definition runLifeOp (op : LifeOp) (s : SState W) : SState W :=
  match op with
  | LStart phone password smsCode => (startMonitoring P phone password smsCode s).2
  | LStop => (stopMonitoring P s).2
  | LTick => (tick P s).2
  | LConsole msgText => (onConsoleMessage P msgText s).2
  | LWorld f => mkSState (session s) (mkPState (f (world (env s))) (log (env s)))
  end.

Definition runLife (ops : list LifeOp) (s : SState W) : SState W :=
  fold_left (fun s op => runLifeOp op s) ops s.

Definition isLStop (op : LifeOp) : bool :=
  match op with LStop => true | _ => false end.

Definition lifeStops (ops : list LifeOp) : nat := length (List.filter isLStop ops).

(** A console message finds the session running, or without a page. *)
Definition consoleLive (op : LifeOp) (s : SState W) : bool :=
  match op with
  | LConsole _ => isRunning (session s) || negb (isSome (page (session s)))
  | _ => true
  end.

(** No console message reaches a stopped session that still holds a
    page. *)
Fixpoint consoleWhileLive (ops : list LifeOp) (s : SState W) : bool :=
  match ops with
  | [] => true
  | op :: rest => consoleLive op s && consoleWhileLive rest (runLifeOp op s)
  end.

(** A session that is not running has no processed keys. *)
Definition keysEmptyUnlessRunning (s : SState W) : Prop :=
  isRunning (session s) = false -> processedMessages (session s) = ∅.

Lemma tick_idle (s : SState W) :
  isRunning (session s) = false ->
  processedMessages (session (tick P s).2) = processedMessages (session s).
Proof.
  intros Hr. unfold tick, bind, getSession. simpl. rewrite Hr. reflexivity.
Qed.

Lemma onConsoleMessage_rel (msgText : jsstring) (s : SState W) :
  checkRel s (onConsoleMessage P msgText s).2.
Proof.
  unfold onConsoleMessage. destruct (includes msgText (lit "NEW_MESSAGE")).
  - apply runCheckForNewMessages_rel.
  - unfold checkRel. simpl. repeat split; try reflexivity.
Qed.

Lemma onConsoleMessage_no_page (msgText : jsstring) (s : SState W) :
  page (session s) = None ->
  processedMessages (session (onConsoleMessage P msgText s).2)
  = processedMessages (session s).
Proof.
  intros Hp. unfold onConsoleMessage. destruct (includes msgText (lit "NEW_MESSAGE"));
    [|reflexivity].
  destruct (runCheckForNewMessages_spec P s) as (_ & H & _). simpl in H.
  rewrite H, Hp. reflexivity.
Qed.

Lemma runLifeOp_invariant (op : LifeOp) (s : SState W) :
  keysEmptyUnlessRunning s -> consoleLive op s = true ->
  keysEmptyUnlessRunning (runLifeOp op s).
Proof.
  unfold keysEmptyUnlessRunning. intros Inv Hlive.
  destruct op as [ph pw c| | |msgText|f]; simpl in *.
  - destruct (startMonitoring_rel ph pw c s) as (_ & H2 & H3 & _).
    intros Hf. rewrite (H3 Hf). apply Inv.
    destruct (isRunning (session s)) eqn:Hs; [|reflexivity].
    rewrite (H2 eq_refl) in Hf. discriminate.
  - intros _. apply stopMonitoring_spec.
  - destruct (tick_rel P s) as (_ & H2 & _). intros Hf. rewrite H2 in Hf.
    rewrite (tick_idle s Hf). apply Inv, Hf.
  - destruct (onConsoleMessage_rel msgText s) as (_ & H2 & _). intros Hf. rewrite H2 in Hf.
    rewrite Hf in Hlive. simpl in Hlive.
    destruct (page (session s)) as [p|] eqn:Hp; [discriminate|].
    rewrite (onConsoleMessage_no_page msgText s Hp). apply Inv, Hf.
  - exact Inv.
Qed.

Lemma runLife_invariant (ops : list LifeOp) (s : SState W) :
  keysEmptyUnlessRunning s -> consoleWhileLive ops s = true ->
  keysEmptyUnlessRunning (runLife ops s).
Proof.
  revert s. induction ops as [|op ops IH]; intros s Inv Hlive; simpl in *; [exact Inv|].
  apply andb_prop in Hlive as (H1 & H2).
  apply IH; [apply runLifeOp_invariant; assumption | exact H2].
Qed.

Lemma runLifeOp_resets (op : LifeOp) (s : SState W) :
  resets (log (env (runLifeOp op s)))
  = (resets (log (env s)) + if isLStop op then 1 else 0)%nat.
Proof.
  destruct op as [ph pw c| | |msgText|f]; simpl.
  - destruct (startMonitoring_rel ph pw c s) as (_ & _ & _ & evs & Hlog & Hall).
    rewrite Hlog, resets_app, (resets_allowed startKinds evs); auto.
    apply not_clear_startKinds.
  - rewrite stopMonitoring_unfold.
    destruct (framed_cleanup P (stopped s)) as (_ & _ & _ & evs & Hlog & Hall).
    rewrite Hlog, resets_app, (resets_allowed [KBrowserClose; KLog] evs); auto.
    + unfold stopped. simpl. rewrite !resets_app.
      destruct (messageCheckInterval (session s)); simpl; unfold resets; simpl; lia.
    + compute. intuition discriminate.
  - destruct (tick_rel P s) as (_ & _ & _ & _ & _ & evs & Hlog & Hall).
    rewrite Hlog, resets_app, (resets_allowed [KPublish; KLog] evs); auto.
    compute. intuition discriminate.
  - destruct (onConsoleMessage_rel msgText s) as (_ & _ & _ & _ & _ & evs & Hlog & Hall).
    rewrite Hlog, resets_app, (resets_allowed [KPublish; KLog] evs); auto.
    compute. intuition discriminate.
  - lia.
Qed.

Lemma runLife_resets (ops : list LifeOp) (s : SState W) :
  resets (log (env (runLife ops s))) = (resets (log (env s)) + lifeStops ops)%nat.
Proof.
  revert s. induction ops as [|op ops IH]; intros s; simpl.
  - unfold lifeStops. simpl. lia.
  - rewrite IH, runLifeOp_resets. unfold lifeStops. simpl.
    destruct (isLStop op); simpl; lia.
Qed.

Lemma runLifeOp_grows (op : LifeOp) (s : SState W) :
  isLStop op = false ->
  processedMessages (session s) ⊆ processedMessages (session (runLifeOp op s)).
Proof.
  intros Hop. destruct op as [ph pw c| | |msgText|f]; simpl; try discriminate.
  - apply startMonitoring_rel.
  - apply tick_rel.
  - apply onConsoleMessage_rel.
  - reflexivity.
Qed.

(** C5, as the code has it.  Over any sequence of start and stop commands,
    interval ticks, console messages and changes of the page, from process
    start, each operation running to its end before the next begins:
    [stopMonitoring] leaves the set of processed keys empty; no other
    operation removes a key; the set has been cleared exactly as many
    times as stop was called (start never clears it); and a start keeps
    the set it finds up to its first check.  When, besides, no console
    message reached a stopped session that still held a page, a session
    that is not running has no processed keys, so that the set is empty
    when a start begins and still empty at its first check. *)
Theorem keys_cleared_by_stop_only (w0 : W) (ops : list LifeOp) :
  let s0 := mkSState initialSession (mkPState w0 []) in
  let s := runLife ops s0 in
  processedMessages (session (runLifeOp LStop s)) = ∅
  /\ (forall op, isLStop op = false ->
        processedMessages (session s) ⊆ processedMessages (session (runLifeOp op s)))
  /\ resets (log (env s)) = lifeStops ops
  /\ (forall phone password smsCode,
        processedMessages (session (startUpToFirstCheck phone password smsCode s).2)
        = processedMessages (session s))
  /\ (consoleWhileLive ops s0 = true ->
      keysEmptyUnlessRunning s
      /\ forall phone password smsCode,
           isRunning (session s) = false ->
           processedMessages (session (startUpToFirstCheck phone password smsCode s).2) = ∅).
Proof.
  intros s0 s.
  split; [apply stopMonitoring_spec|].
  split; [intros op Hop; apply runLifeOp_grows, Hop|].
  split; [subst s s0; rewrite runLife_resets; reflexivity|].
  split; [intros ph pw c; apply startUpToFirstCheck_keys|].
  intros Hlive.
  assert (Inv : keysEmptyUnlessRunning s).
  { apply runLife_invariant; [intros _; reflexivity | exact Hlive]. }
  split; [exact Inv|].
  intros ph pw c Hf. rewrite startUpToFirstCheck_keys. apply Inv, Hf.
Qed.

End CycleTheorems.

Arguments LifeOp : clear implicits.
Arguments LStart {W} phone password smsCode.
Arguments LStop {W}.
Arguments LTick {W}.
Arguments LConsole {W} msgText.
Arguments LWorld {W} f.

(** *** A check that overlaps with other tasks *)

Section Overlap.

Context {W : Type} (P : Puppeteer W).

(** [checkForNewMessages] (lines 838-978) with [extractMessagesFromPage]
    (lines 980-1090) inlined, and with what other tasks do while each of its
    two [page.evaluate] calls is awaited: [during1] and [during2].  The
    loops read [this.processedMessages] when they run, after the await. *)
Definition runCheckInterleaved (during1 during2 : SState W -> SState W)
    : M (SState W) unit :=
  let* s := getSession in
  match page s with
  | None => lift (logWarn (lit "Page is not available for message check"))
  | Some p =>
      let* currentUrl := lift (pUrl P p) in
      if negb (isOnMessengerPage currentUrl) then ret tt
      else
        let* snapshot := lift (attempt (probe (evalChatSnapshot W P p))) in
        interfere during1;;
        match snapshot with
        | Throw _ => lift (logError (lit "Error checking for new messages:"))
        | Ok d =>
            (let* s1 := getSession in
             let* pm := lift (processMessages (Extract.foundInChats Extract.targetNames d)
                                              (processedMessages s1)) in
             setProcessedMessages pm);;
            let* s2 := getSession in
            match page s2 with
            | None => ret tt
            | Some p2 =>
                let* snapshot2 := lift (attempt (probe (evalPreviewSnapshot W P p2))) in
                interfere during2;;
                match snapshot2 with
                | Throw _ => ret tt
                | Ok d2 =>
                    let* s3 := getSession in
                    let* pm :=
                      lift (processMessages
                              (Extract.foundInPreviews Extract.targetNames d2)
                              (processedMessages s3)) in
                    setProcessedMessages pm
                end
            end
        end
  end.

(** With no other task active it is the check of the poll loop. *)
Lemma runCheckInterleaved_alone (s : SState W) :
  runCheckInterleaved (fun s => s) (fun s => s) s = runCheckForNewMessages P s.
Proof.
  unfold runCheckInterleaved, runCheckForNewMessages, checkForNewMessages,
    extractMessagesFromPage.
  destruct s as [[b pg r t pm] [w l]].
  unfold bind, getSession, lift, interfere, setProcessedMessages, setSession, attempt,
    probe, call, pUrl, logWarn, logError, emit. simpl.
  destruct pg as [p|]; simpl; [|reflexivity].
  destruct (isOnMessengerPage (url W P p w)); simpl; [|reflexivity].
  destruct (evalChatSnapshot W P p w) as [[d|e] w1]; simpl; [|reflexivity].
  rewrite processMessages_spec. simpl.
  destruct (evalPreviewSnapshot W P p w1) as [[d2|e2] w2]; simpl.
  - rewrite !processMessages_spec. simpl. reflexivity.
  - reflexivity.
Qed.

End Overlap.

(** ** A failed login during start *)

Section FailedLogin.

Context {W : Type} (P : Puppeteer W).

(** An event that closes a browser. *)
Definition isClose (e : Event) : Prop :=
  match e with EvBrowserClose _ _ => True | _ => False end.

Lemma allowed_not_close (ks : list Kind) (evs : list Event) :
  ~ In KBrowserClose ks -> Forall (allowed ks) evs -> Forall (fun e => ~ isClose e) evs.
Proof.
  intros Hks Hall. eapply Forall_impl; [exact Hall|].
  intros e He Hc. destruct e; simpl in Hc; contradiction.
Qed.

(** C2, as the code has it.  When [startMonitoring] is called with
    credentials on a session that is not running, the browser and the page
    open, and [login] returns a result with an error, [startMonitoring]
    logs the error and returns that result at once (line 66): the session
    stays not running, but no teardown runs; the browser and page handles
    stay in the service, no [browser.close()] is issued, and the status
    reports [browserOpen = true]. *)
Theorem failed_login_skips_teardown (phone password : jsstring) (smsCode : option jsstring)
    (s s1 : SState W) (r : LoginResult) (e2 : PState W) :
  isRunning (session s) = false ->
  truthy phone = true ->
  truthy password = true ->
  startOpen P s = (Ok tt, s1) ->
  login P (page (session s1)) phone password smsCode (env s1) = (Ok (Some r), e2) ->
  truthyOpt (error r) = true ->
  let s' :=
    mkSState (session s1)
      (mkPState (world e2)
         (log e2 ++ [EvLog LError (Lit.loginErrorPrefix ++ default [] (error r))])) in
  startMonitoring P (Some phone) (Some password) smsCode s = (Ok (Some r), s')
  /\ isRunning (session s') = false
  /\ (exists b p, browser (session s') = Some b /\ page (session s') = Some p)
  /\ browserOpen (getStatus P s') = true
  /\ (exists evs, log (env s') = log (env s) ++ evs /\ Forall (fun e => ~ isClose e) evs).
Proof.
  intros Hrun Hph Hpw Hopen Hlogin Herr s'.
  destruct (startOpen_ok P s s1 Hopen) as (b & p & Hb & Hp).
  pose proof (framed_startOpen P s) as Hfo. rewrite Hopen in Hfo.
  destruct Hfo as (_ & Hr1 & _ & Hext1). simpl in Hr1, Hext1.
  pose proof (quiet_login P (page (session s1)) phone password smsCode (env s1)) as Hql.
  rewrite Hlogin in Hql. simpl in Hql.
  repeat split.
  - unfold startMonitoring, startMonitoringWith, bind, getSession, tryCatch. simpl.
    rewrite Hrun. unfold startBody, bind. rewrite Hopen.
    unfold startAuthenticate. rewrite Hph, Hpw. simpl.
    unfold tryCatch, bind, getSession, lift. simpl. rewrite Hlogin. simpl.
    rewrite Herr. reflexivity.
  - simpl. congruence.
  - exists b, p. simpl. auto.
  - unfold getStatus. simpl. rewrite Hb. reflexivity.
  - destruct Hext1 as (ev1 & Hl1 & Ha1). destruct Hql as (ev2 & Hl2 & Ha2).
    exists (ev1 ++ ev2 ++ [EvLog LError (Lit.loginErrorPrefix ++ default [] (error r))]).
    split.
    + simpl. rewrite Hl2, Hl1, <- !app_assoc. reflexivity.
    + apply Forall_app. split; [|apply Forall_app; split].
      * eapply allowed_not_close; [|exact Ha1]. compute. intuition discriminate.
      * eapply allowed_not_close; [|exact Ha2]. compute. intuition discriminate.
      * constructor; [simpl; tauto | constructor].
Qed.

End FailedLogin.

(** ** The one-time code *)

(** The number of times a text was typed into the code input. *)
Definition codeTypings (evs : list Event) : nat :=
  length (List.filter
            (fun e => match e with EvType SmsCodeInput _ _ _ => true | _ => false end) evs).

Lemma codeTypings_app (a b : list Event) :
  codeTypings (a ++ b) = (codeTypings a + codeTypings b)%nat.
Proof. unfold codeTypings. rewrite List.filter_app, length_app. reflexivity. Qed.

Lemma codeTypings_allowed (ks : list Kind) (evs : list Event) :
  ~ In (KType SmsCodeInput) ks -> Forall (allowed ks) evs -> codeTypings evs = 0%nat.
Proof.
  intros Hks Hall. induction Hall as [|e evs He _ IH]; [reflexivity|].
  unfold codeTypings in *. simpl. destruct e as [| | | | | | | | | | f h t ok | | | |];
    simpl; try exact IH.
  destruct f; simpl; try exact IH. exfalso. apply Hks. exact He.
Qed.

(** [typesCode n m]: a run of [m] types into the code input at most [n]
    times. *)
Definition typesCode {W A} (n : nat) (m : M (PState W) A) : Prop :=
  forall st, exists evs, log (m st).2 = log st ++ evs /\ (codeTypings evs <= n)%nat.

Section CodeTypings.

Context {W : Type} (P : Puppeteer W).

Lemma typesCode_quiet {A} (ks : list Kind) (n : nat) (m : M (PState W) A) :
  quiet ks m -> ~ In (KType SmsCodeInput) ks -> typesCode n m.
Proof.
  intros Hq Hks st. destruct (Hq st) as (evs & Hlog & Hall).
  exists evs. split; [exact Hlog|]. rewrite (codeTypings_allowed ks evs Hks Hall). lia.
Qed.

Lemma typesCode_bind {A B} (a b : nat) (m : M (PState W) A) (k : A -> M (PState W) B) :
  typesCode a m -> (forall x, typesCode b (k x)) -> typesCode (a + b) (bind m k).
Proof.
  intros Hm Hk st. unfold bind. destruct (Hm st) as (e1 & Hl1 & Hc1).
  destruct (m st) as [[x|e] st1]; simpl in *.
  - destruct (Hk x st1) as (e2 & Hl2 & Hc2). exists (e1 ++ e2). split.
    + rewrite Hl2, Hl1, app_assoc. reflexivity.
    + rewrite codeTypings_app. lia.
  - exists e1. split; [exact Hl1 | lia].
Qed.

Lemma typesCode_tryCatch {A} (a b : nat) (m : M (PState W) A) h :
  typesCode a m -> (forall e, typesCode b (h e)) -> typesCode (a + b) (tryCatch m h).
Proof.
  intros Hm Hh st. unfold tryCatch. destruct (Hm st) as (e1 & Hl1 & Hc1).
  destruct (m st) as [[x|e] st1]; simpl in *.
  - exists e1. split; [exact Hl1 | lia].
  - destruct (Hh e st1) as (e2 & Hl2 & Hc2). exists (e1 ++ e2). split.
    + rewrite Hl2, Hl1, app_assoc. reflexivity.
    + rewrite codeTypings_app. lia.
Qed.

(** Kinds of events that do not type into the code input. *)
Definition noCodeKinds : list Kind :=
  [KGoto; KSleep; KLog; KScreenshot; KSetInputType;
   KClick PhoneInput; KClick PasswordInput; KClick SmsCodeInput; KClick OtherElement;
   KType PhoneInput; KType PasswordInput;
   KPress PhoneInput; KPress PasswordInput; KPress SmsCodeInput].

Lemma noCodeKinds_ok : ~ In (KType SmsCodeInput) noCodeKinds.
Proof. compute. intuition discriminate. Qed.

Ltac no_code := eapply typesCode_quiet; [|exact noCodeKinds_ok]; unfold noCodeKinds; quiet_auto.

Lemma typesCode_enterSmsCode p h code : typesCode 1 (enterSmsCode P p h code).
Proof.
  unfold enterSmsCode.
  apply (typesCode_bind 0 1); [no_code|]. intros _.
  apply (typesCode_bind 1 0); [|intros _; no_code].
  intros st. unfold hType, call. destruct (typeText W P h code (world st)) as [r w']. simpl.
  eexists. split; [reflexivity|]. unfold codeTypings. simpl. lia.
Qed.

Lemma typesCode_smsStep p smsCode : typesCode 1 (smsStep P p smsCode).
Proof.
  unfold smsStep.
  apply (typesCode_bind 0 1); [no_code|]. intros first.
  apply (typesCode_bind 0 1); [no_code|]. intros [h|]; [|no_code].
  apply (typesCode_bind 0 1); [no_code|]. intros placeholder.
  apply (typesCode_bind 0 1); [no_code|]. intros dataMarker.
  apply (typesCode_bind 0 1); [no_code|]. intros inputType.
  destruct (isSmsField placeholder dataMarker); [|no_code].
  destruct smsCode as [code|]; [|no_code].
  destruct (truthy code); [|no_code].
  apply (typesCode_bind 1 0); [apply typesCode_enterSmsCode | intros _; no_code].
Qed.

Lemma typesCode_loginEnter p phone password smsCode :
  typesCode 1 (loginEnter P p phone password smsCode).
Proof.
  unfold loginEnter.
  apply (typesCode_bind 0 1); [no_code|]. intros _.
  apply (typesCode_bind 0 1); [no_code|]. intros u.
  destruct (isAuthenticatedUrl u); [no_code|].
  apply (typesCode_bind 0 1); [no_code|]. intros _.
  apply (typesCode_bind 0 1); [no_code|]. intros [ph|]; [|no_code].
  apply (typesCode_bind 0 1); [no_code|]. intros _.
  apply (typesCode_bind 0 1); [no_code|]. intros [pw|]; [|no_code].
  apply (typesCode_bind 0 1); [no_code|]. intros _.
  apply typesCode_smsStep.
Qed.

(** [login] types into the code input at most once. *)
Lemma typesCode_login page phone password smsCode :
  typesCode 1 (login P page phone password smsCode).
Proof.
  unfold login. destruct page as [p|]; [|no_code].
  apply (typesCode_tryCatch 1 0); [|intros e; no_code].
  unfold loginBody.
  apply (typesCode_bind 1 0); [apply typesCode_loginEnter|].
  intros [r| |]; no_code.
Qed.

(** C8, as the code has it.  In a credential login that typed and
    submitted the supplied code: when the scan that follows finds no inline
    error text, the page is not detected as logged in, and the code input
    is then still found and its placeholder contains 'код' or 'code' or its
    data-marker contains 'code' or 'sms', [login] returns
    [{requiresSms: true, error: 'Неверный SMS-код. Введите код заново.'}];
    and the code was typed at most once in the attempt. *)
Theorem invalid_code_reported (p : Page) (phone password code : jsstring)
    (st st1 st2 st3 st4 st5 st6 : PState W) (errorText : option jsstring)
    (h : Handle) (placeholder dataMarker : jsstring) :
  loginEnter P p phone password (Some code) st = (Ok EnteredCodeSubmitted, st1) ->
  scanErrorText P p st1 = (Ok errorText, st2) ->
  truthyOpt errorText = false ->
  checkIfLoggedIn P (Some p) st2 = (Ok false, st3) ->
  pQuery P p smsSelectorWide (pSleep P p 1000 st3).2 = (Ok (Some h), st4) ->
  probe (evalPlaceholder W P p h) st4 = (Ok placeholder, st5) ->
  probe (evalAttribute W P p h (lit "data-marker")) st5 = (Ok dataMarker, st6) ->
  flaggedAsCode placeholder dataMarker = true ->
  login P (Some p) phone password (Some code) st
  = (Ok (Some (mkLoginResult true (Some Lit.invalidSmsCode))), st6)
  /\ exists evs, log st6 = log st ++ evs /\ (codeTypings evs <= 1)%nat.
Proof.
  intros Henter Hscan Herr Hlogged Hquery Hph Hdm Hflag.
  assert (Hlogin : login P (Some p) phone password (Some code) st
                   = (Ok (Some (mkLoginResult true (Some Lit.invalidSmsCode))), st6)).
  { unfold login, tryCatch, loginBody, bind. rewrite Henter.
    unfold loginRecheckCode, bind. rewrite Hscan, Herr, Hlogged.
    simpl in Hquery. simpl. rewrite Hquery, Hph, Hdm, Hflag. reflexivity. }
  split; [exact Hlogin|].
  pose proof (typesCode_login (Some p) phone password (Some code) st) as Hcount.
  rewrite Hlogin in Hcount. exact Hcount.
Qed.

End CodeTypings.

(** ** The secret input made visible *)







Section Secret.

Context {W : Type} (P : Puppeteer W) (p : Page) (password : jsstring).











End Secret.

(** ** The manual-login wait *)

Section ManualWait.

Context {W : Type} (P : Puppeteer W).

(** The loop counter and its guard: [waitedTime < maxWaitTime] holds
    exactly while iterations remain. *)
Lemma manualWait_guard (remaining : nat) :
  N.ltb (waitedTime maxWaitTime remaining) maxWaitTime = negb (Nat.eqb remaining 0).
Proof.
  unfold waitedTime, maxWaitTime, checkInterval. destruct remaining as [|r]; [reflexivity|].
  simpl negb. apply N.ltb_lt. lia.
Qed.

(** One iteration of the loop, from a state that holds a page. *)
Lemma manualWait_step (intf : nat -> SState W -> SState W)
    (remaining iter : nat) (s : SState W) (p : Page) :
  page (session s) = Some p ->
  manualWait P intf (S remaining) iter s
  = (let s1 := intf iter (mkSState (session s) (pSleep P p (checkInterval * 1000) (env s)).2) in
     let '(r, st2) := checkIfLoggedIn P (page (session s1)) (env s1) in
     match r with
     | Ok true => (Ok true, mkSState (session s1) st2)
     | _ => manualWait P intf remaining (S iter) (mkSState (session s1) st2)
     end).
Proof.
  intros Hp. destruct s as [[b pg r t pm] e]. simpl in Hp. subst pg.
  cbn [manualWait]. unfold thisPage, getSession, lift, interfere, attempt, bind.
  simpl.
  match goal with
  | |- context [checkIfLoggedIn P ?a ?b] =>
      destruct (checkIfLoggedIn P a b) as [[[]|] st2]; reflexivity
  end.
Qed.

Lemma manualWait_released (intf : nat -> SState W -> SState W)
    (remaining iter : nat) (s : SState W) :
  page (session s) = None ->
  manualWait P intf (S remaining) iter s = (Throw (nullRead "waitForTimeout"), s).
Proof.
  intros Hp. destruct s as [[b pg r t pm] e]. simpl in Hp. subst pg. reflexivity.
Qed.

(** C9, as the code has it.  The manual-wait loop consults no cancellation
    flag.  With [s1] the state in which an iteration's 5 s sleep ends
    (after whatever other tasks, a [stopMonitoring] among them, did
    meanwhile): if the page handle was released by then, the next
    iteration's [this.page.waitForTimeout] throws the TypeError of a read on
    [null], which ends the wait; otherwise, whenever [checkIfLoggedIn]
    answers [false], the loop goes on to its next iteration, whatever else
    changed. *)
Theorem manual_wait_cancellation (intf : nat -> SState W -> SState W)
    (remaining iter : nat) (s : SState W) (p : Page) :
  page (session s) = Some p ->
  let s1 := intf iter (mkSState (session s) (pSleep P p (checkInterval * 1000) (env s)).2) in
  (page (session s1) = None ->
   manualWait P intf (S (S remaining)) iter s = (Throw (nullRead "waitForTimeout"), s1))
  /\ (forall st2,
        checkIfLoggedIn P (page (session s1)) (env s1) = (Ok false, st2) ->
        manualWait P intf (S remaining) iter s
        = manualWait P intf remaining (S iter) (mkSState (session s1) st2)).
Proof.
  intros Hp s1. split.
  - intros Hnone. rewrite (manualWait_step intf (S remaining) iter s p Hp).
    fold s1. cbv zeta. rewrite Hnone. cbn [checkIfLoggedIn ret].
    rewrite manualWait_released by exact Hnone.
    destruct s1; reflexivity.
  - intros st2 Hcheck. rewrite (manualWait_step intf remaining iter s p Hp).
    fold s1. cbv zeta. rewrite Hcheck. reflexivity.
Qed.

End ManualWait.

(** * Concrete runs on the simulated site *)

Module Scenarios.

Import Sim.

(** A landing page that shows no login form and never logs in; its only
    link is the login link. *)
Definition idleSite (closeFails : bool) : Site :=
  mkSite (fun _ => lit "https://www.avito.ru/#login") (fun _ _ => None)
         (fun _ _ => []) (fun _ _ => []) (fun _ => []) (fun _ => (0, 0, 1)%nat)
         emptyChat emptyPreview closeFails.

(** A login form with a phone input (handle 1), a password input (handle
    2) and a code input (handle 3, placeholder 'код') that stays on the
    page; after the third typed text the address becomes [urlAfter]. *)
Definition codeSite (urlAfter : jsstring) : Site :=
  mkSite
    (fun typed => if Nat.ltb typed 3 then lit "https://www.avito.ru/#login" else urlAfter)
    (fun _ s =>
       if JS.eqb s (sel "input[data-marker='login-form/login/input']") then Some 1
       else if JS.eqb s (sel "input[data-marker='login-form/password/input']") then Some 2
       else if JS.eqb s smsSelectorWide || JS.eqb s smsSelector then Some 3
       else None)
    (fun _ h => if N.eqb h 3 then Lit.kod else [])
    (fun _ _ => []) (fun _ => []) (fun _ => (0, 0, 1)%nat)
    emptyChat emptyPreview false.

(** The landing page, showing the correspondent's name and a message. *)
Definition landingSite : Site :=
  mkSite (fun _ => lit "https://www.avito.ru/") (fun _ _ => None)
         (fun _ _ => []) (fun _ _ => []) (fun _ => []) (fun _ => (1, 1, 0)%nat)
         (mkChatSnapshot [] Lit.Rushan [Lit.Rushan ++ lit ": hello"] 0)
         emptyPreview false.

(** A session that holds browser 1 and page 1. *)
Definition holding (running : bool) : SState State :=
  mkSState (mkSession (Some 1) (Some 1) running (if running then Some 0%nat else None) ∅)
           (mkPState start []).

Definition phone : jsstring := lit "+7 (900) 000-00-00".
Definition secret : jsstring := lit "hunter2".
Definition code : jsstring := lit "1234".

Definition profileUrl : jsstring := lit "https://www.avito.ru/profile".

(** Two long texts that differ only at position 100. *)
Definition longA : Message :=
  mkMessage (IdMsg 0 0) (replicate 100 97 ++ lit "X") Lit.Rushan None 0.
Definition longB : Message :=
  mkMessage (IdMsg 1 0) (replicate 100 97 ++ lit "Y") Lit.Rushan None 0.

(** A [stopMonitoring] call that runs during the first sleep of the manual
    wait. *)
Definition stopDuringFirstSleep (site : Site) (iter : nat) (s : SState State)
    : SState State :=
  if Nat.eqb iter 0 then (stopMonitoring (puppeteer site) s).2 else s.

(** The number of 5 s sleeps of the manual wait in a log. *)
Definition waitSleeps (evs : list Event) : nat :=
  length (List.filter
            (fun e => match e with EvSleep _ ms => N.eqb ms 5000 | _ => false end) evs).

Ltac in_list := repeat (first [left; reflexivity | right]).

(** C2, on the simulated landing page without a login form: [login] fails
    ('Phone input field not found on login page'), [startMonitoring]
    returns the failure, and the browser it launched stays open. *)
Lemma failed_login_skips_teardown_witness :
  exists r s',
    startMonitoring (puppeteer (idleSite false)) (Some phone) (Some secret) None fresh
    = (Ok (Some r), s')
    /\ error r = Some (lit "Phone input field not found on login page")
    /\ browserOpen (getStatus (puppeteer (idleSite false)) s') = true.
Proof.
  edestruct (failed_login_skips_teardown (puppeteer (idleSite false)) phone secret None fresh)
    as (H1 & _ & _ & H4 & _);
    [ reflexivity | reflexivity | reflexivity
    | vm_compute; reflexivity | vm_compute; reflexivity | reflexivity | ].
  eexists. eexists. split; [exact H1|]. split; [reflexivity | exact H4].
Defined.

(** C3, on a running session: the controller answers with an error. *)
Lemma start_while_running_witness :
  (controllerStart (puppeteer (idleSite false)) None None None (holding true)).1
  = Ok (mkResponse false (Some Lit.readErrorOfUndefined) None None).
Proof.
  destruct (start_while_running (puppeteer (idleSite false)) None None None (holding true)
              eq_refl) as [_ H].
  rewrite H. reflexivity.
Defined.

(** C4, on the landing page: the document would yield a message, the tick
    publishes none. *)
Lemma gate_skips_extraction_witness :
  Extract.foundInChats Extract.targetNames (siteChat landingSite) <> []
  /\ Dedup.published (log (env (tick (puppeteer landingSite) (holding true)).2)) = [].
Proof.
  split; [vm_compute; discriminate|].
  destruct (gate_skips_extraction (puppeteer landingSite) (holding true) 1)
    as (_ & _ & _ & H & _); [reflexivity | vm_compute; reflexivity | exact H].
Defined.

(** C7, on two texts that differ at position 100 only. *)
Lemma dedup_key_collision_witness :
  text longA <> text longB /\ messageKey longA = messageKey longB.
Proof.
  split; [vm_compute; discriminate|].
  exact (proj1 (dedup_key_collision (puppeteer landingSite) longA longB [] (holding true)
                  eq_refl eq_refl)).
Defined.

(** C6 fails as stated: when [browser.close()] is rejected, [stopMonitoring]
    returns normally but keeps the handle, and the status reports
    [browserOpen = true]. *)
Lemma stop_keeps_browser_when_close_fails :
  (stopMonitoring (puppeteer (idleSite true)) (holding true)).1 = Ok tt
  /\ browserOpen (getStatus (puppeteer (idleSite true))
                    (stopMonitoring (puppeteer (idleSite true)) (holding true)).2) = true.
Proof. vm_compute. split; reflexivity. Qed.

(** C8 fails as stated: the code is typed and submitted, the address then
    shows the profile area while the code input is still on the page and
    still flagged; [login] returns success, not 'invalid code'. *)
Lemma code_input_present_but_login_succeeds :
  (login (puppeteer (codeSite profileUrl)) (Some 1) phone secret (Some code)
     (mkPState start [])).1 = Ok (Some loginOk)
  /\ In (EvType SmsCodeInput 3 code true)
        (log (login (puppeteer (codeSite profileUrl)) (Some 1) phone secret (Some code)
                (mkPState start [])).2)
  /\ (query State (puppeteer (codeSite profileUrl)) 1 smsSelectorWide
        (world (login (puppeteer (codeSite profileUrl)) (Some 1) phone secret (Some code)
                  (mkPState start [])).2)).1 = Ok (Some 3)
  /\ (evalPlaceholder State (puppeteer (codeSite profileUrl)) 1 3
        (world (login (puppeteer (codeSite profileUrl)) (Some 1) phone secret (Some code)
                  (mkPState start [])).2)).1 = Ok Lit.kod
  /\ flaggedAsCode Lit.kod [] = true.
Proof. vm_compute. repeat split; in_list. Qed.

(** C8 as amended, on the form whose code input stays and whose address
    stays the login address. *)
Lemma invalid_code_reported_witness :
  (login (puppeteer (codeSite loginUrl)) (Some 1) phone secret (Some code)
     (mkPState start [])).1
  = Ok (Some (mkLoginResult true (Some Lit.invalidSmsCode))).
Proof.
  edestruct (invalid_code_reported (puppeteer (codeSite loginUrl)) 1 phone secret code
               (mkPState start [])) as [H _];
    [ vm_compute; reflexivity | vm_compute; reflexivity | reflexivity
    | vm_compute; reflexivity | vm_compute; reflexivity | vm_compute; reflexivity
    | vm_compute; reflexivity | vm_compute; reflexivity | ].
  exact (f_equal fst H).
Defined.

(** C9 fails as stated: a [stopMonitoring] that runs during the first sleep
    of the manual wait, and whose [browser.close()] is rejected, does not
    end the wait: all 60 sleeps of 5 s are made and [startMonitoring] ends
    with the five-minute timeout error. *)
Lemma manual_wait_not_cancelled_by_stop :
  (startMonitoringWith (puppeteer (idleSite true)) (stopDuringFirstSleep (idleSite true))
     None None None fresh).1
  = Ok (Some (mkLoginResult false (Some Lit.authTimedOut)))
  /\ In EvClearProcessed
        (log (env (startMonitoringWith (puppeteer (idleSite true))
                     (stopDuringFirstSleep (idleSite true)) None None None fresh).2))
  /\ waitSleeps
        (log (env (startMonitoringWith (puppeteer (idleSite true))
                     (stopDuringFirstSleep (idleSite true)) None None None fresh).2))
     = 60%nat.
Proof. vm_compute. repeat split; in_list. Qed.

(** C9 as amended: the same [stopMonitoring] with a fulfilled
    [browser.close()] releases the page, and the next iteration throws. *)
Lemma manual_wait_cancellation_witness :
  (manualWait (puppeteer (idleSite false)) (stopDuringFirstSleep (idleSite false))
     2 0 (holding false)).1
  = Throw (nullRead "waitForTimeout").
Proof.
  destruct (manual_wait_cancellation (puppeteer (idleSite false))
              (stopDuringFirstSleep (idleSite false)) 0 0 (holding false) 1 eq_refl)
    as [H _].
  rewrite H; [reflexivity | vm_compute; reflexivity].
Defined.


End Scenarios.

(** * Further properties of the code *)

(** ** extractPhoneNumber *)

Module PhoneFacts.

Import Phone.

Definition digitCount (s : jsstring) : nat := length (List.filter isDigit s).

(** The digits a pattern demands. *)
Definition patternDigits (p : list atom) : nat :=
  length (List.filter
            (fun a => match a with ADigit => true | AChr c => isDigit c | _ => false end) p).

Lemma isDigit_not_space (c : N) : isDigit c = true -> isWhiteSpace c = false.
Proof.
  unfold isDigit, isWhiteSpace. intros H. apply andb_prop in H as [H1 H2].
  apply N.leb_le in H1. apply N.leb_le in H2.
  repeat match goal with
         | |- context [N.eqb c ?k] => rewrite (proj2 (N.eqb_neq c k)) by lia
         end.
  rewrite (proj2 (N.leb_gt c 13)) by lia.
  rewrite (proj2 (N.leb_gt 8192 c)) by lia.
  rewrite !andb_false_r. reflexivity.
Qed.

Lemma matchHere_digits (p : list atom) (s m : jsstring) :
  matchHere p s = Some m -> digitCount m = patternDigits p.
Proof.
  revert s m. induction p as [|a p IH]; intros s m H; simpl in H.
  - inversion H. reflexivity.
  - assert (Hconsume : forall ok (extra : bool),
               (forall c, ok c = true -> isDigit c = extra) ->
               match s with
               | c :: s' => if ok c then option_map (cons c) (matchHere p s') else None
               | [] => None
               end = Some m ->
               digitCount m = ((if extra then 1 else 0) + patternDigits p)%nat).
    { intros ok extra Hok Hm. destruct s as [|c s']; [discriminate|].
      destruct (ok c) eqn:Hc; [|discriminate].
      destruct (matchHere p s') as [m'|] eqn:Hm'; [|discriminate].
      inversion Hm; subst m. unfold digitCount. simpl. rewrite (Hok c Hc).
      pose proof (IH _ _ Hm') as Hd. unfold digitCount in Hd.
      destruct extra; simpl; rewrite Hd; reflexivity. }
    assert (Hoptional : forall ok,
               (forall c, ok c = true -> isDigit c = false) ->
               match
                 match s with
                 | c :: s' => if ok c then option_map (cons c) (matchHere p s') else None
                 | [] => None
                 end
               with
               | Some m0 => Some m0
               | None => matchHere p s
               end = Some m ->
               digitCount m = patternDigits p).
    { intros ok Hok Hm.
      destruct (match s with
                | c :: s' => if ok c then option_map (cons c) (matchHere p s') else None
                | [] => None
                end) as [m0|] eqn:Hc.
      - inversion Hm; subst m0. apply (Hconsume ok false Hok Hc).
      - apply (IH _ _ Hm). }
    unfold patternDigits. simpl. fold (patternDigits p).
    destruct a as [c0| | |].
    + rewrite (Hconsume (N.eqb c0) (isDigit c0)); [destruct (isDigit c0); reflexivity| |exact H].
      intros c Hc. apply N.eqb_eq in Hc. subst c. reflexivity.
    + rewrite (Hconsume isDigit true); [reflexivity| |exact H]. auto.
    + simpl. apply (Hoptional isWhiteSpace); [|exact H].
      intros c Hc. destruct (isDigit c) eqn:Hd; [|reflexivity].
      rewrite (isDigit_not_space c Hd) in Hc. discriminate.
    + simpl. apply (Hoptional (fun c => isWhiteSpace c || N.eqb c 45)); [|exact H].
      intros c Hc. destruct (isDigit c) eqn:Hd; [|reflexivity].
      rewrite (isDigit_not_space c Hd) in Hc. simpl in Hc. apply N.eqb_eq in Hc. subst c.
      discriminate.
Qed.

Lemma matchHere_head (c0 : N) (p : list atom) (s m : jsstring) :
  matchHere (AChr c0 :: p) s = Some m ->
  exists s' m', s = c0 :: s' /\ m = c0 :: m' /\ matchHere p s' = Some m'.
Proof.
  cbn [matchHere]. destruct s as [|c s']; [discriminate|].
  destruct (N.eqb c0 c) eqn:Hc; [|discriminate].
  destruct (matchHere p s') as [m'|] eqn:Hm'; [|discriminate].
  intros H. inversion H. apply N.eqb_eq in Hc. subst c.
  exists s', m'. auto.
Qed.

Lemma firstMatch_some (p : list atom) (s m : jsstring) :
  firstMatch p s = Some m -> exists s', matchHere p s' = Some m.
Proof.
  induction s as [|c s IH]; simpl.
  - destruct (matchHere p []) eqn:H; [|discriminate]. intros Hm. inversion Hm; subst. eauto.
  - destruct (matchHere p (c :: s)) eqn:H; [intros Hm; inversion Hm; subst; eauto | exact IH].
Qed.

Lemma stripWhiteSpace_digits (m : jsstring) :
  digitCount (stripWhiteSpace m) = digitCount m.
Proof.
  unfold stripWhiteSpace, digitCount. induction m as [|c m IH]; [reflexivity|].
  destruct (isWhiteSpace c) eqn:Hc.
  - rewrite filter_cons_False by congruence. simpl.
    destruct (isDigit c) eqn:Hd; [|exact IH].
    rewrite (isDigit_not_space c Hd) in Hc. discriminate.
  - rewrite filter_cons_True by exact Hc. simpl. destruct (isDigit c); simpl; rewrite IH;
      reflexivity.
Qed.

Lemma stripWhiteSpace_clean (m : jsstring) :
  Forall (fun c => isWhiteSpace c = false) (stripWhiteSpace m).
Proof.
  unfold stripWhiteSpace. apply List.Forall_forall. intros c Hc.
  apply list_elem_of_In in Hc. apply list_elem_of_filter in Hc. apply Hc.
Qed.

Lemma stripWhiteSpace_cons (c : N) (m : jsstring) :
  isWhiteSpace c = false -> stripWhiteSpace (c :: m) = c :: stripWhiteSpace m.
Proof. intros Hc. unfold stripWhiteSpace. apply filter_cons_True. exact Hc. Qed.

Lemma firstPattern_some (ps : list (list atom)) (text m : jsstring) :
  firstPattern ps text = Some m ->
  exists p raw, In p ps /\ firstMatch p text = Some raw /\ m = stripWhiteSpace raw.
Proof.
  induction ps as [|p ps IH]; simpl; [discriminate|].
  destruct (firstMatch p text) as [raw|] eqn:Hf.
  - intros H. injection H as <-. exists p, raw. auto.
  - intros H. destruct (IH H) as (p' & raw & Hin & Hf' & ->). exists p', raw. auto.
Qed.

(** X1.  Every phone number [extractPhoneNumber] returns holds exactly eleven
    digits and no white space, and begins with '+7' or with '8'. *)
Theorem extractPhoneNumber_shape (text m : jsstring) :
  extractPhoneNumber text = Some m ->
  digitCount m = 11%nat
  /\ Forall (fun c => isWhiteSpace c = false) m
  /\ (startsWith m (lit "+7") = true \/ startsWith m (lit "8") = true).
Proof.
  unfold extractPhoneNumber, phonePatterns.
  assert (Hcase : forall (p : list atom) (raw : jsstring) (plus : bool),
             firstMatch p text = Some raw ->
             patternDigits p = 11%nat ->
             (exists q, p = if plus then AChr 43 :: AChr 55 :: q else AChr 56 :: q) ->
             digitCount (stripWhiteSpace raw) = 11%nat
             /\ Forall (fun c => isWhiteSpace c = false) (stripWhiteSpace raw)
             /\ (startsWith (stripWhiteSpace raw) (lit "+7") = true
                 \/ startsWith (stripWhiteSpace raw) (lit "8") = true)).
  { intros p raw plus Hf Hd (q & Hq).
    destruct (firstMatch_some p text raw Hf) as (s' & Hm).
    split; [rewrite stripWhiteSpace_digits, (matchHere_digits p s' raw Hm); exact Hd|].
    split; [apply stripWhiteSpace_clean|].
    destruct plus; subst p.
    - destruct (matchHere_head _ _ _ _ Hm) as (s1 & m1 & _ & -> & Hm1).
      destruct (matchHere_head _ _ _ _ Hm1) as (s2 & m2 & _ & -> & _).
      left. rewrite !stripWhiteSpace_cons by reflexivity.
      destruct (stripWhiteSpace m2); reflexivity.
    - destruct (matchHere_head _ _ _ _ Hm) as (s1 & m1 & _ & -> & _).
      right. rewrite stripWhiteSpace_cons by reflexivity.
      destruct (stripWhiteSpace m1); reflexivity. }
  intros H. destruct (firstPattern_some _ _ _ H) as (p & raw & Hin & Hf & ->).
  simpl in Hin. destruct Hin as [<-|[<-|[<-|[<-|[]]]]].
  - apply (Hcase _ raw true Hf); [reflexivity | eauto].
  - apply (Hcase _ raw false Hf); [reflexivity | eauto].
  - apply (Hcase _ raw true Hf); [reflexivity | eauto].
  - apply (Hcase _ raw false Hf); [reflexivity | eauto].
Qed.

Lemma extractPhoneNumber_shape_witness :
  extractPhoneNumber (lit "tel. +7 (900) 123-45-67, after 18:00") = Some (lit "+7(900)123-45-67")
  /\ digitCount (lit "+7(900)123-45-67") = 11%nat.
Proof.
  split; [vm_compute; reflexivity|].
  apply (extractPhoneNumber_shape (lit "tel. +7 (900) 123-45-67, after 18:00")).
  vm_compute. reflexivity.
Defined.

End PhoneFacts.

(** ** trim *)

Module TrimFacts.

(** Nothing to strip at the front. *)
Definition startsClean (s : jsstring) : Prop :=
  match s with [] => True | c :: _ => isWhiteSpace c = false end.

Lemma trimStart_startsClean (s : jsstring) : startsClean (trimStart s).
Proof.
  induction s as [|c s IH]; simpl; [exact I|].
  destruct (isWhiteSpace c) eqn:Hc; [exact IH | exact Hc].
Qed.

Lemma trimStart_id (s : jsstring) : startsClean s -> trimStart s = s.
Proof. destruct s as [|c s]; simpl; [reflexivity|]. intros ->. reflexivity. Qed.

Lemma trimStart_suffix (s : jsstring) : exists pre, s = pre ++ trimStart s.
Proof.
  induction s as [|c s (pre & IH)]; simpl; [exists []; reflexivity|].
  destruct (isWhiteSpace c).
  - exists (c :: pre). simpl. rewrite <- IH. reflexivity.
  - exists []. reflexivity.
Qed.

Lemma trimEnd_prefix (s : jsstring) : exists post, s = trimEnd s ++ post.
Proof.
  unfold trimEnd. destruct (trimStart_suffix (rev s)) as (pre & H).
  exists (rev pre). rewrite <- rev_app_distr, <- H, rev_involutive. reflexivity.
Qed.

Lemma trimEnd_startsClean (s : jsstring) : startsClean s -> startsClean (trimEnd s).
Proof.
  intros H. destruct (trimEnd_prefix s) as (post & E).
  destruct (trimEnd s) as [|c t]; [exact I|].
  rewrite E in H. exact H.
Qed.

Lemma trimEnd_id (s : jsstring) : startsClean (rev s) -> trimEnd s = s.
Proof. intros H. unfold trimEnd. rewrite (trimStart_id _ H). apply rev_involutive. Qed.

Lemma trim_idempotent (s : jsstring) : trim (trim s) = trim s.
Proof.
  unfold trim at 1.
  rewrite (trimStart_id (trim s)).
  - apply trimEnd_id. unfold trim, trimEnd. rewrite rev_involutive.
    apply trimStart_startsClean.
  - unfold trim. apply trimEnd_startsClean, trimStart_startsClean.
Qed.

Lemma trimStart_length (s : jsstring) : (length (trimStart s) <= length s)%nat.
Proof.
  destruct (trimStart_suffix s) as (pre & H).
  rewrite H at 2. rewrite length_app. lia.
Qed.

Lemma trim_length (s : jsstring) : (length (trim s) <= length s)%nat.
Proof.
  unfold trim. destruct (trimEnd_prefix (trimStart s)) as (post & H).
  pose proof (trimStart_length s) as Hl. rewrite H in Hl. rewrite length_app in Hl. lia.
Qed.

End TrimFacts.

(** ** The in-page extraction functions *)

Module ExtractFacts.

Import Extract Dedup.

(** What both extraction functions guarantee of a message they yield. *)
Definition wellFormed (m : Message) : Prop :=
  nonEmpty m = true
  /\ trim (text m) = text m
  /\ In (sender m) [Lit.RushanNatfullin; Lit.Rushan; lit "Unknown"].

Lemma senderIn_cases (names : list jsstring) (t dflt : jsstring) :
  In (senderIn names t dflt) names \/ senderIn names t dflt = dflt.
Proof.
  unfold senderIn. destruct (find _ names) as [name|] eqn:Hf; [|auto].
  destruct (truthy name); [|auto]. left. apply (find_some _ _ Hf).
Qed.

Lemma senderIn_target (t dflt : jsstring) :
  In dflt [Lit.RushanNatfullin; Lit.Rushan; lit "Unknown"] ->
  In (senderIn targetNames t dflt) [Lit.RushanNatfullin; Lit.Rushan; lit "Unknown"].
Proof.
  intros Hd. destruct (senderIn_cases targetNames t dflt) as [H| ->]; [|exact Hd].
  simpl in H. simpl. tauto.
Qed.

Lemma trimmed_wellFormed (i : MsgId) (t s : jsstring) (ph : option jsstring) (ts : N) :
  truthy (trim t) = true ->
  In s [Lit.RushanNatfullin; Lit.Rushan; lit "Unknown"] ->
  wellFormed (mkMessage i (trim t) s ph ts).
Proof.
  intros Ht Hs. unfold wellFormed, nonEmpty. simpl text. simpl sender.
  rewrite TrimFacts.trim_idempotent. auto.
Qed.

Lemma chatMessages_wellFormed chat phone now index elements :
  Forall wellFormed (chatMessages targetNames chat phone now index elements).
Proof.
  revert index. induction elements as [|e rest IH]; intros index; simpl; [constructor|].
  apply Forall_app. split; [|apply IH].
  destruct (truthy (trim e)) eqn:Ht; [|constructor].
  constructor; [|constructor].
  apply trimmed_wellFormed; [exact Ht|]. apply senderIn_target. simpl. auto.
Qed.

Lemma containerMessages_wellFormed now index containers :
  Forall wellFormed (containerMessages targetNames now index containers).
Proof.
  revert index. induction containers as [|c rest IH]; intros index; simpl; [constructor|].
  apply Forall_app. split; [|apply IH].
  destruct (truthy (trim c)) eqn:Ht; simpl; [|constructor].
  destruct (Nat.ltb 0 (length (trim c))); [|constructor].
  constructor; [|constructor].
  apply trimmed_wellFormed; [exact Ht|]. apply senderIn_target. simpl. auto.
Qed.

Lemma foundInChats_wellFormed (d : ChatSnapshot) :
  Forall wellFormed (foundInChats targetNames d).
Proof.
  unfold foundInChats. apply Forall_app. split.
  - unfold structuredPass. apply List.Forall_forall. intros m Hm.
    apply in_flat_map in Hm as (chat & _ & Hm).
    destruct (_ || _); [|contradiction].
    pose proof (chatMessages_wellFormed chat
                  (orElse (Phone.extractPhoneNumber (chatText chat))
                          (Phone.extractPhoneNumber (chatHtml chat)))
                  (chatNow d) 0 (chatMessageElements chat)) as H.
    rewrite List.Forall_forall in H. apply H. exact Hm.
  - unfold heuristicPass. destruct (mentionsTarget _ _); [|constructor].
    apply containerMessages_wellFormed.
Qed.

(** A message of the second extraction function: taken from a chat-list
    preview, or from the open conversation. *)
Definition fromPreview (m : Message) : Prop :=
  (length (text m) < 500)%nat /\ In (sender m) targetNames.

Definition fromOpenConversation (m : Message) : Prop :=
  (length (text m) < 1000)%nat /\ sender m = Lit.Rushan
  /\ includes (text m) Lit.Napisat = false /\ includes (text m) Lit.soobschenie = false.

Lemma previewMessages_spec d pushed elements :
  Forall (fun m => wellFormed m /\ fromPreview m)
         (previewMessages targetNames d pushed elements).
Proof.
  revert pushed. induction elements as [|t rest IH]; intros pushed;
    cbn [previewMessages]; [constructor|].
  destruct (mentionsTarget targetNames t); cbn [andb]; [|apply IH].
  destruct (truthy (trim (lastLine t))) eqn:Ht; cbn [andb]; [|apply IH].
  destruct (Nat.ltb 0 (length (trim (lastLine t)))); cbn [andb]; [|apply IH].
  destruct (Nat.ltb (length (trim (lastLine t))) 500) eqn:Hl; cbn [andb]; [|apply IH].
  constructor; [|apply IH]. split.
  - apply trimmed_wellFormed; [exact Ht|]. apply senderIn_target. simpl. auto.
  - split; [apply Nat.ltb_lt in Hl; exact Hl|]. cbn [sender].
    destruct (senderIn_cases targetNames t Lit.Rushan) as [H| ->]; [exact H | simpl; auto].
Qed.

Lemma openMessages_spec d pushed containers :
  Forall (fun m => wellFormed m /\ fromOpenConversation m) (openMessages d pushed containers).
Proof.
  revert pushed. induction containers as [|c rest IH]; intros pushed;
    cbn [openMessages]; [constructor|].
  destruct (truthy (trim c)) eqn:Ht; cbn [andb]; [|apply IH].
  destruct (Nat.ltb 0 (length (trim c))); cbn [andb]; [|apply IH].
  destruct (Nat.ltb (length (trim c)) 1000) eqn:Hl; cbn [andb]; [|apply IH].
  destruct (includes (trim c) Lit.Napisat) eqn:H1; cbn [andb negb]; [apply IH|].
  destruct (includes (trim c) Lit.soobschenie) eqn:H2; cbn [andb negb]; [apply IH|].
  constructor; [|apply IH]. split.
  - apply trimmed_wellFormed; [exact Ht|]. simpl. auto.
  - unfold fromOpenConversation. cbn [text sender].
    apply Nat.ltb_lt in Hl. auto.
Qed.

Lemma foundInPreviews_wellFormed (d : PreviewSnapshot) :
  Forall wellFormed (foundInPreviews targetNames d).
Proof.
  unfold foundInPreviews. apply Forall_app. split.
  - eapply Forall_impl; [apply previewMessages_spec|]. simpl. tauto.
  - eapply Forall_impl; [apply openMessages_spec|]. simpl. tauto.
Qed.

(** X2.  The fallback extraction of [extractMessagesFromPage] yields only short
    texts: a message is a chat-list preview of fewer than 500 code units
    attributed to one of the two target names, or a text of the open
    conversation of fewer than 1000 code units that contains neither
    'Написать' nor 'сообщение' and is attributed to 'Рушан'. *)
Theorem fallback_extraction_bounds (d : PreviewSnapshot) (m : Message) :
  In m (foundInPreviews targetNames d) ->
  fromPreview m \/ fromOpenConversation m.
Proof.
  unfold foundInPreviews. intros H. apply in_app_or in H as [H|H].
  - left. pose proof (previewMessages_spec d 0 (concat (previewElements d))) as Hall.
    rewrite List.Forall_forall in Hall. apply (Hall m H).
  - right.
    pose proof (openMessages_spec d
                  (length (previewMessages targetNames d 0 (concat (previewElements d))))
                  (openContainers d)) as Hall.
    rewrite List.Forall_forall in Hall. apply (Hall m H).
Qed.

End ExtractFacts.

(** ** What a run of checks publishes and records *)

Module GateFacts.

Import Dedup.

Lemma forwarded_subset (ms : list Message) (pm : gset (list N)) (m : Message) :
  In m (forwarded ms pm) -> In m ms.
Proof.
  revert pm. induction ms as [|m0 ms IH]; intros pm; simpl; [auto|].
  destruct (negb (bool_decide (messageKey m0 ∈ pm)) && nonEmpty m0); simpl.
  - intros [->|H]; [auto | right; apply (IH _ H)].
  - intros H. right. apply (IH _ H).
Qed.

(** The set grows by one key per forwarded message. *)
Lemma seenAfter_size (ms : list Message) (pm : gset (list N)) :
  size (seenAfter ms pm) = (size pm + length (forwarded ms pm))%nat.
Proof.
  revert pm. induction ms as [|m ms IH]; intros pm; simpl; [lia|].
  destruct (bool_decide (messageKey m ∈ pm)) eqn:Hk; simpl; [apply IH|].
  destruct (nonEmpty m); simpl; [|apply IH].
  apply bool_decide_eq_false in Hk.
  rewrite IH, size_union by set_solver. rewrite size_singleton. lia.
Qed.

(** On messages that are never blank the gate is a dedup by key alone. *)
Lemma seenAfter_nonEmpty (ms : list Message) (pm : gset (list N)) :
  Forall (fun m => nonEmpty m = true) ms ->
  seenAfter ms pm = pm ∪ list_to_set (map messageKey ms).
Proof.
  intros Hall. revert pm. induction Hall as [|m ms Hm _ IH]; intros pm; simpl.
  - set_solver.
  - rewrite Hm, andb_true_r.
    destruct (bool_decide (messageKey m ∈ pm)) eqn:Hk; simpl; rewrite IH.
    + apply bool_decide_eq_true in Hk. set_solver.
    + set_solver.
Qed.

End GateFacts.

Section PollFacts.

Context {W : Type} (P : Puppeteer W).

Import Dedup ExtractFacts.

Lemma checkYields_wellFormed (page : option Page) (st : PState W) :
  Forall wellFormed (checkYields P page st).
Proof.
  unfold checkYields. destruct page as [p|]; [|constructor].
  destruct (negb _); [constructor|].
  destruct (evalChatSnapshot W P p (world st)) as [[d|e] w']; [|constructor].
  apply Forall_app. split; [apply foundInChats_wellFormed|].
  unfold previewYields.
  destruct (evalPreviewSnapshot W P p w').1 as [d2|e2]; [|constructor].
  apply foundInPreviews_wellFormed.
Qed.

Lemma pollYields_wellFormed (op : PollOp W) (s : SState W) :
  Forall wellFormed (pollYields P op s).
Proof.
  destruct op as [|msgText|f]; simpl.
  - destruct (_ || _); [constructor | apply checkYields_wellFormed].
  - destruct (includes _ _); [apply checkYields_wellFormed | constructor].
  - constructor.
Qed.

Lemma runYields_wellFormed (ops : list (PollOp W)) (s : SState W) :
  Forall wellFormed (runYields P ops s).
Proof.
  revert s. induction ops as [|op ops IH]; intros s; simpl; [constructor|].
  apply Forall_app. split; [apply pollYields_wellFormed | apply IH].
Qed.

(** X3.  Every message published by a run of interval ticks and
    console-triggered checks has a text that is non-empty and already
    trimmed, and is attributed to 'Рушан Натфуллин', 'Рушан' or
    'Unknown'. *)
Theorem published_messages_well_formed (ops : list (PollOp W)) (s : SState W) :
  exists newPublished,
    published (log (env (runPolls P ops s))) = published (log (env s)) ++ newPublished
    /\ Forall (fun m => text m <> []
                        /\ trim (text m) = text m
                        /\ In (sender m) [Lit.RushanNatfullin; Lit.Rushan; lit "Unknown"])
              newPublished.
Proof.
  destruct (runPolls_spec P ops s) as (_ & H).
  eexists. split; [exact H|].
  apply List.Forall_forall. intros m Hm.
  apply GateFacts.forwarded_subset in Hm.
  pose proof (runYields_wellFormed ops s) as Hall.
  rewrite List.Forall_forall in Hall.
  destruct (Hall m Hm) as (Hne & Ht & Hs).
  split; [|auto]. unfold nonEmpty in Hne. rewrite Ht in Hne.
  destruct (text m); [discriminate | discriminate].
Qed.

(** X4.  The test [message.text.trim()] of the dedup loops never rejects what
    the extraction functions yield: after a run of checks the processed set
    is the set it started from together with the key of every message the
    extraction passes yielded. *)
Theorem every_yielded_key_recorded (ops : list (PollOp W)) (s : SState W) :
  processedMessages (session (runPolls P ops s))
  = processedMessages (session s) ∪ list_to_set (map messageKey (runYields P ops s)).
Proof.
  destruct (runPolls_spec P ops s) as (H & _). rewrite H.
  apply GateFacts.seenAfter_nonEmpty.
  eapply Forall_impl; [apply runYields_wellFormed|].
  intros m Hm. apply Hm.
Qed.

(** X5.  Over a run of checks [processedMessagesCount] of the status grows by
    exactly the number of messages published. *)
Theorem status_count_tracks_published (ops : list (PollOp W)) (s : SState W) :
  let s' := runPolls P ops s in
  (processedMessagesCount (getStatus P s') + length (published (log (env s))))%nat
  = (processedMessagesCount (getStatus P s) + length (published (log (env s'))))%nat.
Proof.
  intros s'. destruct (runPolls_spec P ops s) as (H1 & H2). fold s' in H1, H2.
  unfold getStatus. simpl. rewrite H1, H2, GateFacts.seenAfter_size, length_app. lia.
Qed.

End PollFacts.

(** ** The life cycle of a session: flag, timer and handles *)

(** The [setInterval] and the [clearInterval] calls in a log. *)
Definition armed (evs : list Event) : nat :=
  length (List.filter (fun e => match e with EvSetInterval _ => true | _ => false end) evs).

Definition disarmed (evs : list Event) : nat :=
  length (List.filter (fun e => match e with EvClearInterval _ => true | _ => false end) evs).

Lemma armed_app (a b : list Event) : armed (a ++ b) = (armed a + armed b)%nat.
Proof. unfold armed. rewrite List.filter_app, length_app. reflexivity. Qed.

Lemma disarmed_app (a b : list Event) : disarmed (a ++ b) = (disarmed a + disarmed b)%nat.
Proof. unfold disarmed. rewrite List.filter_app, length_app. reflexivity. Qed.

Lemma armed_allowed (ks : list Kind) (evs : list Event) :
  ~ In KSetInterval ks -> Forall (allowed ks) evs -> armed evs = 0%nat.
Proof.
  intros Hks Hall. induction Hall as [|e evs He _ IH]; [reflexivity|].
  unfold armed in *. simpl. destruct e; simpl; try exact IH.
  exfalso. apply Hks. exact He.
Qed.

Lemma disarmed_allowed (ks : list Kind) (evs : list Event) :
  ~ In KClearInterval ks -> Forall (allowed ks) evs -> disarmed evs = 0%nat.
Proof.
  intros Hks Hall. induction Hall as [|e evs He _ IH]; [reflexivity|].
  unfold disarmed in *. simpl. destruct e; simpl; try exact IH.
  exfalso. apply Hks. exact He.
Qed.

(** Kinds that are no timer calls. *)
Definition timerFree (ks : list Kind) : Prop :=
  ~ In KSetInterval ks /\ ~ In KClearInterval ks.

Ltac timer_free := split; compute; intuition discriminate.

(** [calm s s']: the flag and the timer handle are as they were, and no
    timer was set or cleared in between. *)
Definition calm {W} (s s' : SState W) : Prop :=
  isRunning (session s') = isRunning (session s)
  /\ messageCheckInterval (session s') = messageCheckInterval (session s)
  /\ exists evs, log (env s') = log (env s) ++ evs
                 /\ armed evs = 0%nat /\ disarmed evs = 0%nat.

Lemma calm_refl {W} (s : SState W) : calm s s.
Proof.
  unfold calm. repeat split. exists []. rewrite app_nil_r. auto.
Qed.

Lemma calm_trans {W} (a b c : SState W) : calm a b -> calm b c -> calm a c.
Proof.
  intros (A1 & A2 & e1 & A3 & A4 & A5) (B1 & B2 & e2 & B3 & B4 & B5).
  unfold calm. repeat split; try congruence.
  exists (e1 ++ e2). rewrite B3, A3, app_assoc, armed_app, disarmed_app. split; [reflexivity|lia].
Qed.

Lemma frame_calm {W} (ks : list Kind) (s s' : SState W) :
  timerFree ks -> frame ks s s' -> calm s s'.
Proof.
  intros (Hs & Hc) (_ & H2 & H3 & evs & Hlog & Hall).
  unfold calm. repeat split; auto.
  exists evs. split; [exact Hlog|].
  split; [eapply armed_allowed | eapply disarmed_allowed]; eauto.
Qed.

Lemma armed_quiet (ks : list Kind) (evs : list Event) :
  Forall (allowed ks) evs -> timerFree ks -> armed evs = 0%nat.
Proof. intros Hall (Hs & _). eapply armed_allowed; eauto. Qed.

Lemma disarmed_quiet (ks : list Kind) (evs : list Event) :
  Forall (allowed ks) evs -> timerFree ks -> disarmed evs = 0%nat.
Proof. intros Hall (_ & Hc). eapply disarmed_allowed; eauto. Qed.

Section Lifecycle.

Context {W : Type} (P : Puppeteer W).

(** A result that the controller reports as a failure. *)
Definition failing (r : LoginResult) : bool := truthyOpt (error r) || requiresSms r.

Lemma truthy_messageOr (m d : jsstring) : truthy d = true -> truthy (messageOr m d) = true.
Proof. intros Hd. unfold messageOr. destruct (truthy m) eqn:Hm; assumption. Qed.

(** [startAuthenticate] returns early with failures only. *)
Lemma startAuthenticate_inl phone password smsCode (s s' : SState W) (r : LoginResult) :
  startAuthenticate P phone password smsCode s = (Ok (inl r), s') -> failing r = true.
Proof.
  unfold startAuthenticate, failing.
  assert (Hlook : forall s0 : SState W,
             (let* s1 := getSession in
              let* b := lift (checkIfLoggedIn P (page s1)) in ret (inr b)) s0
             = (Ok (inl r), s') -> truthyOpt (error r) || requiresSms r = true).
  { intros s0. unfold bind, getSession, lift. simpl.
    destruct (checkIfLoggedIn P (page (session s0)) (env s0)) as [[b|e] e1]; simpl;
      intros H; discriminate. }
  destruct phone as [ph|]; [|apply Hlook].
  destruct password as [pw|]; [|apply Hlook].
  destruct (truthy ph && truthy pw); [|apply Hlook].
  unfold tryCatch, bind, getSession, lift. simpl.
  assert (Hfin : forall (r0 : LoginResult) (s0 : SState W),
             truthyOpt (error r0) || requiresSms r0 = true ->
             (Ok (inl r0 : LoginResult + bool), s0) = (Ok (inl r), s') ->
             truthyOpt (error r) || requiresSms r = true).
  { intros r0 s0 Hr0 H. inversion H; subst. exact Hr0. }
  assert (Hmsg : forall m d, truthy d = true ->
             truthyOpt (error (mkLoginResult false (Some (messageOr m d))))
             || requiresSms (mkLoginResult false (Some (messageOr m d))) = true).
  { intros m d Hd. cbn [error requiresSms truthyOpt]. rewrite truthy_messageOr by exact Hd.
    reflexivity. }
  destruct (login P (page (session s)) ph pw smsCode (env s)) as [[[r0|]|e] e1]; simpl.
  - destruct (truthyOpt (error r0)) eqn:He; simpl.
    + apply Hfin. rewrite He. reflexivity.
    + destruct (requiresSms r0) eqn:Hr; simpl.
      * apply Hfin. rewrite Hr. apply orb_true_r.
      * destruct (checkIfLoggedIn P (page (session s)) e1) as [[[]|e] e2]; simpl.
        -- intros H. discriminate.
        -- apply Hfin. reflexivity.
        -- apply Hfin. apply Hmsg. reflexivity.
  - apply Hfin. apply Hmsg. reflexivity.
  - apply Hfin. apply Hmsg. reflexivity.
Qed.

(** What [startRun] does to the flag, the timer and the handles. *)
Lemma startRun_outcome (s : SState W) :
  exists evs,
    log (env (startRun P s).2) = log (env s) ++ evs
    /\ disarmed evs = 0%nat
    /\ match (startRun P s).1 with
       | Ok r =>
           r = loginOk
           /\ isRunning (session (startRun P s).2) = true
           /\ isSome (messageCheckInterval (session (startRun P s).2)) = true
           /\ browser (session (startRun P s).2) = browser (session s)
           /\ page (session (startRun P s).2) = page (session s)
           /\ armed evs = 1%nat
       | Throw _ =>
           session (startRun P s).2 = session s /\ armed evs = 0%nat
       end.
Proof.
  destruct (startRun P s) as [r s'] eqn:Hrun. simpl.
  unfold startRun, bind in Hrun.
  unfold startArm, bind, getSession, lift in Hrun. simpl in Hrun.
  pose proof (quiet_navigateToMessenger P (page (session s)) (env s)) as (e1 & Hl1 & Ha1).
  destruct (navigateToMessenger P (page (session s)) (env s)) as [[[]|e] st1]; simpl in *.
  - unfold startMessageMonitoring, setIsRunning, setSession, bind, lift, emit,
      setMessageCheckInterval, setSession in Hrun. simpl in Hrun.
    set (st2 := mkPState (world st1) (log st1 ++ [EvSetInterval (length (log st1))])) in *.
    pose proof (quiet_setupMessageListener P (page (session s)) st2) as (e3 & Hl3 & Ha3).
    destruct (setupMessageListener_total P (page (session s)) st2) as (u & Hu).
    destruct (setupMessageListener P (page (session s)) st2) as [r3 st3]; simpl in *.
    subst r3. destruct u.
    set (s3 := mkSState _ st3) in *.
    pose proof (startFirstCheck_rel P s3) as (_ & C2 & C3 & C4 & C5 & e4 & Hl4 & Ha4).
    assert (Hok : (startFirstCheck P s3).1 = Ok tt).
    { unfold startFirstCheck, tryCatch.
      destruct (runCheckForNewMessages P s3) as [[[]|e] s4]; reflexivity. }
    destruct (startFirstCheck P s3) as [r4 s4]; simpl in *. subst r4.
    unfold startAnnounce, bind, lift, now, addMessage, emit in Hrun. simpl in Hrun.
    destruct (dateNow W P (world (env s4))) as [t1 w1]; simpl in Hrun.
    destruct (dateNow W P w1) as [t2 w2]; simpl in Hrun.
    inversion Hrun; subst r s'; clear Hrun. simpl.
    eexists. split.
    { rewrite Hl4. subst s3. simpl. rewrite Hl3. subst st2. simpl. rewrite Hl1.
      rewrite <- !app_assoc. reflexivity. }
    rewrite !disarmed_app, !armed_app.
    rewrite (disarmed_quiet _ e1 Ha1) by timer_free.
    rewrite (disarmed_quiet _ e3 Ha3) by timer_free.
    rewrite (disarmed_quiet _ e4 Ha4) by timer_free.
    rewrite (armed_quiet _ e1 Ha1) by timer_free.
    rewrite (armed_quiet _ e3 Ha3) by timer_free.
    rewrite (armed_quiet _ e4 Ha4) by timer_free.
    split; [reflexivity|].
    rewrite C2, C3, C4, C5. subst s3. simpl. auto 10.
  - inversion Hrun; subst r s'; clear Hrun. simpl.
    exists e1. split; [exact Hl1|].
    rewrite (disarmed_quiet _ e1 Ha1) by timer_free.
    rewrite (armed_quiet _ e1 Ha1) by timer_free. auto.
Qed.

End Lifecycle.

Section LifecycleTheorems.

Context {W : Type} (P : Puppeteer W).

(** What a [startMonitoring] call that found the session not running leaves
    behind, as far as flag, timer and handles go. *)
Definition startedOrFailed (s s' : SState W) (res : LoginResult) : Prop :=
  exists evs,
    log (env s') = log (env s) ++ evs
    /\ disarmed evs = 0%nat
    /\ if isRunning (session s')
       then res = loginOk
            /\ isSome (browser (session s')) = true
            /\ isSome (page (session s')) = true
            /\ isSome (messageCheckInterval (session s')) = true
            /\ armed evs = 1%nat
       else failing res = true
            /\ messageCheckInterval (session s') = messageCheckInterval (session s)
            /\ armed evs = 0%nat.

Lemma calm_failed (s s' : SState W) (res : LoginResult) :
  isRunning (session s) = false -> calm s s' -> failing res = true ->
  startedOrFailed s s' res.
Proof.
  intros Hrun (C1 & C2 & evs & Hlog & Ha & Hd) Hres.
  exists evs. rewrite C1, Hrun. auto.
Qed.

Lemma startBody_outcome phone password smsCode (s : SState W) :
  isRunning (session s) = false ->
  match startBody P (fun _ s => s) phone password smsCode s with
  | (Ok res, s') => startedOrFailed s s' res
  | (Throw _, s') => calm s s'
  end.
Proof.
  intros Hrun. unfold startBody, bind.
  pose proof (framed_startOpen P s) as F1.
  destruct (startOpen P s) as [[[]|e] s1] eqn:Ho; simpl in F1.
  2: { eapply frame_calm; [|exact F1]. timer_free. }
  apply frame_calm in F1; [|timer_free].
  destruct (startOpen_ok P s s1 Ho) as (b & p & Hb & Hp).
  pose proof (framed_startAuthenticate P phone password smsCode s1) as F2.
  pose proof (unchanged_startAuthenticate P phone password smsCode s1) as U2.
  destruct (startAuthenticate P phone password smsCode s1) as [[[r|isIn]|e] s2] eqn:Ha;
    simpl in F2, U2; (apply frame_calm in F2; [|timer_free]);
    pose proof (calm_trans _ _ _ F1 F2) as F12.
  - apply calm_failed; [exact Hrun | exact F12 |].
    eapply startAuthenticate_inl, Ha.
  - pose proof (framed_startAwaitLogin P phone password isIn s2) as F3.
    pose proof (unchanged_startAwaitLogin P phone password isIn s2) as U3.
    destruct (startAwaitLogin P (fun _ s0 => s0) phone password isIn s2) as [[[]|e] s3];
      simpl in F3, U3; (apply frame_calm in F3; [|timer_free]);
      pose proof (calm_trans _ _ _ F12 F3) as F123.
    + destruct F123 as (C1 & C2 & e0 & Hl0 & Ha0 & Hd0).
      destruct (startRun_outcome P s3) as (evs & Hl & Hd & Hres).
      destruct (startRun P s3) as [[res|e] s4]; simpl in Hl, Hres.
      * destruct Hres as (-> & R1 & R2 & R3 & R4 & R5).
        exists (e0 ++ evs).
        rewrite Hl, Hl0, app_assoc, disarmed_app, armed_app, R1, R2, R3, R4.
        unfold sameSession in U2, U3. rewrite U3, U2, Hb, Hp.
        repeat split; auto; lia.
      * destruct Hres as (Hsame & Harm).
        unfold calm. rewrite Hsame. repeat split; auto.
        exists (e0 ++ evs). rewrite Hl, Hl0, app_assoc, disarmed_app, armed_app.
        split; [reflexivity | lia].
    + exact F123.
  - exact F12.
Qed.

(** The [catch] of [startMonitoring] (lines 236-240). *)
Lemma startCatch_outcome (msg : jsstring) (r : option LoginResult) (s : SState W) :
  let h := (lift (logError msg);; cleanup P;; ret r) in
  (h s).1 = Ok r /\ calm s (h s).2.
Proof.
  simpl. unfold bind, lift, logError, emit. simpl.
  set (s1 := mkSState (session s) _).
  pose proof (framed_cleanup P s1) as F.
  destruct (cleanup_spec P s1) as (Hok & _).
  destruct (cleanup P s1) as [[[]|e] s2]; simpl in *; [|discriminate].
  split; [reflexivity|].
  apply frame_calm in F; [|timer_free].
  eapply calm_trans; [|exact F].
  unfold calm. subst s1. simpl. repeat split.
  exists [EvLog LError msg]. auto.
Qed.

Lemma startMonitoring_outcome phone password smsCode (s : SState W) :
  isRunning (session s) = false ->
  exists res,
    (startMonitoring P phone password smsCode s).1 = Ok (Some res)
    /\ startedOrFailed s (startMonitoring P phone password smsCode s).2 res.
Proof.
  intros Hrun.
  destruct (startMonitoring P phone password smsCode s) as [r s'] eqn:Hs. simpl.
  unfold startMonitoring, startMonitoringWith in Hs.
  unfold bind at 1 in Hs. unfold getSession in Hs. simpl in Hs. rewrite Hrun in Hs.
  unfold tryCatch in Hs. unfold bind at 1 in Hs.
  pose proof (startBody_outcome phone password smsCode s Hrun) as Hb.
  destruct (startBody P (fun _ s0 => s0) phone password smsCode s) as [[res|e] s1].
  - simpl in Hs. inversion Hs; subst. exists res. auto.
  - match type of Hs with
    | ?h ?s0 = _ => destruct (startCatch_outcome (lit "Error starting monitoring:")
                                (Some (mkLoginResult false
                                         (Some (messageOr e Lit.startErrorDefault)))) s0)
                      as (H1 & H2)
    end.
    rewrite Hs in H1, H2. simpl in H1, H2. subst r.
    eexists. split; [reflexivity|].
    apply calm_failed; [exact Hrun | eapply calm_trans; eassumption |].
    unfold failing. cbn [error requiresSms truthyOpt].
    rewrite truthy_messageOr by reflexivity. reflexivity.
Qed.

(** X6.  The answer of the start command tells the state of the session: when
    the session was not running, the controller never rejects, and it
    answers [success: true] exactly when the session is running afterwards
    (and then a browser, a page and the poll timer are held); with
    [success: false] the answer carries an error text or [requiresSms]. *)
Theorem start_succeeds_iff_running phone password smsCode (s : SState W) :
  isRunning (session s) = false ->
  let s' := (controllerStart P phone password smsCode s).2 in
  exists resp,
    (controllerStart P phone password smsCode s).1 = Ok resp
    /\ (success resp = true <-> isRunning (session s') = true)
    /\ (success resp = true ->
        browserOpen (getStatus P s') = true
        /\ isSome (currentUrl (getStatus P s')) = true
        /\ isSome (messageCheckInterval (session s')) = true)
    /\ (success resp = false ->
        truthyOpt (responseError resp) = true \/ responseRequiresSms resp = Some true).
Proof.
  intros Hrun. simpl.
  destruct (startMonitoring_outcome phone password smsCode s Hrun) as (res & Hok & Hout).
  unfold controllerStart, tryCatch, bind.
  destruct (startMonitoring P phone password smsCode s) as [r s1]. simpl in Hok, Hout.
  subst r. destruct Hout as (evs & _ & _ & Hcase).
  destruct (isRunning (session s1)) eqn:Hr1.
  - destruct Hcase as (-> & Hb & Hp & Ht & _). simpl.
    eexists. split; [reflexivity|]. rewrite Hr1. unfold getStatus. simpl.
    destruct (page (session s1)); [|discriminate].
    repeat split; auto; discriminate.
  - destruct Hcase as (Hfail & _). unfold failing in Hfail.
    destruct (truthyOpt (error res)) eqn:He; simpl.
    + eexists. split; [reflexivity|]. rewrite Hr1. simpl.
      repeat split; try discriminate. intros _. left. exact He.
    + simpl in Hfail. rewrite Hfail. simpl.
      eexists. split; [reflexivity|]. rewrite Hr1. simpl.
      repeat split; try discriminate. intros _. right. reflexivity.
Qed.

(** The invariant of the service on flag, timer and handles. *)
Definition wired (s : SState W) : Prop :=
  isRunning (session s) = isSome (messageCheckInterval (session s))
  /\ (isRunning (session s) = true ->
      isSome (browser (session s)) = true /\ isSome (page (session s)) = true)
  /\ armed (log (env s))
     = (disarmed (log (env s)) + if isRunning (session s) then 1 else 0)%nat.

Lemma runCycleOp_wired (op : CycleOp W) (s : SState W) :
  wired s -> wired (runCycleOp P op s).
Proof.
  intros (I1 & I2 & I3). destruct op as [ph pw c| | |f]; simpl.
  - destruct (isRunning (session s)) eqn:Hrun.
    + unfold startMonitoring, startMonitoringWith, bind, getSession. simpl.
      rewrite Hrun. simpl. unfold wired. simpl.
      rewrite Hrun, armed_app, disarmed_app. simpl.
      split; [exact I1|]. split; [exact I2|].
      change (armed [EvLog LWarn (lit "Monitoring is already running")]) with 0%nat.
      change (disarmed [EvLog LWarn (lit "Monitoring is already running")]) with 0%nat.
      lia.
    + destruct (startMonitoring_outcome ph pw c s Hrun) as (res & _ & evs & Hl & Hd & Hcase).
      unfold wired. rewrite Hl, armed_app, disarmed_app, Hd, I3.
      destruct (isRunning (session (startMonitoring P ph pw c s).2)).
      * destruct Hcase as (_ & Hb & Hp & Ht & Ha). rewrite Ht, Ha. repeat split; auto; lia.
      * destruct Hcase as (_ & Ht & Ha). rewrite Ht, Ha, <- I1.
        repeat split; discriminate.
  - rewrite stopMonitoring_unfold.
    pose proof (framed_cleanup P (stopped s)) as F.
    apply frame_calm in F; [|timer_free].
    destruct F as (C1 & C2 & evs & Hl & Ha & Hd).
    unfold wired. rewrite C1, C2, Hl, armed_app, disarmed_app, Ha, Hd.
    unfold stopped. simpl. rewrite !armed_app, !disarmed_app, I3.
    repeat split; try discriminate.
    destruct (messageCheckInterval (session s)); simpl in I1; rewrite I1;
      unfold armed, disarmed; simpl; lia.
  - destruct (tick_rel P s) as (_ & C2 & C3 & C4 & C5 & evs & Hl & Hall).
    unfold wired. rewrite C2, C3, C4, C5, Hl, armed_app, disarmed_app.
    rewrite (armed_quiet _ _ Hall), (disarmed_quiet _ _ Hall) by timer_free.
    split; [exact I1|]. split; [exact I2|]. lia.
  - unfold wired. simpl. auto.
Qed.

Lemma runCycle_wired (ops : list (CycleOp W)) (s : SState W) :
  wired s -> wired (runCycle P ops s).
Proof.
  intros Inv. induction ops as [|op ops IH] using rev_ind; [exact Inv|].
  rewrite runCycle_snoc. apply runCycleOp_wired, IH.
Qed.

Lemma wired_initial (w0 : W) : wired (mkSState initialSession (mkPState w0 [])).
Proof. unfold wired. simpl. repeat split; discriminate. Qed.

(** X7.  At most one poll timer is live.  Over any sequence of start and stop
    commands, interval ticks and changes of the page, from process start:
    the timers set exceed the timers cleared by one while the session is
    running and by none while it is not, and the service holds a timer
    handle exactly when it is running. *)
Theorem one_timer_while_running (w0 : W) (ops : list (CycleOp W)) :
  let s := runCycle P ops (mkSState initialSession (mkPState w0 [])) in
  armed (log (env s)) = (disarmed (log (env s)) + if isRunning (session s) then 1 else 0)%nat
  /\ isSome (messageCheckInterval (session s)) = isRunning (session s).
Proof.
  intros s. destruct (runCycle_wired ops _ (wired_initial w0)) as (I1 & _ & I3).
  fold s in I1, I3. split; [exact I3 | symmetry; exact I1].
Qed.

(** X8.  A running session holds its browser and its page.  Over any sequence
    of start and stop commands, interval ticks and changes of the page,
    from process start: when the status reports [isRunning], it reports
    [browserOpen] and an address, and an interval tick does not take the
    'Monitoring stopped or page not available' exit. *)
Theorem running_session_holds_page (w0 : W) (ops : list (CycleOp W)) :
  let s := runCycle P ops (mkSState initialSession (mkPState w0 [])) in
  statusIsRunning (getStatus P s) = true ->
  browserOpen (getStatus P s) = true
  /\ isSome (currentUrl (getStatus P s)) = true
  /\ tick P s = tryCatch (runCheckForNewMessages P)
                  (fun _ => lift (logError (lit "Error checking messages:"))) s.
Proof.
  intros s Hrun. destruct (runCycle_wired ops _ (wired_initial w0)) as (_ & I2 & _).
  fold s in I2. unfold getStatus in *. simpl in *.
  destruct (I2 Hrun) as (Hb & Hp). split; [exact Hb|].
  split; [destruct (page (session s)); [reflexivity | discriminate]|].
  unfold tick, bind, getSession. simpl. rewrite Hrun, Hp. reflexivity.
Qed.

End LifecycleTheorems.

(** ** What [login] returns *)

(** [yields Q m]: whenever [m] returns, its value satisfies [Q]. *)
Definition yields {S A} (Q : A -> Prop) (m : M S A) : Prop :=
  forall s, match (m s).1 with Ok a => Q a | Throw _ => True end.

Lemma yields_ret {S A} (Q : A -> Prop) (a : A) : Q a -> yields (S:=S) Q (ret a).
Proof. intros Ha s. exact Ha. Qed.

Lemma yields_throw {S A} (Q : A -> Prop) msg : yields (S:=S) Q (throw msg).
Proof. intros s. exact I. Qed.

Lemma yields_bind {S A B} (Q : B -> Prop) (m : M S A) (k : A -> M S B) :
  (forall a, yields Q (k a)) -> yields Q (bind m k).
Proof.
  intros Hk s. unfold bind. destruct (m s) as [[a|e] s1]; [apply Hk | exact I].
Qed.

Lemma yields_tryCatch {S A} (Q : A -> Prop) (m : M S A) h :
  yields Q m -> (forall e, yields Q (h e)) -> yields Q (tryCatch m h).
Proof.
  intros Hm Hh s. unfold tryCatch. specialize (Hm s).
  destruct (m s) as [[a|e] s1]; [exact Hm | apply Hh].
Qed.

Ltac yields_step :=
  first
    [ apply yields_throw
    | apply yields_ret; first [discriminate | congruence | exact I]
    | apply yields_bind; intros
    | match goal with
      | |- yields _ (match ?x with _ => _ end) => destruct x
      | |- yields _ (if ?x then _ else _) => destruct x
      end ].

Ltac yields_auto := intros; repeat yields_step.

Section LoginResults.

Context {W : Type} (P : Puppeteer W).

(** No bare [return;]. *)
Definition entersDefined (e : Entered) : Prop := e <> EnteredReturn None.
Definition flowDefined (f : Flow (option LoginResult)) : Prop := f <> Return None.
Definition defined (r : option LoginResult) : Prop := r <> None.

Lemma noPasswordField_defined p : yields entersDefined (noPasswordField P p).
Proof. unfold noPasswordField, entersDefined. yields_auto. Qed.

Lemma smsStep_defined p smsCode : yields entersDefined (smsStep P p smsCode).
Proof. unfold smsStep, entersDefined. yields_auto. Qed.

Lemma loginRecheckCode_defined p : yields flowDefined (loginRecheckCode P p).
Proof. unfold loginRecheckCode, flowDefined. yields_auto. Qed.

Lemma loginVerify_defined p smsCode : yields defined (loginVerify P p smsCode).
Proof. unfold loginVerify, defined. yields_auto. Qed.

Lemma loginCatch_returns p message (st : PState W) :
  exists r, (loginCatch P p message st).1 = Ok (Some r).
Proof.
  unfold loginCatch, bind, logError, emit, tryCatch, pScreenshot, call. simpl.
  destruct (screenshot W P p _ (world st)) as [[[]|e] w']; simpl; eauto.
Qed.

(** The part of [loginEnter] after the address check (lines 320-550). *)
Definition loginForm (p : Page) (phone password : jsstring) (smsCode : option jsstring)
    : M (PState W) Entered :=
  awaitLoginForm P p;;
  let* phoneInput := locate P styledVisible p phoneSelectors None in
  match phoneInput with
  | None => throw (lit "Phone input field not found on login page")
  | Some ph =>
      enterPhone P p ph phone;;
      let* passwordInput := locate P sizedVisible p passwordSelectors None in
      match passwordInput with
      | None => noPasswordField P p
      | Some pw => enterPassword P p pw password;; smsStep P p smsCode
      end
  end.

(** The part of [loginBody] after [loginEnter] (lines 552-655). *)
Definition loginFinish (p : Page) (smsCode : option jsstring) (entered : Entered)
    : M (PState W) (option LoginResult) :=
  match entered with
  | EnteredReturn r => ret r
  | EnteredNoCodeStep => loginVerify P p smsCode
  | EnteredCodeSubmitted =>
      let* flow := loginRecheckCode P p in
      match flow with
      | Return r => ret r
      | Continue => loginVerify P p smsCode
      end
  end.

Lemma loginBody_unfold p phone password smsCode :
  loginBody P p phone password smsCode
  = (let* entered :=
       (openLoginForm P p;;
        let* currentUrl := pUrl P p in
        if isAuthenticatedUrl currentUrl then ret (EnteredReturn None)
        else loginForm p phone password smsCode) in
     loginFinish p smsCode entered).
Proof. reflexivity. Qed.

Lemma loginForm_defined p phone password smsCode :
  yields entersDefined (loginForm p phone password smsCode).
Proof.
  unfold loginForm.
  apply yields_bind; intros _. apply yields_bind; intros [ph|]; [|apply yields_throw].
  apply yields_bind; intros _. apply yields_bind; intros [pw|].
  - apply yields_bind; intros _. apply smsStep_defined.
  - apply noPasswordField_defined.
Qed.

Lemma loginFinish_defined p phone password smsCode :
  yields defined
    (let* entered := loginForm p phone password smsCode in loginFinish p smsCode entered).
Proof.
  intros s. unfold bind.
  pose proof (loginForm_defined p phone password smsCode s) as Hform.
  destruct (loginForm p phone password smsCode s) as [[en|e] s1]; cbn [fst] in *; [|exact I].
  destruct en as [r| |]; unfold loginFinish.
  - intros ->. apply Hform. reflexivity.
  - apply loginVerify_defined.
  - pose proof (loginRecheckCode_defined p s1) as Hf. unfold bind.
    destruct (loginRecheckCode P p s1) as [[[|r]|e] s2]; cbn [fst] in *; [| |exact I].
    + apply loginVerify_defined.
    + intros ->. apply Hf. reflexivity.
Qed.

Lemma caught_defined p (m : M (PState W) (option LoginResult)) (s : PState W) :
  yields defined m -> exists r, (tryCatch m (loginCatch P p) s).1 = Ok (Some r).
Proof.
  intros Hm. unfold tryCatch. specialize (Hm s).
  destruct (m s) as [[[r|]|e] s1]; cbn [fst] in *.
  - eauto.
  - exfalso. apply Hm. reflexivity.
  - apply loginCatch_returns.
Qed.

(** How [login] ends, by what the opening of the form shows. *)
Lemma login_cases p phone password smsCode (st : PState W) :
  match openLoginForm P p st with
  | (Ok _, st1) =>
      if isAuthenticatedUrl (url W P p (world st1))
      then (login P (Some p) phone password smsCode st).1 = Ok None
      else exists r, (login P (Some p) phone password smsCode st).1 = Ok (Some r)
  | (Throw _, _) => exists r, (login P (Some p) phone password smsCode st).1 = Ok (Some r)
  end.
Proof.
  unfold login. rewrite loginBody_unfold.
  destruct (openLoginForm P p st) as [[[]|e] st1] eqn:Ho.
  - destruct (isAuthenticatedUrl (url W P p (world st1))) eqn:Hu.
    + unfold tryCatch, bind, pUrl. rewrite Ho. cbn [fst snd]. rewrite Hu. reflexivity.
    + assert (Heq : forall k : Entered -> M (PState W) (option LoginResult),
                 tryCatch
                   (let* entered :=
                      (openLoginForm P p;;
                       let* currentUrl := pUrl P p in
                       if isAuthenticatedUrl currentUrl then ret (EnteredReturn None)
                       else loginForm p phone password smsCode) in
                    k entered) (loginCatch P p) st
                 = tryCatch (let* entered := loginForm p phone password smsCode in k entered)
                     (loginCatch P p) st1).
      { intros k. unfold tryCatch, bind, pUrl. rewrite Ho. cbn [fst snd]. rewrite Hu.
        reflexivity. }
      rewrite Heq. apply caught_defined, loginFinish_defined.
  - unfold tryCatch, bind. rewrite Ho. apply loginCatch_returns.
Qed.

(** X9.  [login] on a page never rejects, and it returns [undefined] in one
    case only: the login form was opened (the navigation, or its retry,
    was fulfilled) and the address then read contains '/profile',
    '/cabinet' or '/messenger'.  In every other case it returns a result
    object. *)
Theorem login_undefined_iff_already_authenticated (p : Page) (phone password : jsstring)
    (smsCode : option jsstring) (st : PState W) :
  (exists r, (login P (Some p) phone password smsCode st).1 = Ok r)
  /\ ((login P (Some p) phone password smsCode st).1 = Ok None <->
      (openLoginForm P p st).1 = Ok tt
      /\ isAuthenticatedUrl (url W P p (world (openLoginForm P p st).2)) = true).
Proof.
  pose proof (login_cases p phone password smsCode st) as H.
  destruct (openLoginForm P p st) as [[[]|e] st1]; cbn [fst snd].
  - destruct (isAuthenticatedUrl (url W P p (world st1))).
    + rewrite H. split; [eauto | tauto].
    + destruct H as (r & ->). split; [eauto|].
      split; [discriminate | intros [_ Hf]; discriminate].
  - destruct H as (r & ->). split; [eauto|].
    split; [discriminate | intros [Hf _]; discriminate].
Qed.

End LoginResults.

(** X10.  With credentials, a session that the site already shows as
    authenticated is not started.  When the browser was opened, [login]
    could open the login form, and the address then read contains
    '/profile', '/cabinet' or '/messenger', [login] returns [undefined];
    [startMonitoring], reading [loginResult.error], catches the TypeError and
    returns its message as the error.  The session is left not running and
    the browser that was launched stays open; the controller answers
    [success: false]. *)
Theorem credentials_start_when_already_authenticated
    {W : Type} (P : Puppeteer W) (phone password : jsstring) (smsCode : option jsstring)
    (s s1 : SState W) (p : Page) :
  isRunning (session s) = false ->
  truthy phone = true -> truthy password = true ->
  startOpen P s = (Ok tt, s1) ->
  page (session s1) = Some p ->
  (openLoginForm P p (env s1)).1 = Ok tt ->
  isAuthenticatedUrl (url W P p (world (openLoginForm P p (env s1)).2)) = true ->
  let r := startMonitoring P (Some phone) (Some password) smsCode s in
  r.1 = Ok (Some (mkLoginResult false (Some Lit.readErrorOfUndefined)))
  /\ isRunning (session r.2) = false
  /\ browser (session r.2) = browser (session s1)
  /\ isSome (browser (session r.2)) = true
  /\ (controllerStart P (Some phone) (Some password) smsCode s).1
     = Ok (mkResponse false (Some Lit.readErrorOfUndefined) (Some false) None).
Proof.
  intros Hrun Hph Hpw Ho Hp Hform Hurl.
  assert (HL : (login P (Some p) phone password smsCode (env s1)).1 = Ok None).
  { pose proof (login_cases P p phone password smsCode (env s1)) as H.
    destruct (openLoginForm P p (env s1)) as [[[]|e] st1]; cbn [fst snd] in *;
      [|discriminate].
    rewrite Hurl in H. exact H. }
  assert (Hs1 : isRunning (session s1) = false).
  { pose proof (framed_startOpen P s) as (_ & H & _). rewrite Ho in H. simpl in H. congruence. }
  destruct (startOpen_ok P s s1 Ho) as (b & p' & Hb & _).
  assert (Hstart : exists s2,
             startMonitoring P (Some phone) (Some password) smsCode s
             = (Ok (Some (mkLoginResult false (Some Lit.readErrorOfUndefined))), s2)
             /\ session s2 = session s1).
  { unfold startMonitoring, startMonitoringWith.
    unfold bind at 1. unfold getSession. cbn [fst snd]. rewrite Hrun.
    unfold tryCatch, startBody. unfold bind at 1 2 3. rewrite Ho.
    unfold startAuthenticate. rewrite Hph, Hpw. cbn [andb].
    unfold tryCatch, bind, getSession, lift. cbn [fst snd]. rewrite Hp.
    destruct (login P (Some p) phone password smsCode (env s1)) as [rl e1].
    cbn [fst] in HL. subst rl. simpl. eexists. split; reflexivity. }
  destruct Hstart as (s2 & Hstart & Hsame).
  cbn zeta. rewrite Hstart. cbn [fst snd]. rewrite Hsame, Hb, Hs1.
  repeat split.
  unfold controllerStart, tryCatch, bind. rewrite Hstart. reflexivity.
Qed.

(** ** MessagesService (messages.service.ts) *)

Module MessagesService.

(** A listener is a function value; [indexOf] compares by identity. *)
Definition Listener := N.

Record Service := mkService {
  messages : list Message;
  listeners : list Listener;
}.

Definition empty : Service := mkService [] [].

(** A call of a listener, with how it ended. *)
Record Notice := mkNotice {
  noticeListener : Listener;
  noticeMessage : Message;
  noticeOk : bool;   (* [false]: it threw, and [console.error] was called *)
}.

Definition getAllMessages (svc : Service) : list Message := messages svc.

Definition clearMessages (svc : Service) : Service := mkService [] (listeners svc).

Definition subscribe (l : Listener) (svc : Service) : Service :=
  mkService (messages svc) (listeners svc ++ [l]).

(** [listeners.indexOf(listener)] and [splice(index, 1)] *)
Fixpoint removeFirst (l : Listener) (ls : list Listener) : list Listener :=
  match ls with
  | [] => []
  | x :: rest => if N.eqb x l then rest else x :: removeFirst l rest
  end.

(** The function [subscribe] returns. *)
Definition unsubscribe (l : Listener) (svc : Service) : Service :=
  mkService (messages svc) (removeFirst l (listeners svc)).

Lemma removeFirst_middle (a : Listener) (pre post : list Listener) :
  ~ In a pre -> removeFirst a (pre ++ a :: post) = pre ++ post.
Proof.
  induction pre as [|x pre IH]; simpl; intros Ha.
  - rewrite N.eqb_refl. reflexivity.
  - destruct (N.eqb x a) eqn:Hx.
    + apply N.eqb_eq in Hx. tauto.
    + rewrite IH by tauto. reflexivity.
Qed.

Section Notify.

(** [Out] is what listeners act on besides the service; [run l m] is the call
    [listener(message)], which may use the service itself. *)
Context {Out : Type}
  (run : Listener -> Message -> Service * Out -> Res unit * (Service * Out)).

Record State := mkState {
  service : Service;
  outside : Out;
  notices : list Notice;
}.

(** [this.listeners.forEach(...)]: the indices below the length read at the
    start are visited in order, each at the array as it then is; an index
    that is no longer in the array is skipped. *)
Fixpoint forEach (m : Message) (k remaining : nat) (st : State) : State :=
  match remaining with
  | O => st
  | S remaining' =>
      match listeners (service st) !! k with
      | Some l =>
          let '(r, (svc', o')) := run l m (service st, outside st) in
          forEach m (S k) remaining'
                  (mkState svc' o' (notices st ++ [mkNotice l m (isOk r)]))
      | None => forEach m (S k) remaining' st
      end
  end.

Definition addMessage (m : Message) (st : State) : State :=
  let svc := mkService (messages (service st) ++ [m]) (listeners (service st)) in
  forEach m 0 (length (listeners svc)) (mkState svc (outside st) (notices st)).

(** Listeners that leave the service alone. *)
Definition passive : Prop :=
  forall l m svc o, (run l m (svc, o)).2.1 = svc.

Lemma forEach_passive (m : Message) (k remaining : nat) (st : State) :
  passive ->
  service (forEach m k remaining st) = service st
  /\ exists new,
       notices (forEach m k remaining st) = notices st ++ new
       /\ map noticeListener new = take remaining (drop k (listeners (service st)))
       /\ Forall (fun n => noticeMessage n = m) new.
Proof.
  intros Hp. revert k st. induction remaining as [|r IH]; intros k st; simpl.
  - split; [reflexivity|]. exists []. rewrite app_nil_r. auto.
  - destruct (listeners (service st) !! k) as [l|] eqn:Hk.
    + pose proof (Hp l m (service st) (outside st)) as Hsvc.
      destruct (run l m (service st, outside st)) as [res [svc' o']]. simpl in Hsvc. subst svc'.
      destruct (IH (S k) (mkState (service st) o' (notices st ++ [mkNotice l m (isOk res)])))
        as (H1 & new & H2 & H3 & H4). simpl in *.
      split; [exact H1|].
      exists (mkNotice l m (isOk res) :: new). rewrite H2, <- app_assoc. split; [reflexivity|].
      split; [|constructor; auto].
      simpl. rewrite H3.
      rewrite (drop_S (listeners (service st)) l k Hk). reflexivity.
    + destruct (IH (S k) st) as (H1 & new & H2 & H3 & H4).
      split; [exact H1|]. exists new. split; [exact H2|]. split; [|exact H4].
      apply lookup_ge_None in Hk.
      rewrite H3. rewrite !drop_ge by lia. rewrite !take_nil. reflexivity.
Qed.

(** X16.  A listener that throws stops nothing.  When the listeners leave the
    service alone, [addMessage] appends the message to the history, keeps
    the listeners, and calls every registered listener exactly once with
    that message, in the order of registration, whatever the calls before
    it did. *)
Theorem addMessage_notifies_all (m : Message) (st : State) :
  passive ->
  getAllMessages (service (addMessage m st)) = getAllMessages (service st) ++ [m]
  /\ listeners (service (addMessage m st)) = listeners (service st)
  /\ exists new,
       notices (addMessage m st) = notices st ++ new
       /\ map noticeListener new = listeners (service st)
       /\ Forall (fun n => noticeMessage n = m) new.
Proof.
  intros Hp. unfold addMessage. simpl.
  destruct (forEach_passive m 0 (length (listeners (service st)))
              (mkState (mkService (messages (service st) ++ [m]) (listeners (service st)))
                       (outside st) (notices st)) Hp)
    as (H1 & new & H2 & H3 & H4).
  simpl in *. rewrite H1. simpl. repeat split.
  exists new. split; [exact H2|]. split; [|exact H4].
  rewrite H3, drop_0, firstn_all. reflexivity.
Qed.

(** X17.  The history is what was added.  With listeners that leave the service
    alone, after a sequence of [addMessage] calls [getAllMessages] returns
    the earlier history followed by the added messages, in the order they
    were added. *)
Theorem history_is_what_was_added (ms : list Message) (st : State) :
  passive ->
  getAllMessages (service (fold_left (fun st m => addMessage m st) ms st))
  = getAllMessages (service st) ++ ms.
Proof.
  intros Hp. revert st. induction ms as [|m ms IH]; intros st; simpl.
  - rewrite app_nil_r. reflexivity.
  - rewrite IH. unfold addMessage at 1.
    destruct (forEach_passive m 0 (length (listeners (service st)))
                (mkState (mkService (messages (service st) ++ [m]) (listeners (service st)))
                         (outside st) (notices st)) Hp) as (H & _).
    cbn [service listeners] in H. cbn [service listeners]. rewrite H. cbn.
    rewrite <- app_assoc. reflexivity.
Qed.

(** Listeners other than [a] leave the service alone; [a] removes its own
    registration when it is called. *)
Definition unsubscribesItself (a : Listener) : Prop :=
  (forall m svc o, (run a m (svc, o)).2.1 = unsubscribe a svc)
  /\ (forall l m svc o, l <> a -> (run l m (svc, o)).2.1 = svc).

Lemma forEach_plus (m : Message) (k r1 r2 : nat) (st : State) :
  forEach m k (r1 + r2) st = forEach m (k + r1) r2 (forEach m k r1 st).
Proof.
  revert k st. induction r1 as [|r1 IH]; intros k st; simpl.
  - rewrite Nat.add_0_r. reflexivity.
  - replace (k + S r1)%nat with (S k + r1)%nat by lia.
    destruct (listeners (service st) !! k) as [l|].
    + destruct (run l m (service st, outside st)) as [res [svc' o']]. apply IH.
    + apply IH.
Qed.

Lemma forEach_others (a : Listener) (m : Message) (k remaining : nat) (st : State) :
  unsubscribesItself a ->
  ~ In a (take remaining (drop k (listeners (service st)))) ->
  service (forEach m k remaining st) = service st
  /\ exists new,
       notices (forEach m k remaining st) = notices st ++ new
       /\ map noticeListener new = take remaining (drop k (listeners (service st))).
Proof.
  intros (_ & Hp). revert k st. induction remaining as [|r IH]; intros k st Ha; simpl.
  - split; [reflexivity|]. exists []. rewrite app_nil_r. auto.
  - destruct (listeners (service st) !! k) as [l|] eqn:Hk.
    + rewrite (drop_S _ _ _ Hk) in Ha. simpl in Ha.
      assert (Hla : l <> a) by (intros ->; apply Ha; left; reflexivity).
      pose proof (Hp l m (service st) (outside st) Hla) as Hsvc.
      destruct (run l m (service st, outside st)) as [res [svc' o']]. simpl in Hsvc. subst svc'.
      destruct (IH (S k) (mkState (service st) o' (notices st ++ [mkNotice l m (isOk res)])))
        as (H1 & new & H2 & H3); [simpl; tauto|]. simpl in *.
      split; [exact H1|].
      exists (mkNotice l m (isOk res) :: new). rewrite H2, <- app_assoc. split; [reflexivity|].
      simpl. rewrite H3, (drop_S _ _ _ Hk). reflexivity.
    + apply lookup_ge_None in Hk.
      destruct (IH (S k) st) as (H1 & new & H2 & H3).
      { rewrite drop_ge by lia. rewrite take_nil. simpl. tauto. }
      split; [exact H1|]. exists new. split; [exact H2|].
      rewrite H3. rewrite !drop_ge by lia. rewrite !take_nil. reflexivity.
Qed.

(** X18.  A listener that unsubscribes itself while it is notified makes
    [forEach] skip the listener registered right after it.  With the
    listeners [pre ++ a :: b :: post], where only [a] touches the service
    and removes its own registration, [addMessage] calls [pre], then [a],
    then [post]: [b] is not called for this message.  It stays
    registered. *)
Theorem self_unsubscribe_skips_next (a b : Listener) (pre post : list Listener)
    (m : Message) (st : State) :
  unsubscribesItself a ->
  listeners (service st) = pre ++ a :: b :: post ->
  ~ In a pre -> ~ In a (b :: post) ->
  listeners (service (addMessage m st)) = pre ++ b :: post
  /\ exists new,
       notices (addMessage m st) = notices st ++ new
       /\ map noticeListener new = pre ++ a :: post.
Proof.
  intros Hself Hls Hpre Hpost. pose proof Hself as (Ha & _).
  unfold addMessage. simpl. rewrite Hls.
  set (st0 := mkState _ (outside st) (notices st)).
  assert (Hls0 : listeners (service st0) = pre ++ a :: b :: post) by reflexivity.
  replace (length (pre ++ a :: b :: post))
    with (length pre + (1 + (1 + length post)))%nat by (rewrite length_app; simpl; lia).
  rewrite forEach_plus.
  destruct (forEach_others a m 0 (length pre) st0 Hself) as (S1 & new1 & N1 & L1).
  { rewrite Hls0, drop_0, take_app_length. exact Hpre. }
  rewrite Hls0, drop_0, take_app_length in L1.
  set (st1 := forEach m 0 (length pre) st0) in *.
  rewrite forEach_plus.
  assert (Hat : listeners (service st1) !! (length pre) = Some a).
  { rewrite S1, Hls0. rewrite lookup_app_r by lia. rewrite Nat.sub_diag. reflexivity. }
  replace (0 + length pre)%nat with (length pre) by lia.
  assert (Hstep : forEach m (length pre) 1 st1
                  = let '(r, (svc', o')) := run a m (service st1, outside st1) in
                    mkState svc' o' (notices st1 ++ [mkNotice a m (isOk r)])).
  { cbn [forEach]. rewrite Hat.
    destruct (run a m (service st1, outside st1)) as [r [svc' o']]. reflexivity. }
  rewrite Hstep. clear Hstep.
  pose proof (Ha m (service st1) (outside st1)) as Hsvc.
  destruct (run a m (service st1, outside st1)) as [res [svc2 o2]]. simpl in Hsvc.
  set (st2 := mkState svc2 o2 (notices st1 ++ [mkNotice a m (isOk res)])).
  assert (Hls2 : listeners (service st2) = pre ++ b :: post).
  { subst st2. simpl. rewrite Hsvc. unfold unsubscribe. simpl.
    rewrite S1, Hls0. apply removeFirst_middle, Hpre. }
  assert (Hdrop : drop (length pre + 1) (listeners (service st2)) = post).
  { rewrite Hls2. rewrite drop_app_ge by lia.
    replace (length pre + 1 - length pre)%nat with 1%nat by lia. reflexivity. }
  destruct (forEach_others a m (length pre + 1) (1 + length post) st2 Hself)
    as (S3 & new3 & N3 & L3).
  { rewrite Hdrop. rewrite take_ge by lia. simpl in Hpost. tauto. }
  rewrite Hdrop in L3. rewrite take_ge in L3 by lia.
  rewrite S3. split; [exact Hls2|].
  exists (new1 ++ mkNotice a m (isOk res) :: new3).
  rewrite N3. subst st2. simpl notices. rewrite N1. subst st0. simpl notices.
  rewrite <- !app_assoc. split; [reflexivity|].
  rewrite map_app. simpl. rewrite L1, L3. reflexivity.
Qed.

End Notify.

Lemma removeFirst_count (l x : Listener) (ls : list Listener) :
  count_occ N.eq_dec (removeFirst l ls) x
  = if N.eqb x l then Nat.pred (count_occ N.eq_dec ls x) else count_occ N.eq_dec ls x.
Proof.
  induction ls as [|y ls IH]; simpl.
  - destruct (N.eqb x l); reflexivity.
  - destruct (N.eqb y l) eqn:Hy.
    + apply N.eqb_eq in Hy. subst y.
      destruct (N.eq_dec l x) as [->|Hne].
      * rewrite N.eqb_refl. reflexivity.
      * rewrite (proj2 (N.eqb_neq x l)) by congruence. reflexivity.
    + simpl. rewrite IH. apply N.eqb_neq in Hy.
      destruct (N.eq_dec y x) as [->|Hne].
      * rewrite (proj2 (N.eqb_neq x l)) by congruence. reflexivity.
      * reflexivity.
Qed.

Lemma removeFirst_others (l : Listener) (ls : list Listener) :
  List.filter (fun x => negb (N.eqb x l)) (removeFirst l ls)
  = List.filter (fun x => negb (N.eqb x l)) ls.
Proof.
  induction ls as [|y ls IH]; simpl; [reflexivity|].
  destruct (N.eqb y l) eqn:Hy; simpl; [reflexivity|].
  rewrite Hy. simpl. rewrite IH. reflexivity.
Qed.

(** X19.  The function [subscribe] returns removes one registration of its
    listener, the oldest (with the registrations [older ++ l :: newer],
    [l] not among [older], it leaves [older ++ newer]), if there is one,
    and nothing else: the other listeners and their order, and the history,
    are kept.  A second call
    finds nothing of a listener registered once (it changes nothing), but
    removes the other registration of a function that was subscribed
    twice. *)
Theorem unsubscribe_removes_one_registration (l : Listener) (svc : Service) :
  (forall x, count_occ N.eq_dec (listeners (unsubscribe l svc)) x
             = if N.eqb x l then Nat.pred (count_occ N.eq_dec (listeners svc) x)
               else count_occ N.eq_dec (listeners svc) x)
  /\ List.filter (fun x => negb (N.eqb x l)) (listeners (unsubscribe l svc))
     = List.filter (fun x => negb (N.eqb x l)) (listeners svc)
  /\ getAllMessages (unsubscribe l svc) = getAllMessages svc
  /\ (~ In l (listeners svc) ->
      unsubscribe l (subscribe l svc) = svc
      /\ unsubscribe l (unsubscribe l (subscribe l svc)) = svc
      /\ unsubscribe l (unsubscribe l (subscribe l (subscribe l svc))) = svc)
  /\ (forall older newer,
        listeners svc = older ++ l :: newer -> ~ In l older ->
        listeners (unsubscribe l svc) = older ++ newer)
  /\ (~ In l (listeners svc) -> unsubscribe l svc = svc).
Proof.
  split; [intros x; apply removeFirst_count|].
  split; [apply removeFirst_others|]. split; [reflexivity|].
  assert (Habsent : forall ls, ~ In l ls -> removeFirst l ls = ls).
  { induction ls as [|y ls IH]; simpl; intros Hl; [reflexivity|].
    destruct (N.eqb y l) eqn:Hy.
    - apply N.eqb_eq in Hy. tauto.
    - rewrite IH; [reflexivity | tauto]. }
  split; [|split].
  2: { intros older newer Hls Hold. unfold unsubscribe. simpl. rewrite Hls.
       apply removeFirst_middle, Hold. }
  2: { intros Hl. destruct svc as [ms ls]. unfold unsubscribe. simpl in *.
       rewrite (Habsent ls Hl). reflexivity. }
  intros Hl. destruct svc as [ms ls]. unfold unsubscribe, subscribe. simpl in *.
  assert (H0 : removeFirst l ls = ls).
  { induction ls as [|y ls IH]; simpl; [reflexivity|].
    destruct (N.eqb y l) eqn:Hy.
    - apply N.eqb_eq in Hy. simpl in Hl. tauto.
    - rewrite IH; [reflexivity|]. simpl in Hl. tauto. }
  assert (H1 : forall post, removeFirst l (ls ++ l :: post) = ls ++ post).
  { intros post. apply removeFirst_middle, Hl. }
  rewrite (H1 []), app_nil_r, H0.
  rewrite <- app_assoc. simpl. rewrite (H1 [l]), (H1 []), app_nil_r. auto.
Qed.

End MessagesService.

(** ** Checks that fail, and logins that are not confirmed *)

Section Guards.

Context {W : Type} (P : Puppeteer W).

Import Dedup.

(** X11.  A rejected [page.evaluate] is absorbed by the interval callback.  When
    the in-page function of [checkForNewMessages] is rejected, the tick
    still returns normally, the session (processed keys, flag, timer,
    handles) is as it was, and nothing is published. *)
Theorem tick_absorbs_rejected_evaluate (s : SState W) (p : Page) (e : jsstring) :
  isRunning (session s) = true ->
  page (session s) = Some p ->
  (evalChatSnapshot W P p (world (env s))).1 = Throw e ->
  (tick P s).1 = Ok tt
  /\ session (tick P s).2 = session s
  /\ published (log (env (tick P s).2)) = published (log (env s)).
Proof.
  intros Hrun Hp Hthrow.
  assert (Hy : pollYields P PollTick s = []).
  { simpl. rewrite Hrun, Hp. simpl. unfold checkYields.
    destruct (negb _); [reflexivity|].
    destruct (evalChatSnapshot W P p (world (env s))) as [[d|e'] w']; [discriminate|].
    reflexivity. }
  pose proof (runPoll_spec P PollTick s) as (H1 & H2 & H3 & H4 & H5).
  rewrite Hy in H1, H2. simpl in H1, H2, H3, H4, H5. rewrite app_nil_r in H2.
  destruct (tick_rel P s) as (_ & _ & _ & _ & H6 & _).
  split.
  - unfold tick, bind, getSession, tryCatch. simpl. rewrite Hrun, Hp. simpl.
    destruct (runCheckForNewMessages_spec P s) as (Hok & _).
    destruct (runCheckForNewMessages P s) as [[[]|e'] s1]; [reflexivity | discriminate].
  - split; [|exact H2].
    destruct (session (tick P s).2) as [b1 p1 r1 t1 k1].
    destruct (session s) as [b0 p0 r0 t0 k0]. simpl in *. congruence.
Qed.

(** X12.  With both credentials given, [startMonitoring] goes on past the login
    step only with a login that [checkIfLoggedIn] confirmed; so the branch
    for an automatic login that was not confirmed (lines 163-193, the
    two-minute wait) is never taken: whenever the login step falls through
    with [isAlreadyLoggedIn = false], a credential is missing and the
    manual wait of lines 144-162 runs. *)
Theorem unconfirmed_login_never_proceeds (phone password smsCode : option jsstring)
    (s s1 : SState W) (isAlreadyLoggedIn : bool) :
  startAuthenticate P phone password smsCode s = (Ok (inr isAlreadyLoggedIn), s1) ->
  isAlreadyLoggedIn = false ->
  negb (truthyOpt phone) || negb (truthyOpt password) = true
  /\ forall intf,
       startAwaitLogin P intf phone password isAlreadyLoggedIn s1
       = ((let* s0 := getSession in
           match page s0 with
           | Some p => lift (openLoginFormForUser P p)
           | None => lift (logWarn (lit "Error opening login form:"))
           end);;
          let* isLoggedIn := manualWait P intf 60 0 in
          if (isLoggedIn : bool) then ret tt else throw Lit.authTimedOut) s1.
Proof.
  intros Hauth ->.
  assert (Hmissing : negb (truthyOpt phone) || negb (truthyOpt password) = true).
  { unfold startAuthenticate in Hauth.
    destruct phone as [ph|]; [|reflexivity].
    destruct password as [pw|]; [|apply orb_true_r].
    simpl. destruct (truthy ph); [|reflexivity].
    destruct (truthy pw); [|reflexivity].
    exfalso. cbn [andb] in Hauth.
    unfold tryCatch, bind, getSession, lift in Hauth. cbn [fst snd] in Hauth.
    destruct (login P (page (session s)) ph pw smsCode (env s)) as [[[r0|]|e] e1];
      cbn [fst snd] in Hauth.
    - destruct (truthyOpt (error r0)); [simpl in Hauth; discriminate|].
      destruct (requiresSms r0); [simpl in Hauth; discriminate|].
      simpl in Hauth.
      destruct (checkIfLoggedIn P (page (session s)) e1) as [[[]|e] e2];
        simpl in Hauth; discriminate.
    - simpl in Hauth. discriminate.
    - simpl in Hauth. discriminate. }
  split; [exact Hmissing|].
  intros intf. unfold startAwaitLogin. rewrite Hmissing. reflexivity.
Qed.

(** The selectors [checkIfLoggedIn] queries, in the order of lines
    255-260. *)
Definition profileLinkSelector : jsstring := sel "a[href*='/profile'], a[href*='/cabinet']".
Definition messengerLinkSelector : jsstring := sel "a[href*='/messenger']".
Definition userMenuSelector : jsstring :=
  sel "[class*='user'], [class*='User'], [class*='profile'], [class*='Profile']".
Definition loginLinkSelector : jsstring := sel "a[href*='/login'], a[href*='#login']".

(** The page as it is when [checkIfLoggedIn] queries the login link (after
    its three queries for signs of a profile), and when it counts the
    links. *)
Definition worldAtLoginQuery (p : Page) (w : W) : W :=
  (query W P p userMenuSelector
     (query W P p messengerLinkSelector
        (query W P p profileLinkSelector w).2).2).2.

Definition worldAtLinkCount (p : Page) (w : W) : W :=
  (query W P p loginLinkSelector (worldAtLoginQuery p w)).2.

(** X13.  A login link outweighs every sign of a profile.  When the address
    contains none of '/profile', '/cabinet' and '/messenger' and the page
    shows a login link at one of the two reads the check makes of it (the
    selector query, or the link count of the in-page function),
    [checkIfLoggedIn] answers [false], whatever profile links, user menus
    or messenger links the page shows as well, and also when a probe is
    rejected. *)
Theorem login_link_outweighs_profile_signs (p : Page) (st : PState W) :
  isAuthenticatedUrl (url W P p (world st)) = false ->
  (exists h,
      (query W P p loginLinkSelector (worldAtLoginQuery p (world st))).1 = Ok (Some h))
  \/ (exists profileLinks userElements loginLinks,
        (evalProfileCounts W P p (worldAtLinkCount p (world st))).1
        = Ok (profileLinks, userElements, S loginLinks)) ->
  (checkIfLoggedIn P (Some p) st).1 = Ok false.
Proof.
  intros Hurl Hlink.
  unfold worldAtLinkCount, worldAtLoginQuery, loginLinkSelector, userMenuSelector,
    messengerLinkSelector, profileLinkSelector in Hlink.
  unfold checkIfLoggedIn, tryCatch. unfold bind at 1. unfold pUrl. cbn [fst snd].
  rewrite Hurl.
  unfold bind, pQuery, probe, call. cbn [fst snd].
  destruct (query W P p _ (world st)) as [[r1|e] w1]; cbn [fst snd world] in *; [|reflexivity].
  destruct (query W P p _ w1) as [[r2|e] w2]; cbn [fst snd world] in *; [|reflexivity].
  destruct (query W P p _ w2) as [[r3|e] w3]; cbn [fst snd world] in *; [|reflexivity].
  destruct (query W P p (sel "a[href*='/login'], a[href*='#login']") w3)
    as [[r4|e] w4] eqn:Hq; cbn [fst snd world] in *; [|reflexivity].
  destruct (evalProfileCounts W P p w4) as [[[[a b] c]|e] w5] eqn:Hc; cbn [fst snd] in *;
    [|reflexivity].
  unfold ret. cbn [fst]. f_equal.
  destruct Hlink as [(h & Hl)|(a' & b' & c' & Hl)].
  - inversion Hl; subst. cbn [isSome negb andb]. apply andb_false_r.
  - inversion Hl; subst. cbn [Nat.ltb Nat.leb negb]. rewrite !andb_false_r. reflexivity.
Qed.

End Guards.

(** ** A start that fails by an exception *)

Section Teardown.

Context {W : Type} (P : Puppeteer W).

Lemma startAuthenticate_without_credentials phone password smsCode (s : SState W) :
  truthyOpt phone && truthyOpt password = false ->
  exists b s1, startAuthenticate P phone password smsCode s = (Ok (inr b), s1).
Proof.
  intros Hc.
  assert (Hlook : exists b s1,
             (let* s0 := getSession in
              let* b := lift (checkIfLoggedIn P (page s0)) in ret (inr b)) s
             = (Ok (inr b : LoginResult + bool), s1)).
  { unfold bind, getSession, lift. cbn [fst snd].
    destruct (quiet_checkIfLoggedIn P (page (session s)) (env s)) as (evs & _).
    assert (Hok : exists b, (checkIfLoggedIn P (page (session s)) (env s)).1 = Ok b).
    { unfold checkIfLoggedIn. destruct (page (session s)) as [p|]; [|eexists; reflexivity].
      unfold tryCatch.
      destruct ((let* currentUrl := pUrl P p in _) (env s)) as [[b|e] st1];
        [eexists; reflexivity|].
      eexists. reflexivity. }
    destruct Hok as (b & Hb).
    destruct (checkIfLoggedIn P (page (session s)) (env s)) as [r e1]. cbn [fst] in Hb.
    subst r. eexists. eexists. reflexivity. }
  unfold startAuthenticate.
  destruct phone as [ph|]; [|exact Hlook].
  destruct password as [pw|]; [|exact Hlook].
  simpl in Hc. rewrite Hc. exact Hlook.
Qed.

(** X14.  Without both credentials, a start that does not end running has run
    the teardown.  From a session that is not running, when the phone or
    the password is missing or empty, [startMonitoring] either leaves the
    session running, or it went through its [catch]: the browser handle is
    released, unless [browser.close()] was rejected, which the end of the log
    then shows. *)
Theorem start_without_credentials_tears_down (phone password smsCode : option jsstring)
    (s : SState W) :
  isRunning (session s) = false ->
  truthyOpt phone && truthyOpt password = false ->
  let s' := (startMonitoring P phone password smsCode s).2 in
  isRunning (session s') = true
  \/ browser (session s') = None
  \/ exists b pre,
       browser (session s') = Some b
       /\ log (env s')
          = pre ++ [EvBrowserClose b false; EvLog LError (lit "Error during cleanup:")].
Proof.
  intros Hrun Hc. cbn zeta.
  destruct (startMonitoring P phone password smsCode s) as [r s'] eqn:Hs. cbn [snd].
  unfold startMonitoring, startMonitoringWith in Hs.
  unfold bind at 1 in Hs. unfold getSession in Hs. cbn [fst snd] in Hs. rewrite Hrun in Hs.
  unfold tryCatch in Hs. unfold bind at 1 in Hs.
  destruct (startBody P (fun _ s0 => s0) phone password smsCode s) as [[res|e] s1] eqn:Hbody.
  - left. inversion Hs; subst r s'; clear Hs. unfold startBody, bind in Hbody.
    destruct (startOpen P s) as [[[]|e] s0]; [|discriminate].
    destruct (startAuthenticate_without_credentials phone password smsCode s0 Hc)
      as (b & s2 & Ha).
    rewrite Ha in Hbody.
    destruct (startAwaitLogin P (fun _ s3 => s3) phone password b s2) as [[[]|e] s3];
      [|discriminate].
    destruct (startRun_outcome P s3) as (evs & _ & _ & Hres).
    rewrite Hbody in Hres. cbn [fst snd] in Hres. apply Hres.
  - right. unfold bind, lift, logError, emit in Hs. cbn [fst snd] in Hs.
    match type of Hs with context [cleanup P ?x] => set (s2 := x) in * end.
    destruct (cleanup_spec P s2) as (Hok & _ & _ & _ & Hb).
    destruct (cleanup P s2) as [[[]|e'] s3] eqn:Hcl; cbn [fst snd] in *; [|discriminate].
    inversion Hs; subst r s'; clear Hs.
    destruct (browser (session s2)) as [b|] eqn:Hbr.
    + destruct (browserClose W P b (world (env s2))) as [[[]|e'] w'].
      * left. apply Hb.
      * right. destruct Hb as (_ & B1 & _ & B3). eauto.
    + left. rewrite Hb. exact Hbr.
Qed.

End Teardown.

(** ** Clicking the first matching link *)





Section Clicks.

Context {W : Type} (P : Puppeteer W).










End Clicks.

(** ** MessagesGateway (messages.gateway.ts) *)

Module Gateway.

Import MessagesService.

(** A connected socket, by its id. *)
Definition Client := N.

(** What a socket is sent. *)
Inductive Emitted :=
| AllMessages (ms : list Message)   (* 'allMessages' *)
| NewMessage (m : Message).         (* 'newMessage' *)

(** [server] is the [@WebSocketServer()] field: undefined until the
    framework sets it, then the server with its connected sockets.
    [inbox c] is what socket [c] was sent, oldest first. *)
Record World := mkWorld {
  server : option (list Client);
  inbox : Client -> list Emitted;
}.

(** [client.emit(...)] *)
Definition emitTo (c : Client) (e : Emitted) (w : World) : World :=
  mkWorld (server w) (fun c' => if N.eqb c' c then inbox w c' ++ [e] else inbox w c').

(** [this.server.emit(...)]: to every connected socket; reading [emit] of
    an undefined server throws. *)
Definition serverEmit (e : Emitted) (w : World) : Res unit * World :=
  match server w with
  | None => (Throw (lit "Cannot read properties of undefined (reading 'emit')"), w)
  | Some cs => (Ok tt, fold_left (fun w c => emitTo c e w) cs w)
  end.

(** The listener the constructor registers (lines 46-52); it is the only
    subscriber of the application. *)
Definition gatewayListener : Listener := 0.

Definition run (l : Listener) (m : Message) (st : Service * World)
    : Res unit * (Service * World) :=
  if N.eqb l gatewayListener
  then let '(r, w') := serverEmit (NewMessage m) st.2 in (r, (st.1, w'))
  else (Ok tt, st).

(** The application after the constructors ran: nothing stored, the
    gateway subscribed, no server yet. *)
Definition initial : State (Out:=World) :=
  mkState (subscribe gatewayListener empty) (mkWorld None (fun _ => [])) [].

(** handleConnection (lines 29-35) *)
Definition handleConnection (c : Client) (st : State (Out:=World)) : State :=
  mkState (service st)
          (emitTo c (AllMessages (getAllMessages (service st))) (outside st))
          (notices st).

Inductive Op :=
| ServerUp                 (* the framework sets [server] *)
| Connect (c : Client)     (* a socket connects; [handleConnection] runs *)
| Disconnect (c : Client)
| Add (m : Message).       (* [messagesService.addMessage(m)] *)

Definition step (op : Op) (st : State (Out:=World)) : State :=
  match op with
  | ServerUp =>
      match server (outside st) with
      | None => mkState (service st) (mkWorld (Some []) (inbox (outside st))) (notices st)
      | Some _ => st
      end
  | Connect c =>
      match server (outside st) with
      | None => st   (* no server to connect to *)
      | Some cs =>
          handleConnection c
            (mkState (service st) (mkWorld (Some (cs ++ [c])) (inbox (outside st)))
                     (notices st))
      end
  | Disconnect c =>
      match server (outside st) with
      | None => st
      | Some cs =>
          mkState (service st)
                  (mkWorld (Some (List.filter (fun c' => negb (N.eqb c' c)) cs))
                           (inbox (outside st)))
                  (notices st)
      end
  | Add m => addMessage run m st
  end.

Definition runOps (ops : list Op) (st : State (Out:=World)) : State :=
  fold_left (fun st op => step op st) ops st.

(** The socket ids of the connections in a run. *)
Definition connectOf (op : Op) : list Client :=
  match op with Connect c => [c] | _ => [] end.

Definition connects (ops : list Op) : list Client := flat_map connectOf ops.

(** The messages a socket was sent, in order. *)
Definition received (es : list Emitted) : list Message :=
  flat_map (fun e => match e with AllMessages ms => ms | NewMessage m => [m] end) es.

Definition connected (st : State (Out:=World)) : list Client :=
  match server (outside st) with Some cs => cs | None => [] end.

Lemma received_app (a b : list Emitted) : received (a ++ b) = received a ++ received b.
Proof. unfold received. apply flat_map_app. Qed.

Lemma broadcast_inbox (e : Emitted) (cs : list Client) (w : World) (c : Client) :
  NoDup cs ->
  inbox (fold_left (fun w c => emitTo c e w) cs w) c
  = if bool_decide (c ∈ cs) then inbox w c ++ [e] else inbox w c.
Proof.
  intros Hnd. revert w. induction Hnd as [|x cs Hx Hnd IH]; intros w; simpl.
  - reflexivity.
  - rewrite IH. simpl.
    destruct (N.eqb c x) eqn:Hcx.
    + apply N.eqb_eq in Hcx. subst x.
      rewrite (bool_decide_eq_false_2 (c ∈ cs)) by exact Hx.
      rewrite bool_decide_eq_true_2 by set_solver. reflexivity.
    + apply N.eqb_neq in Hcx.
      destruct (bool_decide (c ∈ cs)) eqn:Hc.
      * apply bool_decide_eq_true in Hc.
        rewrite bool_decide_eq_true_2 by set_solver. reflexivity.
      * apply bool_decide_eq_false in Hc.
        rewrite bool_decide_eq_false_2 by set_solver. reflexivity.
Qed.

Lemma broadcast_server (e : Emitted) (cs : list Client) (w : World) :
  server (fold_left (fun w c => emitTo c e w) cs w) = server w.
Proof. revert w. induction cs as [|x cs IH]; intros w; simpl; [reflexivity|]. rewrite IH. reflexivity. Qed.

(** The invariant: the gateway is the one subscriber; a connected socket
    has received the history; a socket still to connect has received
    nothing and is not connected. *)
Definition inSync (later : list Client) (st : State (Out:=World)) : Prop :=
  listeners (service st) = [gatewayListener]
  /\ NoDup (connected st)
  /\ (forall c, c ∈ connected st ->
        received (inbox (outside st) c) = getAllMessages (service st))
  /\ (forall c, c ∈ later -> (c ∉ connected st) /\ inbox (outside st) c = []).

Lemma step_inSync (op : Op) (later : list Client) (st : State (Out:=World)) :
  NoDup (connectOf op ++ later) ->
  inSync (connectOf op ++ later) st -> inSync later (step op st).
Proof.
  intros Hnd (Hl & Hc & Hrecv & Hlater).
  destruct st as [[ms ls] [srv inb] nts]. unfold connected in *. simpl in Hl, Hc, Hrecv, Hlater.
  subst ls.
  destruct op as [|c|c|m]; unfold inSync, connected; simpl in *.
  - destruct srv as [cs|]; simpl.
    + auto.
    + split; [reflexivity|]. split; [constructor|].
      split; [intros c Hin; set_solver|].
      intros c Hin. split; [set_solver | apply Hlater, Hin].
  - apply NoDup_cons in Hnd as (Hcl & Hnd).
    destruct srv as [cs|]; simpl.
    + destruct (Hlater c ltac:(set_solver)) as (Hnot & Hempty).
      split; [reflexivity|].
      split; [apply NoDup_app; repeat split; [exact Hc | set_solver | apply NoDup_singleton]|].
      split.
      * intros c' Hin. destruct (N.eqb c' c) eqn:Hcc.
        -- apply N.eqb_eq in Hcc. subst c'. rewrite Hempty. simpl. apply app_nil_r.
        -- apply N.eqb_neq in Hcc. apply Hrecv. set_solver.
      * intros c' Hin. destruct (Hlater c' ltac:(set_solver)) as (H1 & H2).
        split; [set_solver|].
        destruct (N.eqb c' c) eqn:Hcc; [|exact H2].
        apply N.eqb_eq in Hcc. subst c'. contradiction.
    + split; [reflexivity|]. split; [constructor|].
      split; [intros c' Hin; set_solver|].
      intros c' Hin. split; [set_solver | apply Hlater; set_solver].
  - destruct srv as [cs|]; simpl.
    + split; [reflexivity|].
      split; [apply NoDup_ListNoDup, List.NoDup_filter, NoDup_ListNoDup, Hc|].
      split.
      * intros c' Hin. apply Hrecv. apply list_elem_of_In in Hin.
        apply filter_In in Hin. apply list_elem_of_In, Hin.
      * intros c' Hin. split; [|apply Hlater, Hin].
        intros Hin'. apply (proj1 (Hlater c' Hin)). apply list_elem_of_In in Hin'.
        apply filter_In in Hin'. apply list_elem_of_In, Hin'.
    + split; [reflexivity|]. split; [constructor|].
      split; [intros c' Hin; set_solver|].
      intros c' Hin. split; [set_solver | apply Hlater, Hin].
  - unfold addMessage, run, serverEmit. simpl.
    destruct srv as [cs|]; simpl.
    + rewrite broadcast_server. simpl.
      split; [reflexivity|]. split; [exact Hc|]. split.
      * intros c Hin. rewrite broadcast_inbox by exact Hc.
        rewrite bool_decide_eq_true_2 by exact Hin.
        cbn [inbox]. rewrite received_app, (Hrecv c Hin). reflexivity.
      * intros c Hin. split; [apply Hlater, Hin|].
        rewrite broadcast_inbox by exact Hc.
        rewrite bool_decide_eq_false_2 by (apply Hlater, Hin). apply Hlater, Hin.
    + split; [reflexivity|]. split; [constructor|].
      split; [intros c' Hin; set_solver|].
      intros c' Hin. split; [set_solver | apply Hlater, Hin].
Qed.

Lemma runOps_inSync (ops : list Op) (st : State (Out:=World)) :
  NoDup (connects ops) -> inSync (connects ops) st -> inSync [] (runOps ops st).
Proof.
  revert st. induction ops as [|op ops IH]; intros st Hnd Hin; simpl.
  - exact Hin.
  - change (connects (op :: ops)) with (connectOf op ++ connects ops) in Hnd, Hin.
    apply IH.
    + apply NoDup_app in Hnd. apply Hnd.
    + apply step_inSync; assumption.
Qed.

Lemma inSync_initial (later : list Client) : inSync later initial.
Proof.
  unfold inSync, initial, connected. simpl. repeat split; auto; try constructor; set_solver.
Qed.

(** X20.  A connected client has received the history, no more and no less.
    From the start of the application, over any sequence of the server
    coming up, sockets connecting (each socket id once) and disconnecting,
    and messages being added: the messages a connected socket was sent, as
    'allMessages' on connection and as 'newMessage' afterwards, are exactly
    what [getAllMessages] returns, in the same order.  Messages added while
    there is no server (the listener throws, [addMessage] catches) are not
    lost: they are in the history a socket gets when it connects. *)
Theorem connected_client_has_the_history (ops : list Op) (c : Client) :
  NoDup (connects ops) ->
  c ∈ connected (runOps ops initial) ->
  received (inbox (outside (runOps ops initial)) c)
  = getAllMessages (service (runOps ops initial)).
Proof.
  intros Hnd Hc.
  destruct (runOps_inSync ops initial Hnd (inSync_initial _)) as (_ & _ & H & _).
  apply H, Hc.
Qed.

End Gateway.

(** ** The selector loops of [login] *)

Section Locate.

Context {W : Type} (P : Puppeteer W).

(** A page that the search itself does not change. *)
Definition steady (p : Page) : Prop :=
  (forall sel w, (query W P p sel w).2 = w)
  /\ (forall h w, (evalBox W P p h w).2 = w).

(** [h] is what [page.$] gives for one of the selectors, and its box is
    not known to be invisible. *)
Definition plausible (visible : Box -> bool) (p : Page) (sels : list jsstring) (w : W)
    (h : Handle) : Prop :=
  exists sel,
    In sel sels
    /\ (query W P p sel w).1 = Ok (Some h)
    /\ match (evalBox W P p h w).1 with
       | Ok b => visible b = true
       | Throw _ => True
       end.

Lemma locate_steady (visible : Box -> bool) (p : Page) (sels : list jsstring)
    (cur : option Handle) (st : PState W) (Q : Handle -> Prop) :
  steady p ->
  (forall h, cur = Some h -> Q h) ->
  (forall h, plausible visible p sels (world st) h -> Q h) ->
  exists r,
    locate P visible p sels cur st = (Ok r, st)
    /\ forall h, r = Some h -> Q h.
Proof.
  intros (Hq & Hb). revert cur. induction sels as [|sel rest IH]; intros cur Hcur Hplaus.
  - exists cur. split; [reflexivity | exact Hcur].
  - cbn [locate]. unfold bind, attempt, pQuery, probe, call.
    pose proof (Hq sel (world st)) as Hw.
    destruct (query W P p sel (world st)) as [rq w1] eqn:Hquery. cbn [fst snd] in *. subst w1.
    assert (Hst : mkPState (world st) (log st ++ []) = st).
    { rewrite app_nil_r. destruct st; reflexivity. }
    rewrite Hst.
    assert (Hrest : forall h, plausible visible p rest (world st) h -> Q h).
    { intros h (sel' & Hin & H1 & H2). apply Hplaus. exists sel'. simpl. auto. }
    destruct rq as [[h|]|e].
    + pose proof (Hb h (world st)) as Hw.
      destruct (evalBox W P p h (world st)) as [rb w1] eqn:Hbox. cbn [fst snd] in *. subst w1.
      rewrite Hst.
      assert (Hh : match rb with Ok b => visible b = true | Throw _ => True end -> Q h).
      { intros Hv. apply Hplaus. exists sel. rewrite Hquery, Hbox. simpl. auto. }
      destruct rb as [b|e].
      * destruct (visible b) eqn:Hv.
        -- exists (Some h). split; [reflexivity|]. intros h' H. inversion H; subst. auto.
        -- apply IH; [discriminate | exact Hrest].
      * apply IH; [|exact Hrest]. intros h' H. inversion H; subst. auto.
    + apply IH; [discriminate | exact Hrest].
    + apply IH; [exact Hcur | exact Hrest].
Qed.

(** X21.  The input [login] types into was not found invisible.  On a page that
    the search does not change, the selector loops for the phone and the
    password input never reject and leave the page and the log as they
    were; a handle they return is what [page.$] gives for one of the
    selectors, and its visibility probe either reported it visible or was
    rejected (a rejected probe leaves the handle in the loop variable). *)
Theorem located_input_is_plausible (visible : Box -> bool) (p : Page)
    (sels : list jsstring) (st : PState W) :
  steady p ->
  exists r,
    locate P visible p sels None st = (Ok r, st)
    /\ forall h, r = Some h -> plausible visible p sels (world st) h.
Proof.
  intros Hs. apply locate_steady; [exact Hs | discriminate | auto].
Qed.

End Locate.

(** ** Dedup keys of the known senders *)

Module KeyFacts.

Import Extract.

Definition knownSender (s : jsstring) : Prop :=
  In s [Lit.RushanNatfullin; Lit.Rushan; lit "Unknown"].

(** X22.  Between messages of the known senders the dedup key confuses nothing
    but the text after position 100.  For two messages whose senders are
    among 'Рушан Натфуллин', 'Рушан' and 'Unknown' (the only senders the
    extraction functions assign), the keys are equal exactly when the
    senders are equal and the texts agree on their first 100 code
    units. *)
Theorem known_senders_keys_injective (m1 m2 : Message) :
  knownSender (sender m1) -> knownSender (sender m2) ->
  (messageKey m1 = messageKey m2 <->
   sender m1 = sender m2 /\ substring0 100 (text m1) = substring0 100 (text m2)).
Proof.
  intros H1 H2. unfold messageKey. split.
  - intros Hk.
    assert (Hs : sender m1 = sender m2).
    { unfold knownSender in *. simpl in H1, H2.
      destruct H1 as [E1|[E1|[E1|[]]]]; destruct H2 as [E2|[E2|[E2|[]]]];
        rewrite <- E1, <- E2 in *; try reflexivity; exfalso;
        vm_compute in Hk; discriminate. }
    split; [exact Hs|]. rewrite Hs in Hk.
    apply app_inv_head in Hk. exact (app_inv_head [95] _ _ Hk).
  - intros (Hs & Ht). rewrite Hs, Ht. reflexivity.
Qed.

End KeyFacts.

(** ** Further runs on the simulated site *)

Module MoreScenarios.

Import Sim.

(** A site that shows the messenger of a logged-in account. *)
Definition messengerSite : Site :=
  mkSite (fun _ => lit "https://www.avito.ru/profile/messenger") (fun _ _ => None)
         (fun _ _ => []) (fun _ _ => []) (fun _ => []) (fun _ => (1, 1, 0)%nat)
         emptyChat emptyPreview false.

(** A landing page whose only link is the login link. *)
Definition loginLinkSite : Site :=
  mkSite (fun _ => lit "https://www.avito.ru/") (fun _ _ => None)
         (fun _ _ => []) (fun _ _ => []) (fun _ => []) (fun _ => (3, 2, 1)%nat)
         emptyChat emptyPreview false.

(** The same browser, with a page on which [page.evaluate] of the chat
    function is rejected. *)
Definition rejectingEvaluate {W} (P : Puppeteer W) : Puppeteer W := {|
  launch := launch W P;
  newPage := newPage W P;
  setViewport := setViewport W P;
  browserClose := browserClose W P;
  goto := goto W P;
  waitForTimeout := waitForTimeout W P;
  url := url W P;
  waitForSelector := waitForSelector W P;
  query := query W P;
  queryAll := queryAll W P;
  click := click W P;
  typeText := typeText W P;
  press := press W P;
  screenshot := screenshot W P;
  evalTextLower := evalTextLower W P;
  evalAttribute := evalAttribute W P;
  evalPlaceholder := evalPlaceholder W P;
  evalInputType := evalInputType W P;
  evalBox := evalBox W P;
  evalSetInputType := evalSetInputType W P;
  evalErrorElements := evalErrorElements W P;
  evalProfileCounts := evalProfileCounts W P;
  evalInstallObserver := evalInstallObserver W P;
  evalChatSnapshot _ w := (Throw (lit "Execution context was destroyed."), w);
  evalPreviewSnapshot := evalPreviewSnapshot W P;
  onConsole := onConsole W P;
  dateNow := dateNow W P;
|}.

(** A running session that holds browser 1 and page 1. *)
Definition runningSession : SState State :=
  mkSState (mkSession (Some 1) (Some 1) true (Some 0%nat) ∅) (mkPState start []).

Definition idleSession : SState State :=
  mkSState (mkSession (Some 1) (Some 1) false None ∅) (mkPState start []).

Definition phone : jsstring := lit "+7 (900) 000-00-00".
Definition secret : jsstring := lit "hunter2".

(** A chat list with one preview of the correspondent. *)
Definition onePreview : PreviewSnapshot :=
  mkPreviewSnapshot [[Lit.Rushan ++ [10] ++ lit "see you at 5"]] [] 7 (fun _ => 0).

Definition thePreview : Message :=
  mkMessage (IdPreview 7 0) (lit "see you at 5") Lit.Rushan None 7.

Lemma fallback_extraction_bounds_witness :
  ExtractFacts.fromPreview thePreview \/ ExtractFacts.fromOpenConversation thePreview.
Proof.
  apply (ExtractFacts.fallback_extraction_bounds onePreview thePreview).
  vm_compute. left. reflexivity.
Defined.

(** A fresh process on a page without a login: the start command waits in
    vain and fails; the answer and the flag agree. *)
Lemma start_succeeds_iff_running_witness :
  exists resp,
    (controllerStart (puppeteer loginLinkSite) None None None fresh).1 = Ok resp
    /\ (success resp = true <->
        isRunning (session (controllerStart (puppeteer loginLinkSite) None None None fresh).2)
        = true).
Proof.
  destruct (start_succeeds_iff_running (puppeteer loginLinkSite) None None None fresh eq_refl)
    as (resp & H1 & H2 & _).
  exists resp. split; [exact H1 | exact H2].
Defined.

(** A process started without credentials on the account's messenger:
    the session runs and holds its page. *)
Lemma running_session_holds_page_witness :
  browserOpen (getStatus (puppeteer messengerSite)
                 (runCycle (puppeteer messengerSite) [CStart None None None] fresh)) = true.
Proof.
  refine (proj1 (running_session_holds_page (puppeteer messengerSite) start
                   [CStart None None None] _)).
  vm_compute. reflexivity.
Defined.

(** With credentials on the account's messenger: the start fails with the
    TypeError's message and keeps browser 1. *)
Lemma credentials_start_when_already_authenticated_witness :
  (startMonitoring (puppeteer messengerSite) (Some phone) (Some secret) None fresh).1
  = Ok (Some (mkLoginResult false (Some Lit.readErrorOfUndefined)))
  /\ browser (session (startMonitoring (puppeteer messengerSite) (Some phone) (Some secret)
                         None fresh).2) = Some 1%N.
Proof.
  destruct (credentials_start_when_already_authenticated (puppeteer messengerSite)
              phone secret None fresh (startOpen (puppeteer messengerSite) fresh).2 1)
    as (H1 & _ & H3 & _);
    [ reflexivity | reflexivity | reflexivity | vm_compute; reflexivity
    | vm_compute; reflexivity | vm_compute; reflexivity | vm_compute; reflexivity | ].
  split; [exact H1|]. rewrite H3. vm_compute. reflexivity.
Defined.

(** A tick of a running session on the messenger whose page rejects the
    evaluation. *)
Lemma tick_absorbs_rejected_evaluate_witness :
  (tick (rejectingEvaluate (puppeteer messengerSite)) runningSession).1 = Ok tt
  /\ session (tick (rejectingEvaluate (puppeteer messengerSite)) runningSession).2
     = session runningSession.
Proof.
  destruct (tick_absorbs_rejected_evaluate (rejectingEvaluate (puppeteer messengerSite))
              runningSession 1 (lit "Execution context was destroyed."))
    as (H1 & H2 & _); [reflexivity | reflexivity | reflexivity |].
  split; [exact H1 | exact H2].
Defined.

(** No credentials, and a page that shows no login: the login step falls
    through with [isAlreadyLoggedIn = false]. *)
Lemma unconfirmed_login_never_proceeds_witness :
  negb (truthyOpt None) || negb (truthyOpt None) = true.
Proof.
  refine (proj1 (unconfirmed_login_never_proceeds (puppeteer loginLinkSite) None None None
                   idleSession
                   (startAuthenticate (puppeteer loginLinkSite) None None None idleSession).2
                   false _ eq_refl)).
  vm_compute. reflexivity.
Defined.

(** A landing page with profile links and user elements, whose login link
    is there until something is typed into the page. *)
Definition vanishingLinkSite : Site :=
  mkSite (fun _ => lit "https://www.avito.ru/")
         (fun typed s =>
            if Nat.eqb typed 0 && JS.eqb s loginLinkSelector then Some 9%N else None)
         (fun _ _ => []) (fun _ _ => []) (fun _ => [])
         (fun typed => if Nat.eqb typed 0 then (3, 2, 1)%nat else (3, 2, 0)%nat)
         emptyChat emptyPreview false.

Lemma login_link_outweighs_profile_signs_witness :
  (checkIfLoggedIn (puppeteer vanishingLinkSite) (Some 1%N) (mkPState start [])).1 = Ok false.
Proof.
  apply (login_link_outweighs_profile_signs (puppeteer vanishingLinkSite) 1
           (mkPState start [])).
  - vm_compute. reflexivity.
  - left. exists 9%N. vm_compute. reflexivity.
Defined.

(** Three listeners; the second throws. *)
Definition noisy (l : MessagesService.Listener) (m : Message)
    (st : MessagesService.Service * list N) : Res unit * (MessagesService.Service * list N) :=
  (if N.eqb l 2 then Throw (lit "listener failed") else Ok tt, (st.1, st.2 ++ [l])).

Definition threeListeners : MessagesService.State (Out:=list N) :=
  MessagesService.mkState (MessagesService.mkService [] [1; 2; 3]%N) [] [].

Lemma addMessage_notifies_all_witness :
  MessagesService.outside (MessagesService.addMessage noisy thePreview threeListeners)
  = [1; 2; 3]%N
  /\ MessagesService.getAllMessages
       (MessagesService.service (MessagesService.addMessage noisy thePreview threeListeners))
     = [thePreview].
Proof.
  split; [vm_compute; reflexivity|].
  refine (proj1 (MessagesService.addMessage_notifies_all noisy thePreview threeListeners _)).
  intros l m svc o. reflexivity.
Defined.

Lemma history_is_what_was_added_witness :
  MessagesService.getAllMessages
    (MessagesService.service
       (fold_left (fun st m => MessagesService.addMessage noisy m st)
                  [thePreview; thePreview] threeListeners))
  = [thePreview; thePreview].
Proof.
  refine (MessagesService.history_is_what_was_added noisy [thePreview; thePreview]
            threeListeners _).
  intros l m svc o. reflexivity.
Defined.

(** Three listeners; the first removes its own registration when called. *)
Definition leaving (l : MessagesService.Listener) (m : Message)
    (st : MessagesService.Service * list N) : Res unit * (MessagesService.Service * list N) :=
  (Ok tt, (if N.eqb l 1 then MessagesService.unsubscribe 1 st.1 else st.1, st.2 ++ [l])).

Lemma self_unsubscribe_skips_next_witness :
  MessagesService.outside (MessagesService.addMessage leaving thePreview threeListeners)
  = [1; 3]%N
  /\ MessagesService.listeners
       (MessagesService.service (MessagesService.addMessage leaving thePreview threeListeners))
     = [2; 3]%N.
Proof.
  split; [vm_compute; reflexivity|].
  refine (proj1 (MessagesService.self_unsubscribe_skips_next leaving 1 2 [] [3]%N
                   thePreview threeListeners _ eq_refl _ _)).
  - split.
    + intros m svc o. reflexivity.
    + intros l m svc o Hl. unfold leaving. simpl.
      destruct (N.eqb l 1) eqn:H; [apply N.eqb_eq in H; contradiction | reflexivity].
  - simpl. tauto.
  - simpl. intros [H|[H|[]]]; discriminate.
Defined.

(** A start without credentials on a page that never shows a login. *)
Definition afterVainStart : SState State :=
  (startMonitoring (puppeteer loginLinkSite) None None None fresh).2.

Lemma start_without_credentials_tears_down_witness :
  isRunning (session afterVainStart) = true
  \/ browser (session afterVainStart) = None
  \/ exists b pre,
       browser (session afterVainStart) = Some b
       /\ log (env afterVainStart)
          = pre ++ [EvBrowserClose b false; EvLog LError (lit "Error during cleanup:")].
Proof.
  apply (start_without_credentials_tears_down (puppeteer loginLinkSite) None None None fresh);
    reflexivity.
Defined.

(** A message is added before there is a server; then the server comes
    up, socket 5 connects, and a second message is added. *)
Definition lateClient : list Gateway.Op :=
  [Gateway.Add thePreview; Gateway.ServerUp; Gateway.Connect 5; Gateway.Add thePreview].

Lemma connected_client_has_the_history_witness :
  Gateway.received
    (Gateway.inbox (MessagesService.outside (Gateway.runOps lateClient Gateway.initial)) 5)
  = MessagesService.getAllMessages
      (MessagesService.service (Gateway.runOps lateClient Gateway.initial)).
Proof.
  apply (Gateway.connected_client_has_the_history lateClient 5).
  - apply NoDup_singleton.
  - vm_compute. constructor.
Defined.

(** The login form of the simulated site: the phone input is what the
    first selector gives. *)
Lemma located_input_is_plausible_witness :
  exists r,
    locate (puppeteer (Scenarios.codeSite [])) styledVisible 1 phoneSelectors None
           (mkPState start [])
    = (Ok r, mkPState start [])
    /\ forall h, r = Some h ->
         plausible (puppeteer (Scenarios.codeSite [])) styledVisible 1 phoneSelectors start h.
Proof.
  apply (located_input_is_plausible (puppeteer (Scenarios.codeSite [])) styledVisible 1
           phoneSelectors (mkPState start [])).
  split; intros; reflexivity.
Defined.

(** The same text, from 'Рушан' and from 'Unknown'. *)
Definition theUnknown : Message :=
  mkMessage (IdMsg 0 7) (lit "see you at 5") (lit "Unknown") None 7.

Lemma known_senders_keys_injective_witness :
  messageKey thePreview <> messageKey theUnknown.
Proof.
  intros Hk.
  apply (KeyFacts.known_senders_keys_injective thePreview theUnknown) in Hk.
  - destruct Hk as (Hs & _). vm_compute in Hs. discriminate.
  - right. left. reflexivity.
  - right. right. left. reflexivity.
Defined.

(** A page with two messenger links, handle 1 under the first selector and
    handle 2 under the second; the click on handle 1 is rejected. *)
Definition stubbornLink {W} (P : Puppeteer W) : Puppeteer W := {|
  launch := launch W P;
  newPage := newPage W P;
  setViewport := setViewport W P;
  browserClose := browserClose W P;
  goto := goto W P;
  waitForTimeout := waitForTimeout W P;
  url := url W P;
  waitForSelector := waitForSelector W P;
  query := query W P;
  queryAll _ s w :=
    (Ok (if JS.eqb s (sel "a[href*='messenger']") then [1%N]
         else if JS.eqb s (sel "a[href*='/profile/messenger']") then [2%N] else []), w);
  click h _ w :=
    (if N.eqb h 1 then Throw (lit "Node is detached from document") else Ok tt, w);
  typeText := typeText W P;
  press := press W P;
  screenshot := screenshot W P;
  evalTextLower := evalTextLower W P;
  evalAttribute _ _ _ w := (Ok (lit "/profile/messenger"), w);
  evalPlaceholder := evalPlaceholder W P;
  evalInputType := evalInputType W P;
  evalBox := evalBox W P;
  evalSetInputType := evalSetInputType W P;
  evalErrorElements := evalErrorElements W P;
  evalProfileCounts := evalProfileCounts W P;
  evalInstallObserver := evalInstallObserver W P;
  evalChatSnapshot := evalChatSnapshot W P;
  evalPreviewSnapshot := evalPreviewSnapshot W P;
  onConsole := onConsole W P;
  dateNow := dateNow W P;
|}.

(** The rejected click is passed over and the link under the next selector
    is clicked. *)
Lemma rejected_click_is_passed_over :
  clickBySelectors (stubbornLink (puppeteer messengerSite)) looksLikeMessenger 3000 1
                   messengerLinkSelectors (mkPState start [])
  = (Ok true,
     mkPState start [EvClick OtherElement 1 false; EvClick OtherElement 2 true;
                     EvSleep 1 3000]).
Proof. vm_compute. reflexivity. Qed.

End MoreScenarios.

(** ** Processed keys that outlive a stop *)

Module KeyScenarios.

Import Sim.

(** The messenger of a logged-in account; the page shows one message of
    the correspondent. *)
Definition chattySite (closeFails : bool) : Site :=
  mkSite (fun _ => lit "https://www.avito.ru/profile/messenger") (fun _ _ => None)
         (fun _ _ => []) (fun _ _ => []) (fun _ => []) (fun _ => (1, 1, 0)%nat)
         (mkChatSnapshot [] Lit.Rushan [Lit.Rushan ++ lit ": hello"] 0)
         emptyPreview closeFails.

Definition theHello : Message :=
  mkMessage (IdMsg 0 0) (Lit.Rushan ++ lit ": hello") Lit.Rushan None 0.

(** Start, a console message while the session runs, stop. *)
Definition quietLife : list (LifeOp State) :=
  [LStart None None None; LConsole (lit "NEW_MESSAGE"); LStop].

(** Start, then a stop whose [browser.close()] is rejected, so that the
    page and its console listener stay; then the page logs 'NEW_MESSAGE'. *)
Definition haunted : list (LifeOp State) :=
  [LStart None None None; LStop; LConsole (lit "NEW_MESSAGE")].

Definition afterHaunted : SState State := runLife (puppeteer (chattySite true)) haunted fresh.

Lemma keys_cleared_by_stop_only_witness :
  consoleWhileLive (puppeteer (chattySite false)) quietLife fresh = true
  /\ processedMessages (session (runLife (puppeteer (chattySite false)) quietLife fresh)) = ∅.
Proof.
  assert (Hlive : consoleWhileLive (puppeteer (chattySite false)) quietLife fresh = true)
    by (vm_compute; reflexivity).
  split; [exact Hlive|].
  destruct (keys_cleared_by_stop_only (puppeteer (chattySite false)) start quietLife)
    as (_ & _ & _ & _ & H).
  destruct (H Hlive) as (Inv & _). apply Inv. vm_compute. reflexivity.
Defined.

(** C5 fails as stated: the first session recorded the key of the message;
    the stop cleared the set but could not close the browser; the console
    message then ran a check in the stopped session, which recorded the key
    again; the next start reaches its first check with that key in the
    set. *)
Lemma stale_key_at_next_start :
  isRunning (session afterHaunted) = false
  /\ processedMessages (session afterHaunted) <> ∅
  /\ processedMessages
       (session (startUpToFirstCheck (puppeteer (chattySite true)) None None None
                   afterHaunted).2) <> ∅.
Proof.
  assert (H1 : messageKey theHello ∈ processedMessages (session afterHaunted)).
  { apply (proj1 (bool_decide_eq_true _)). vm_compute. reflexivity. }
  assert (H2 : messageKey theHello
               ∈ processedMessages
                   (session (startUpToFirstCheck (puppeteer (chattySite true)) None None None
                               afterHaunted).2)).
  { apply (proj1 (bool_decide_eq_true _)). vm_compute. reflexivity. }
  split; [vm_compute; reflexivity|].
  split; intros Hempty.
  - rewrite Hempty in H1. exact (not_elem_of_empty _ H1).
  - rewrite Hempty in H2. exact (not_elem_of_empty _ H2).
Qed.

(** A running session that holds browser 1 and page 1. *)
Definition running : SState State :=
  mkSState (mkSession (Some 1) (Some 1) true (Some 0%nat) ∅) (mkPState start []).

(** A stop that arrives while a check awaits its first [page.evaluate]:
    the stop clears the set and calls [browser.close()]; the evaluation
    returns, the check records the key in the cleared set; the close is
    fulfilled.  The session is stopped, the browser closed, and the set is
    not empty. *)
Definition overtaken : SState State :=
  (cleanup (puppeteer (chattySite false))
     (runCheckInterleaved (puppeteer (chattySite false)) stopped (fun s => s) running).2).2.

Lemma stop_during_check_refills :
  isRunning (session overtaken) = false
  /\ browser (session overtaken) = None
  /\ processedMessages (session overtaken) <> ∅
  /\ Dedup.published (log (env overtaken)) = [theHello].
Proof.
  assert (H1 : messageKey theHello ∈ processedMessages (session overtaken)).
  { apply (proj1 (bool_decide_eq_true _)). vm_compute. reflexivity. }
  split; [vm_compute; reflexivity|]. split; [vm_compute; reflexivity|].
  split; [intros Hempty; rewrite Hempty in H1; exact (not_elem_of_empty _ H1)|].
  vm_compute. reflexivity.
Qed.

End KeyScenarios.
